(** * Exchange connectivity layer: a shallow embedding and its properties

    The development follows three source files:
    - [src/bybit_futures_trader/api/bybit_client.py]  (REST request signer),
    - [src/bybit_futures_trader/api/websocket_client.py] (streaming session,
      rate limiter, subscription registry, reconnect),
    - [src/third/data_api.py] (signed REST order gateway, stale-order sweep).

    Python objects become records, dictionaries become finite maps or
    association lists where order matters, and every method that touches
    the object or the outside world is a state-passing computation that
    either returns a value or raises, keeping the mutations made before
    the raise (as Python does).  Clock readings are integers counting
    milliseconds, so [time.time()] is the reading over 1000. *)

From Stdlib Require Import ZArith QArith Qround Qabs String Ascii List Lia Lqa.
From Stdlib Require Import DecimalString DecimalZ.
From stdpp Require Import gmap strings list.

Open Scope string_scope.
Open Scope Z_scope.

(** ** Text helpers shared by the three files *)

(** [str(n)] for a Python [int]. *)
Definition str_of_int (z : Z) : string := NilEmpty.string_of_int (Z.to_int z).

(** ['sep'.join(parts)]. *)
Fixpoint join (sep : string) (parts : list string) : string :=
  match parts with
  | [] => ""
  | [p] => p
  | p :: rest => p ++ sep ++ join sep rest
  end.

(** [sorted(items, key=lambda x: x[0])]: a stable insertion sort on the
    key, strings compared code point by code point as Python does. *)
Fixpoint insert_item {V} (kv : string * V) (l : list (string * V)) : list (string * V) :=
  match l with
  | [] => [kv]
  | kv' :: rest =>
      if String.leb (fst kv) (fst kv') then kv :: l else kv' :: insert_item kv rest
  end.

Definition sorted_items {V} (items : list (string * V)) : list (string * V) :=
  fold_right insert_item [] items.

(** *** Hexadecimal and base64 renderings of a byte string *)

Definition hex_digit (n : N) : ascii :=
  match n with
  | 0 => "0" | 1 => "1" | 2 => "2" | 3 => "3" | 4 => "4" | 5 => "5"
  | 6 => "6" | 7 => "7" | 8 => "8" | 9 => "9" | 10 => "a" | 11 => "b"
  | 12 => "c" | 13 => "d" | 14 => "e" | _ => "f"
  end%N%char.

(** [bytes.hex()], which is what [hexdigest()] returns for the digest. *)
Fixpoint hex (bytes : string) : string :=
  match bytes with
  | EmptyString => ""
  | String b rest =>
      String (hex_digit (N_of_ascii b / 16))
        (String (hex_digit (N_of_ascii b mod 16)) (hex rest))
  end.

Definition b64_alphabet : string :=
  "ABCDEFGHIJKLMNOPQRSTUVWXYZabcdefghijklmnopqrstuvwxyz0123456789+/".

Definition b64_char (n : N) : ascii :=
  match String.get (N.to_nat n) b64_alphabet with
  | Some c => c
  | None => "="%char
  end.

(** [base64.b64encode(bytes).decode('utf-8')]. *)
Fixpoint b64encode (bytes : string) : string :=
  match bytes with
  | EmptyString => ""
  | String a EmptyString =>
      let a := N_of_ascii a in
      String (b64_char (a / 4)) (String (b64_char ((a mod 4) * 16)) "==")
  | String a (String b EmptyString) =>
      let a := N_of_ascii a in
      let b := N_of_ascii b in
      String (b64_char (a / 4))
        (String (b64_char ((a mod 4) * 16 + b / 16))
           (String (b64_char ((b mod 16) * 4)) "="))
  | String a (String b (String c rest)) =>
      let a := N_of_ascii a in
      let b := N_of_ascii b in
      let c := N_of_ascii c in
      String (b64_char (a / 4))
        (String (b64_char ((a mod 4) * 16 + b / 16))
           (String (b64_char ((b mod 16) * 4 + c / 64))
              (String (b64_char (c mod 64)) (b64encode rest))))
  end%N.


(** Readers that undo the two digit alphabets. *)



(** [s.split(sep, 1)] for a one-character separator: the text before
    the first occurrence and the text after it, when there is one. *)
Fixpoint split_once (sep : ascii) (s : string) : option (string * string) :=
  match s with
  | EmptyString => None
  | String c rest =>
      if Ascii.eqb c sep then Some (EmptyString, rest)
      else match split_once sep rest with
           | Some (before, after) => Some (String c before, after)
           | None => None
           end
  end.

(** [s.split(sep)] for a one-character separator. *)
Fixpoint split_on (sep : ascii) (s : string) : list string :=
  match s with
  | EmptyString => [EmptyString]
  | String c rest =>
      if Ascii.eqb c sep then EmptyString :: split_on sep rest
      else match split_on sep rest with
           | piece :: pieces => String c piece :: pieces
           | [] => [String c EmptyString]
           end
  end.

(** [sorted(strings)]. *)
Fixpoint insert_string (x : string) (l : list string) : list string :=
  match l with
  | [] => [x]
  | y :: rest => if String.leb x y then x :: l else y :: insert_string x rest
  end.

Definition sorted_strings (l : list string) : list string :=
  fold_right insert_string [] l.
(** ** The Python values and effects the code relies on *)

(** Exceptions.  All of them derive from [Exception], so a bare
    [except Exception] handler catches every one. *)
Inductive exn : Type :=
  | Exception (msg : string)      (* [raise Exception(msg)] *)
  | TypeError
  | KeyError (key : string)
  | ValueError
  | AttributeError
  | IndexError
  | RecursionError                (* the interpreter's stack is full *)
  | TransportError.               (* socket, HTTP or decoding failure *)

(** What a call yields: a value, or an exception on its way up. *)
Inductive outcome (A : Type) : Type :=
  | Ret (a : A)
  | Raise (e : exn).
Arguments Ret {A} a.
Arguments Raise {A} e.

(** A method of an object in state [S]: the state after the call is kept
    also when the call raises. *)
Definition M (S A : Type) : Type := S -> outcome A * S.

Definition ret {S A} (a : A) : M S A := fun s => (Ret a, s).

Definition raise {S A} (e : exn) : M S A := fun s => (Raise e, s).

Definition bind {S A B} (c : M S A) (k : A -> M S B) : M S B :=
  fun s => match c s with
           | (Ret a, s') => k a s'
           | (Raise e, s') => (Raise e, s')
           end.

(** [try: c except Exception as e: h e]. *)
Definition try_except {S A} (c : M S A) (h : exn -> M S A) : M S A :=
  fun s => match c s with
           | (Ret a, s') => (Ret a, s')
           | (Raise e, s') => h e s'
           end.

Definition get_state {S} : M S S := fun s => (Ret s, s).

Definition modify {S} (f : S -> S) : M S unit := fun s => (Ret tt, f s).

(** Lifts a pure step that may raise. *)
Definition lift {S A} (o : outcome A) : M S A := fun s => (o, s).

Notation "'let*' x ':=' c 'in' k" := (bind c (fun x => k))
  (at level 10, x name, c at level 100, k at level 200).
Notation "'let*' '_' ':=' c 'in' k" := (bind c (fun _ => k))
  (at level 10, c at level 100, k at level 200).

(** [for x in xs: body x]. *)
Fixpoint for_each {S A} (xs : list A) (body : A -> M S unit) : M S unit :=
  match xs with
  | [] => ret tt
  | x :: rest => let* _ := body x in for_each rest body
  end.

(** Decoded JSON, which is also the shape of the dictionaries the code
    builds.  A dictionary keeps its items in insertion order; numbers
    are exact rationals standing for Python's [int] and [float]. *)
#[warnings="-register-all"] Inductive json : Type :=
  | JNull
  | JBool (b : bool)
  | JNum (q : Q)
  | JStr (s : string)
  | JList (l : list json)
  | JDict (d : list (string * json)).

(** Truth value of an object in a condition. *)
Definition truthy (v : json) : bool :=
  match v with
  | JNull => false
  | JBool b => b
  | JNum q => negb (Qeq_bool q 0)
  | JStr s => negb (String.eqb s "")
  | JList l => match l with [] => false | _ => true end
  | JDict d => match d with [] => false | _ => true end
  end.

Fixpoint assoc {V} (key : string) (d : list (string * V)) : option V :=
  match d with
  | [] => None
  | (k, v) :: rest => if String.eqb k key then Some v else assoc key rest
  end.

(** [v.get(key, default)]; only dictionaries have the method. *)
Definition dict_get (v : json) (key : string) (default : json) : outcome json :=
  match v with
  | JDict d => Ret (match assoc key d with Some x => x | None => default end)
  | _ => Raise AttributeError
  end.

(** [a == b] where [b] is a string literal. *)
Definition eq_str (a : json) (b : string) : bool :=
  match a with
  | JStr s => String.eqb s b
  | _ => false
  end.

(** [iter(v)] as far as a [for] loop consumes it. *)
Definition py_iter (v : json) : outcome (list json) :=
  match v with
  | JList l => Ret l
  | JDict d => Ret (map (fun kv => JStr (fst kv)) d)
  | JStr s => Ret (map (fun c => JStr (String c EmptyString)) (list_ascii_of_string s))
  | _ => Raise TypeError
  end.

(** [round(x)] of a float: to the nearest integer, ties to even. *)
Definition py_round (x : Q) : Z :=
  let f := Qfloor x in
  match Qcompare (x - inject_Z f) (1 # 2) with
  | Lt => f
  | Gt => f + 1
  | Eq => if Z.even f then f else f + 1
  end.

(** [int(x)] of a float: truncation towards zero. *)
Definition py_trunc (x : Q) : Z := Z.quot (Qnum x) (Z.pos (Qden x)).

(** The library functions the code calls and this development does not
    re-implement: the keyed hash, the conversions between text and
    numbers, and the JSON and query-string writers.  A reading that Python rejects with [ValueError] is [None].
    The laws are the readings of the literal defaults the code
    passes to [dict.get], and that a float never prints as the empty
    text. *)
Class PyRuntime : Type := {
  hmac_sha256 : string -> string -> string;
  float_of_str : string -> option Q;
  int_of_str : string -> option Z;
  str_of_float : Q -> string;
  json_dumps : json -> string;
  urlencode : list (string * string) -> string;
  float_of_str_zero : float_of_str "0" = Some 0%Q;
  int_of_str_one : int_of_str "1" = Some 1%Z;
  str_of_float_nonempty : forall q, str_of_float q <> "";
}.

Section Builtins.

Context `{PyRuntime}.

(** [float(v)]. *)
Definition py_float (v : json) : outcome Q :=
  match v with
  | JNum q => Ret q
  | JBool b => Ret (if b then 1%Q else 0%Q)
  | JStr s => match float_of_str s with Some q => Ret q | None => Raise ValueError end
  | _ => Raise TypeError
  end.

(** [int(v)]. *)
Definition py_int (v : json) : outcome Z :=
  match v with
  | JNum q => Ret (py_trunc q)
  | JBool b => Ret (if b then 1 else 0)
  | JStr s => match int_of_str s with Some z => Ret z | None => Raise ValueError end
  | _ => Raise TypeError
  end.

End Builtins.


(** *** A runtime for running the model

    Plain decimal readers and printers, enough for the texts an
    exchange sends ("0", "0.5", "1700000031000") and for the tenths the
    gateway prints.  They read less than Python does (no exponent, no
    leading plus sign, no surrounding blanks); nothing stated for every
    runtime depends on them. *)

Definition dec_int_of_str (s : string) : option Z :=
  option_map Z.of_int (NilZero.int_of_string s).

Definition dec_float_of_str (s : string) : option Q :=
  match split_once "." s with
  | None => option_map inject_Z (dec_int_of_str s)
  | Some (whole, frac) =>
      match dec_int_of_str whole, NilZero.uint_of_string frac with
      | Some i, Some u =>
          let scale := 10 ^ Z.of_nat (String.length frac) in
          let f := Z.of_uint u in
          let negative := match whole with String "-" _ => true | _ => false end in
          Some (Qmake (if negative then i * scale - f else i * scale + f) (Z.to_pos scale))
      | _, _ => None
      end
  end.

Definition dec_str_of_float (x : Q) : string :=
  let k := py_round (x * 10) in
  (if k <? 0 then "-" else "")
    ++ str_of_int (Z.abs k / 10) ++ "." ++ str_of_int (Z.abs k mod 10).

Definition quoted (s : string) : string :=
  let q := String (ascii_of_nat 34) EmptyString in q ++ s ++ q.

Fixpoint dec_json_dumps (j : json) : string :=
  match j with
  | JNull => "null"
  | JBool b => if b then "true" else "false"
  | JNum q => if Pos.eqb (Qden q) 1 then str_of_int (Qnum q) else dec_str_of_float q
  | JStr s => quoted s
  | JList l => "[" ++ join ", " (map dec_json_dumps l) ++ "]"
  | JDict d =>
      "{" ++ join ", " (map (fun kv => quoted (fst kv) ++ ": " ++ dec_json_dumps (snd kv)) d)
        ++ "}"
  end.

Definition plain_urlencode (items : list (string * string)) : string :=
  join "&" (map (fun kv => fst kv ++ "=" ++ snd kv) items).

(** A keyed hash that shows what went into it: the key and the message
    side by side.  It stands in for HMAC-SHA256 where a run needs some
    keyed hash, and it has no collisions. *)
Definition transparent_hash (key message : string) : string :=
  str_of_int (Z.of_nat (String.length key)) ++ ":" ++ key ++ message.

Lemma dec_str_of_float_nonempty (q : Q) : dec_str_of_float q <> "".
Proof.
  unfold dec_str_of_float. cbv zeta.
  destruct (py_round (q * 10) <? 0); [discriminate |].
  destruct (str_of_int (Z.abs (py_round (q * 10)) / 10)); discriminate.
Qed.

Definition decimal_runtime : PyRuntime :=
  {| hmac_sha256 := transparent_hash;
     float_of_str := dec_float_of_str;
     int_of_str := dec_int_of_str;
     str_of_float := dec_str_of_float;
     json_dumps := dec_json_dumps;
     urlencode := plain_urlencode;
     float_of_str_zero := eq_refl;
     int_of_str_one := eq_refl;
     str_of_float_nonempty := dec_str_of_float_nonempty |}.

(** ** hashlib and hmac: the digest the signers call

    [hashlib.sha256] as FIPS 180-4 defines it and [hmac.new(key, msg,
    hashlib.sha256).digest()] as RFC 2104 defines it, on byte strings.
    The properties stated for every runtime do not depend on them; they
    serve where the digest itself matters: it has 32 bytes, whatever it
    is given. *)

Module SHA256.

(** A 32-bit word is a [Z] below [2 ^ 32]. *)
Definition w32 (x : Z) : Z := Z.land x 4294967295.

Definition add (x y : Z) : Z := w32 (x + y).









(** The constants are not chosen.  The initial hash value holds the
    first 32 bits of the fractional parts of the square roots of the
    first eight primes, and the sixty-four round constants hold those
    of the cube roots of the first sixty-four primes. *)
Definition is_prime (n : Z) : bool :=
  forallb (fun d => negb (n mod d =? 0)) (map Z.of_nat (seq 2 (Z.to_nat n - 2))).

Definition primes : list Z := List.filter is_prime (map Z.of_nat (seq 2 310)).

(** The integer cube root of [x], found a bit at a time from bit
    [bits - 1] down. *)
Fixpoint cube_root (bits : nat) (x r : Z) : Z :=
  match bits with
  | O => r
  | S b =>
      let r' := r + Z.shiftl 1 (Z.of_nat b) in
      cube_root b x (if r' * r' * r' <=? x then r' else r)
  end.


Definition cube_root_fraction (p : Z) : Z := w32 (cube_root 40 (Z.shiftl p 96) 0).

Definition K : list Z := Eval vm_compute in map cube_root_fraction primes.

















End SHA256.




(** ** More of Python's dictionaries and strings *)

(** [str.lower()] on the ASCII letters. *)
Definition lower (s : string) : string :=
  string_of_list_ascii
    (map (fun c => let n := nat_of_ascii c in
                   if (65 <=? n)%nat && (n <=? 90)%nat then ascii_of_nat (n + 32) else c)
       (list_ascii_of_string s)).

(** [d[key] = value]: a key the dictionary has keeps its place, a new
    one goes to the end. *)
Fixpoint dict_set {V} (key : string) (value : V) (d : list (string * V)) : list (string * V) :=
  match d with
  | [] => [(key, value)]
  | (k, v) :: rest =>
      if String.eqb k key then (key, value) :: rest else (k, v) :: dict_set key value rest
  end.

(** [d[key]] for a dictionary [d]. *)
Definition item {V} (d : list (string * V)) (key : string) : outcome V :=
  match assoc key d with
  | Some v => Ret v
  | None => Raise (KeyError key)
  end.

(** [v[key]] for a decoded JSON value and a text key: only a
    dictionary can be subscripted so. *)
Definition json_item (v : json) (key : string) : outcome json :=
  match v with
  | JDict d => item d key
  | _ => Raise TypeError
  end.

(** [key in d]. *)
Definition has_key {V} (key : string) (d : list (string * V)) : bool :=
  match assoc key d with
  | Some _ => true
  | None => false
  end.

(** Sequencing for a computation that has no state to thread. *)
Definition and_then {A B} (o : outcome A) (k : A -> outcome B) : outcome B :=
  match o with
  | Ret a => k a
  | Raise e => Raise e
  end.

Notation "'try*' x ':=' o 'in' k" := (and_then o (fun x => k))
  (at level 10, x name, o at level 100, k at level 200).

(** *** Floats that are no number

    Python's [float] has three values that [json]'s exact rationals
    have no place for.  [float()] reads them from a text: blanks around
    it dropped, an optional sign, and "nan", "inf" or "infinity" in any
    mix of upper and lower case.  The texts are ASCII. *)
Inductive nonfinite : Type :=
  | NaN
  | Infinity (negative : bool).

(** A Python object where such a float may turn up: a decoded-JSON
    value, or one of the three. *)
Inductive pyval : Type :=
  | Json (j : json)
  | Float (f : nonfinite).

Coercion Json : json >-> pyval.

(** Truth value of an object in a condition; [nan] and the infinities
    are not zero. *)
Definition truthy_val (v : pyval) : bool :=
  match v with
  | Json j => truthy j
  | Float _ => true
  end.

(** The blanks [float()] drops: tab to carriage return, and space. *)
Definition is_space (c : ascii) : bool :=
  let n := nat_of_ascii c in
  ((9 <=? n)%nat && (n <=? 13)%nat) || (n =? 32)%nat.

Fixpoint lstrip (s : string) : string :=
  match s with
  | EmptyString => EmptyString
  | String c rest => if is_space c then lstrip rest else s
  end.

Fixpoint rstrip (s : string) : string :=
  match s with
  | EmptyString => EmptyString
  | String c rest =>
      let kept := rstrip rest in
      if is_space c && String.eqb kept "" then EmptyString else String c kept
  end.

Definition strip (s : string) : string := rstrip (lstrip s).

Definition nonfinite_of_str (s : string) : option nonfinite :=
  let t := lower (strip s) in
  let '(negative, body) :=
    match t with
    | String "-" rest => (true, rest)
    | String "+" rest => (false, rest)
    | _ => (false, t)
    end in
  if String.eqb body "nan" then Some NaN
  else if String.eqb body "inf" || String.eqb body "infinity" then Some (Infinity negative)
  else None.

Section Floats.

Context `{PyRuntime}.

(** [float(v)] with all its values: a text that names no number is
    read first, every other argument as [py_float] reads it. *)
Definition float_of (v : json) : outcome pyval :=
  match v with
  | JStr s =>
      match nonfinite_of_str s with
      | Some f => Ret (Float f)
      | None => try* q := py_float v in Ret (Json (JNum q))
      end
  | _ => try* q := py_float v in Ret (Json (JNum q))
  end.

End Floats.

(** [v <= 0] and [v > 1] for a number [v].  Every comparison with
    [nan] is false. *)
Definition le_zero (v : pyval) : outcome bool :=
  match v with
  | Json (JNum q) => Ret (Qle_bool q 0)
  | Json (JBool b) => Ret (negb b)
  | Float NaN => Ret false
  | Float (Infinity negative) => Ret negative
  | _ => Raise TypeError
  end.

Definition gt_one (v : pyval) : outcome bool :=
  match v with
  | Json (JNum q) => Ret (negb (Qle_bool q 1))
  | Json (JBool b) => Ret false
  | Float NaN => Ret false
  | Float (Infinity negative) => Ret (negb negative)
  | _ => Raise TypeError
  end.

(** [v.encode('utf-8')]: only a text has the method. *)
Definition encode (v : pyval) : outcome string :=
  match v with
  | Json (JStr s) => Ret s
  | _ => Raise AttributeError
  end.

(** *** Key order and separators *)

Definition key_le {V : Type} (a b : string * V) : Prop :=
  String.leb (fst a) (fst b) = true.

(** A list in key order: every item is below all the later ones. *)
Fixpoint ordered {V : Type} (l : list (string * V)) : Prop :=
  match l with
  | [] => True
  | a :: rest => Forall (key_le a) rest /\ ordered rest
  end.

(** A text in which the separator does not occur. *)
Definition free_of (sep : ascii) (s : string) : Prop :=
  ~ In sep (list_ascii_of_string s).

(** ** bybit_client.py *)

Module BybitClient.

Section Client.

Context `{PyRuntime}.

(** The text [BybitClientV2._generate_signature] signs.  [params] lists
    the dictionary's items in insertion order, each value already
    rendered by the f-string. *)
Definition signature_payload (params : list (string * string)) (timestamp : Z) : string :=
  let sorted_params := sorted_items params in
  join "&" (map (fun kv => fst kv ++ "=" ++ snd kv) sorted_params)
    ++ "&timestamp=" ++ str_of_int timestamp.

(** [BybitClientV2._generate_signature(params, timestamp)]. *)
Definition _generate_signature (secret_key : string)
    (params : list (string * string)) (timestamp : Z) : string :=
  hex (hmac_sha256 secret_key (signature_payload params timestamp)).

End Client.

(** *** The requests of [BybitClientV2] and of its three subclasses *)

(** The value of a request parameter: the callers pass texts and
    integers. *)
Inductive scalar : Type :=
  | SStr (s : string)
  | SInt (z : Z).

(** [f"{v}"]. *)
Definition fstr (v : scalar) : string :=
  match v with
  | SStr s => s
  | SInt z => str_of_int z
  end.

(** What [requests] is handed: [params=] on a GET, [json=] otherwise. *)
Record request : Type := {
  req_method : string;
  req_url : string;
  req_params : option (list (string * scalar));
  req_json : option (list (string * scalar));
  req_headers : list (string * string);
}.

(** What comes back: a [RequestException] (no connection, a timeout),
    or a status and the decoded body.  A body that is not JSON is left
    out: whether [response.json()] then raises a [RequestException]
    depends on the version of [requests]. *)
Inductive reply : Type :=
  | NoAnswer
  | Answer (status : Z) (data : json).

(** A client object and the world it talks to.  [api_key] and
    [secret_key] are the two entries of the "bybit" section of the
    settings that the client reads, [base_url] what
    [get_bybit_base_url] gave. *)
Record state : Type := {
  api_key : string;
  secret_key : string;
  base_url : string;
  clock : Z;                      (* [time.time()], in milliseconds *)
  inbox : list reply;             (* the next answers *)
  calls : list request;           (* requests issued, oldest first *)
}.

(** [class BybitAPIException(Exception)]: the class adds nothing to
    [Exception]; the messages are the source's, without the details
    they quote. *)
Definition BybitAPIException (msg : string) : exn := Exception msg.

Definition api_error : exn := BybitAPIException "API error".

Definition request_failed : exn := BybitAPIException "Request failed".

(** [v != 0]. *)
Definition differs_from_zero (v : json) : bool :=
  match v with
  | JNum q => negb (Qeq_bool q 0)
  | JBool b => b
  | _ => true
  end.

(** [try: c except requests.exceptions.RequestException: h]. *)
Definition except_request {S A} (c : M S A) (h : M S A) : M S A :=
  fun s => match c s with
           | (Raise TransportError, s') => h s'
           | result => result
           end.

Section Requests.

Context `{PyRuntime}.

(** [self.session.get(...)] or [self.session.post(...)], then
    [response.json()]. *)
Definition session_send (r : request) : M state (Z * json) :=
  fun s =>
    let sent (rest : list reply) :=
      {| api_key := api_key s; secret_key := secret_key s; base_url := base_url s;
         clock := clock s; inbox := rest; calls := calls s ++ [r] |} in
    match inbox s with
    | [] => (Raise TransportError, sent [])
    | NoAnswer :: rest => (Raise TransportError, sent rest)
    | Answer status data :: rest => (Ret (status, data), sent rest)
    end.

(** The parameters as [_generate_signature] renders them. *)
Definition rendered (params : list (string * scalar)) : list (string * string) :=
  map (fun kv => (fst kv, fstr (snd kv))) params.

(** The parameters and headers of an authenticated request made at
    clock reading [timestamp]. *)
Definition authenticated (s : state) (timestamp : Z) (params : option (list (string * scalar)))
    : list (string * scalar) * list (string * string) :=
  let params := match params with
                | Some (kv :: rest) => kv :: rest
                | _ => []
                end in
  let params := dict_set "api_key" (SStr (api_key s)) params in
  let params := dict_set "timestamp" (SInt timestamp) params in
  let signature := _generate_signature (secret_key s) (rendered params) timestamp in
  (params,
   [ ("X-BAPI-API-KEY", api_key s);
     ("X-BAPI-SIGN", signature);
     ("X-BAPI-TIMESTAMP", str_of_int timestamp);
     ("X-BAPI-RECV-WINDOW", "5000") ]).

(** [BybitClientV2._send_request].  The handler is for
    [RequestException] only: every other exception leaves the method
    as it is. *)
Definition _send_request (method endpoint : string)
    (params : option (list (string * scalar))) (auth_required : bool) : M state json :=
  let* s := get_state in
  let url := base_url s ++ endpoint in
  let '(params, headers) :=
    if auth_required then
      let '(params, headers) := authenticated s (clock s) params in (Some params, headers)
    else (params, []) in
  except_request
    (let* response :=
       if String.eqb method "GET" then
         session_send {| req_method := "GET"; req_url := url; req_params := params;
                         req_json := None; req_headers := headers |}
       else
         session_send {| req_method := "POST"; req_url := url; req_params := None;
                         req_json := params;
                         req_headers := dict_set "Content-Type" "application/json" headers |} in
     let '(status, data) := response in
     let* failed :=
       if negb (status =? 200) then ret true
       else let* ret_code := lift (dict_get data "retCode" JNull) in
            ret (differs_from_zero ret_code) in
     if failed then
       let* _ := lift (dict_get data "retMsg" JNull) in
       let* _ := lift (dict_get data "retCode" JNull) in
       raise api_error
     else lift (json_item data "result"))
    (raise request_failed).

(** [SpotTradeClient.get_market_price]. *)
Definition get_market_price (symbol : string) : M state json :=
  _send_request "GET" "/api/v2/spot/market/tickers" (Some [ ("symbol", SStr symbol) ]) false.

(** [price and order_type == 'Limit'], for a price that is a float or
    [None]. *)
Definition priced (price : option Q) (order_type : string) : bool :=
  match price with
  | Some p => negb (Qeq_bool p 0) && String.eqb order_type "Limit"
  | None => false
  end.

(** [if price and order_type == 'Limit': params['price'] = str(price)]. *)
Definition with_price (price : option Q) (order_type : string)
    (params : list (string * scalar)) : list (string * scalar) :=
  match price with
  | Some p =>
      if negb (Qeq_bool p 0) && String.eqb order_type "Limit" then
        dict_set "price" (SStr (str_of_float p)) params
      else params
  | None => params
  end.

(** [SpotTradeClient.place_order]. *)
Definition spot_place_order (symbol side order_type : string) (qty : Q) (price : option Q)
    : M state json :=
  let params := [ ("symbol", SStr symbol);
                  ("side", SStr side);
                  ("orderType", SStr order_type);
                  ("qty", SStr (str_of_float qty)) ] in
  let params := with_price price order_type params in
  _send_request "POST" "/api/v2/spot/trade/place-order" (Some params) true.

(** [FuturesTradeClient.place_order]. *)
Definition futures_place_order (symbol side order_type : string) (qty : Q)
    (trade_side : string) (price : option Q) : M state json :=
  let params := [ ("symbol", SStr symbol);
                  ("side", SStr side);
                  ("orderType", SStr order_type);
                  ("qty", SStr (str_of_float qty));
                  ("tradeSide", SStr trade_side);
                  ("category", SStr "linear") ] in
  let params := with_price price order_type params in
  _send_request "POST" "/api/v2/mix/order/place-order" (Some params) true.

(** [FuturesTradeClient.set_leverage]. *)
Definition set_leverage (symbol : string) (leverage : Z) (position_idx : option Z)
    : M state json :=
  let params := [ ("symbol", SStr symbol);
                  ("leverage", SInt leverage);
                  ("category", SStr "linear") ] in
  let params := match position_idx with
                | Some i => dict_set "positionIdx" (SInt i) params
                | None => params
                end in
  _send_request "POST" "/api/v2/mix/account/set-leverage" (Some params) true.

(** The answers that let [_send_request] return: status 200 and a
    dictionary whose ["retCode"] equals zero. *)
Definition accepted (r : reply) : option (list (string * json)) :=
  match r with
  | Answer 200 (JDict d) =>
      if differs_from_zero (match assoc "retCode" d with Some c => c | None => JNull end)
      then None else Some d
  | _ => None
  end.

(** What [_send_request] makes of the answer it gets, if any. *)
Definition result_of (answer : option reply) : outcome json :=
  match answer with
  | None | Some NoAnswer => Raise request_failed
  | Some (Answer status data) =>
      match data with
      | JDict d =>
          if negb (status =? 200) then Raise api_error
          else match accepted (Answer status data) with
               | Some _ => item d "result"
               | None => Raise api_error
               end
      | _ => Raise AttributeError
      end
  end.

(** The one request a call of [_send_request] issues. *)
Definition issued (s : state) (method endpoint : string)
    (params : option (list (string * scalar))) (auth_required : bool) : request :=
  let sent := if auth_required then
                (Some (fst (authenticated s (clock s) params)),
                 snd (authenticated s (clock s) params))
              else (params, []) in
  if String.eqb method "GET" then
    {| req_method := "GET"; req_url := base_url s ++ endpoint; req_params := fst sent;
       req_json := None; req_headers := snd sent |}
  else
    {| req_method := "POST"; req_url := base_url s ++ endpoint; req_params := None;
       req_json := fst sent;
       req_headers := dict_set "Content-Type" "application/json" (snd sent) |}.

(** The parameters a request carries, in the query or in the body. *)
Definition carried (r : request) : list (string * scalar) :=
  match req_params r, req_json r with
  | Some p, _ => p
  | None, Some p => p
  | None, None => []
  end.

End Requests.

End BybitClient.

(** ** config/settings.py: the settings the clients read *)

Module Settings.

(** The process environment once [load_dotenv] has run: what
    [os.getenv] sees. *)
Definition environ : Type := gmap string string.

(** [os.getenv(name, default)]; without a default the value of a
    missing variable is [None]. *)
Definition getenv (env : environ) (name : string) (default : json) : json :=
  match env !! name with
  | Some v => JStr v
  | None => default
  end.

(** The four dictionaries of a [Config] object.  Their values are
    texts, booleans, [None] and numbers, the numbers being whatever
    [float()] and [int()] made of the environment. *)
Record Config : Type := {
  BYBIT_API_CONFIG : list (string * pyval);
  DATABASE_CONFIG : list (string * pyval);
  TRADING_CONFIG : list (string * pyval);
  LOGGING_CONFIG : list (string * pyval);
}.

Section Settings.

Context `{PyRuntime}.

(** [os.getenv('BYBIT_TESTNET', 'true').lower() == 'true']. *)
Definition testnet_flag (env : environ) : bool :=
  match getenv env "BYBIT_TESTNET" (JStr "true") with
  | JStr v => String.eqb (lower v) "true"
  | _ => false
  end.

(** [Config._validate_config].  The range of the risk is tested with
    [<=] and [>] on a float, so a risk that is [nan] passes: both
    comparisons are false. *)
Definition _validate_config (c : Config) : outcome unit :=
  try* api_key := item (BYBIT_API_CONFIG c) "api_key" in
  try* no_keys :=
    if negb (truthy_val api_key) then Ret true
    else try* secret_key := item (BYBIT_API_CONFIG c) "secret_key" in
         Ret (negb (truthy_val secret_key)) in
  if no_keys then Raise ValueError else
  try* password := item (DATABASE_CONFIG c) "password" in
  if negb (truthy_val password) then Raise ValueError else
  try* risk := item (TRADING_CONFIG c) "risk_percentage" in
  try* too_low := le_zero risk in
  try* out_of_range :=
    if too_low then Ret true
    else try* risk := item (TRADING_CONFIG c) "risk_percentage" in
         gt_one risk in
  if out_of_range then Raise ValueError else
  Ret tt.

(** [Config.__init__], the environment file already loaded. *)
Definition __init__ (env : environ) : outcome Config :=
  let bybit : list (string * pyval) :=
    [ ("testnet", Json (JBool (testnet_flag env)));
      ("base_url_testnet", Json (JStr "https://api-testnet.bybit.com"));
      ("base_url_mainnet", Json (JStr "https://api.bybit.com"));
      ("api_key", Json (getenv env "BYBIT_ACCESS_KEY" JNull));
      ("secret_key", Json (getenv env "BYBIT_SECRET_KEY" JNull)) ] in
  try* port := py_int (getenv env "DB_PORT" (JNum 3306)) in
  let database : list (string * pyval) :=
    [ ("host", Json (getenv env "DB_HOST" (JStr "localhost")));
      ("user", Json (getenv env "DB_USER" (JStr "root")));
      ("password", Json (getenv env "DB_PASSWORD" JNull));
      ("database", Json (getenv env "DB_NAME" (JStr "bybit_trading")));
      ("port", Json (JNum (inject_Z port))) ] in
  try* leverage := float_of (getenv env "TRADING_LEVERAGE" (JNum 10)) in
  try* risk_percentage := float_of (getenv env "RISK_PERCENTAGE" (JNum (1 # 100))) in
  try* stop_loss_percentage := float_of (getenv env "STOP_LOSS_PERCENTAGE" (JNum (2 # 100))) in
  let trading : list (string * pyval) :=
    [ ("symbol", Json (getenv env "TRADING_SYMBOL" (JStr "BTCUSDT")));
      ("leverage", leverage);
      ("risk_percentage", risk_percentage);
      ("stop_loss_percentage", stop_loss_percentage) ] in
  let logging : list (string * pyval) :=
    [ ("level", Json (getenv env "LOG_LEVEL" (JStr "INFO")));
      ("file_path", Json (getenv env "LOG_FILE" (JStr "trading_log.log"))) ] in
  let self := {| BYBIT_API_CONFIG := bybit; DATABASE_CONFIG := database;
                 TRADING_CONFIG := trading; LOGGING_CONFIG := logging |} in
  try* _ := _validate_config self in
  Ret self.

(** [Config.get_bybit_base_url]. *)
Definition get_bybit_base_url (c : Config) : outcome pyval :=
  try* testnet := item (BYBIT_API_CONFIG c) "testnet" in
  if truthy_val testnet then item (BYBIT_API_CONFIG c) "base_url_testnet"
  else item (BYBIT_API_CONFIG c) "base_url_mainnet".

(** [Config.get_config]. *)
Definition get_config (c : Config) (config_type : string) : list (string * pyval) :=
  let config_map := [ ("bybit", BYBIT_API_CONFIG c);
                      ("database", DATABASE_CONFIG c);
                      ("trading", TRADING_CONFIG c);
                      ("logging", LOGGING_CONFIG c) ] in
  match assoc config_type config_map with
  | Some section => section
  | None => []
  end.

(** What the environment must hold for [Config] to be constructed,
    once the four numeric settings read as the port [port] and the
    floats [leverage], [risk] and [stop_loss]. *)
Definition nonempty_variable (env : environ) (name : string) : Prop :=
  exists v, env !! name = Some v /\ v <> "".

Definition numeric_settings (env : environ) (port : Z) (leverage risk stop_loss : pyval)
    : Prop :=
  py_int (getenv env "DB_PORT" (JNum 3306)) = Ret port /\
  float_of (getenv env "TRADING_LEVERAGE" (JNum 10)) = Ret leverage /\
  float_of (getenv env "RISK_PERCENTAGE" (JNum (1 # 100))) = Ret risk /\
  float_of (getenv env "STOP_LOSS_PERCENTAGE" (JNum (2 # 100))) = Ret stop_loss.

(** The risks the validation lets through: the numbers above 0 and up
    to 1, and [nan]. *)
Definition risk_accepted (risk : pyval) : Prop :=
  match risk with
  | Json (JNum q) => (0 < q)%Q /\ (q <= 1)%Q
  | Json (JBool b) => b = true
  | Float NaN => True
  | _ => False
  end.

Definition valid_settings (env : environ) (risk : pyval) : Prop :=
  nonempty_variable env "BYBIT_ACCESS_KEY" /\ nonempty_variable env "BYBIT_SECRET_KEY" /\
  nonempty_variable env "DB_PASSWORD" /\ risk_accepted risk.

(** The test of the range, as the code evaluates it. *)
Definition out_of_range (risk : pyval) : bool :=
  match le_zero risk, gt_one risk with
  | Ret true, _ => true
  | Ret false, Ret b => b
  | _, _ => true
  end.

(** The tests of [_validate_config], in its order. *)
Definition checks (env : environ) (risk : pyval) : bool :=
  truthy (getenv env "BYBIT_ACCESS_KEY" JNull) && truthy (getenv env "BYBIT_SECRET_KEY" JNull)
  && truthy (getenv env "DB_PASSWORD" JNull) && negb (out_of_range risk).

(** The object [__init__] has filled in when it reaches the
    validation. *)
Definition built (env : environ) (port : Z) (leverage risk stop_loss : pyval) : Config :=
  {| BYBIT_API_CONFIG :=
       [ ("testnet", Json (JBool (testnet_flag env)));
         ("base_url_testnet", Json (JStr "https://api-testnet.bybit.com"));
         ("base_url_mainnet", Json (JStr "https://api.bybit.com"));
         ("api_key", Json (getenv env "BYBIT_ACCESS_KEY" JNull));
         ("secret_key", Json (getenv env "BYBIT_SECRET_KEY" JNull)) ];
     DATABASE_CONFIG :=
       [ ("host", Json (getenv env "DB_HOST" (JStr "localhost")));
         ("user", Json (getenv env "DB_USER" (JStr "root")));
         ("password", Json (getenv env "DB_PASSWORD" JNull));
         ("database", Json (getenv env "DB_NAME" (JStr "bybit_trading")));
         ("port", Json (JNum (inject_Z port))) ];
     TRADING_CONFIG :=
       [ ("symbol", Json (getenv env "TRADING_SYMBOL" (JStr "BTCUSDT")));
         ("leverage", leverage);
         ("risk_percentage", risk);
         ("stop_loss_percentage", stop_loss) ];
     LOGGING_CONFIG :=
       [ ("level", Json (getenv env "LOG_LEVEL" (JStr "INFO")));
         ("file_path", Json (getenv env "LOG_FILE" (JStr "trading_log.log"))) ] |}.

End Settings.

End Settings.

(** ** data_api.py: the signed REST gateway *)

Module Bitget.

Inductive level : Type := INFO | ERROR | DEBUG.

(** What [aiohttp]'s [session.request] is handed. *)
Record request : Type := {
  req_method : string;
  req_url : string;
  req_headers : list (string * string);
  req_json : option json;
}.

(** What the exchange does with one request: nothing usable (the socket
    drops, the request times out, the body is not JSON), or a status
    and a decoded body.  [took] is the time the exchange lets pass. *)
Inductive reply : Type :=
  | NoAnswer (took : Z)
  | Answer (took : Z) (status : Z) (response_data : json).

(** A [BitgetAPI] object together with the world it talks to. *)
Record state : Type := {
  API_KEY : string;
  SECRET_KEY : string;
  PASSPHRASE : string;
  session : bool;                 (* [self.session is not None] *)
  clock : Z;                      (* [time.time()], in milliseconds *)
  inbox : list reply;             (* the exchange's next answers *)
  calls : list request;           (* requests issued, oldest first *)
  log : list (level * string);    (* the logger's records, oldest first *)
}.

Definition BASE_URL : string := "https://api.bitget.com".

(** [models.Position] is imported from a file that is not among the
    sources; its fields are the keywords of the one constructor call. *)
Record Position : Type := {
  symbol : string;
  side : string;
  size : Q;
  entry_price : Q;
  stop_loss_price : Q;
  take_profit_price : Q;
  timestamp : Z;
  leverage : Z;
  break_even_price : Q;
  unrealized_pl : Q;
  margin_size : Q;
  available : Q;
  locked : Q;
  liquidation_price : Q;
  margin_ratio : Q;
  mark_price : Q;
  achieved_profits : Q;
  total_fee : Q;
  margin_mode : json;
}.

Section API.

Context `{PyRuntime}.

Definition with_session (s : state) : state :=
  {| API_KEY := API_KEY s; SECRET_KEY := SECRET_KEY s; PASSPHRASE := PASSPHRASE s;
     session := true; clock := clock s; inbox := inbox s; calls := calls s;
     log := log s |}.

Definition write_log (lv : level) (msg : string) : M state unit :=
  modify (fun s =>
    {| API_KEY := API_KEY s; SECRET_KEY := SECRET_KEY s; PASSPHRASE := PASSPHRASE s;
       session := session s; clock := clock s; inbox := inbox s; calls := calls s;
       log := log s ++ [(lv, msg)] |}).

(** [time.time() * 1000] truncated by [int]. *)
Definition time_ms : M state Z := fun s => (Ret (clock s), s).

(** [self.session.request(...)] followed by [response.json()]: the
    request is on record, the clock moves, and the next answer of the
    exchange comes back or the call raises.  With no answer left the
    request fails at once. *)
Definition session_request (r : request) : M state (Z * json) :=
  fun s =>
    let sent (took : Z) (rest : list reply) :=
      {| API_KEY := API_KEY s; SECRET_KEY := SECRET_KEY s; PASSPHRASE := PASSPHRASE s;
         session := session s; clock := clock s + took; inbox := rest;
         calls := calls s ++ [r]; log := log s |} in
    match inbox s with
    | [] => (Raise TransportError, sent 0 [])
    | NoAnswer took :: rest => (Raise TransportError, sent took rest)
    | Answer took status response_data :: rest =>
        (Ret (status, response_data), sent took rest)
    end.

(** [BitgetAPI._generate_signature]. *)
Definition _generate_signature (secret_key timestamp method request_path body : string) : string :=
  let message := timestamp ++ method ++ request_path ++ body in
  b64encode (hmac_sha256 secret_key message).

(** [str.upper()] on the ASCII letters, which is all a method name has. *)
Definition upper (s : string) : string :=
  string_of_list_ascii
    (map (fun c => let n := nat_of_ascii c in
                   if (97 <=? n)%nat && (n <=? 122)%nat then ascii_of_nat (n - 32) else c)
       (list_ascii_of_string s)).

(** [BitgetAPI._create_headers]. *)
Definition _create_headers (method request_path body : string) : M state (list (string * string)) :=
  let* now := time_ms in
  let timestamp := str_of_int now in
  let request_path :=
    match split_once "?" request_path with
    | Some (base_path, query) =>
        let params := sorted_strings (split_on "&" query) in
        base_path ++ "?" ++ join "&" params
    | None => request_path
    end in
  let* s := get_state in
  let signature := _generate_signature (SECRET_KEY s) timestamp (upper method) request_path body in
  ret [ ("ACCESS-KEY", API_KEY s);
        ("ACCESS-SIGN", signature);
        ("ACCESS-TIMESTAMP", timestamp);
        ("ACCESS-PASSPHRASE", PASSPHRASE s);
        ("Content-Type", "application/json");
        ("ACCESS-VERSION", "2") ].

(** [BitgetAPI._request].  [params] and [data] are the two optional
    dictionaries; an absent one and an empty one take the same branch
    of [if params:] and [if data]. *)
Definition _request (method endpoint : string)
    (params : list (string * string)) (data : option (list (string * json)))
    : M state (option json) :=
  let* _ := modify with_session in
  try_except
    (let url := BASE_URL ++ endpoint in
     let query := match params with
                  | [] => ""
                  | _ => "?" ++ urlencode (sorted_items params)
                  end in
     let url := match params with [] => url | _ => url ++ query end in
     let* headers :=
       _create_headers method (endpoint ++ query)
         (match data with
          | Some (item :: items) => json_dumps (JDict (item :: items))
          | _ => ""
          end) in
     let* response :=
       session_request {| req_method := method; req_url := url;
                          req_headers := headers;
                          req_json := option_map JDict data |} in
     let '(status, response_data) := response in
     let* _ := write_log INFO
                 ("API " ++ method ++ " " ++ url ++ " - Status: " ++ str_of_int status) in
     let* _ := if Z.eqb status 200 then ret tt else write_log ERROR "API Error" in
     ret (Some response_data))
    (fun e => let* _ := write_log ERROR "Request error" in ret None).

(** [response and ...]: [None] and every falsy body stop the chain. *)
Definition truthy_response (response : option json) : bool :=
  match response with
  | Some r => truthy r
  | None => false
  end.

(** [float(position_data.get(key, '0'))]. *)
Definition float_field (position_data : json) (key : string) : M state Q :=
  let* v := lift (dict_get position_data key (JStr "0")) in
  lift (py_float v).

(** The part of [BitgetAPI.get_position] that follows the request: what
    the method makes of [response]. *)
Definition position_of_response (symbol : string) (response : option json)
    : M state (option Position) :=
  match response with
  | None => ret None
  | Some r =>
      if negb (truthy r) then ret None else
      let* code := lift (dict_get r "code" JNull) in
      if negb (eq_str code "00000") then ret None else
      let* data := lift (dict_get r "data" JNull) in
      if negb (truthy data) then ret None else
      let* position_data :=
        match data with
        | JList (first :: _) => ret first
        | JList [] => raise IndexError
        | _ => ret data
        end in
      let* total := float_field position_data "total" in
      if negb (Qle_bool total 0) then
        let* hold_side := lift (dict_get position_data "holdSide" JNull) in
        let* size := float_field position_data "total" in
        let* entry_price := float_field position_data "openPriceAvg" in
        let* now := time_ms in
        let* leverage_v := lift (dict_get position_data "leverage" (JStr "1")) in
        let* leverage := lift (py_int leverage_v) in
        let* break_even_price := float_field position_data "breakEvenPrice" in
        let* unrealized_pl := float_field position_data "unrealizedPL" in
        let* margin_size := float_field position_data "marginSize" in
        let* available := float_field position_data "available" in
        let* locked := float_field position_data "locked" in
        let* liquidation_price := float_field position_data "liquidationPrice" in
        let* margin_ratio := float_field position_data "marginRatio" in
        let* mark_price := float_field position_data "markPrice" in
        let* achieved_profits := float_field position_data "achievedProfits" in
        let* total_fee := float_field position_data "totalFee" in
        let* margin_mode := lift (dict_get position_data "marginMode" (JStr "crossed")) in
        ret (Some {| symbol := symbol;
                     side := if eq_str hold_side "long" then "long" else "short";
                     size := size;
                     entry_price := entry_price;
                     stop_loss_price := 0;
                     take_profit_price := 0;
                     timestamp := now;
                     leverage := leverage;
                     break_even_price := break_even_price;
                     unrealized_pl := unrealized_pl;
                     margin_size := margin_size;
                     available := available;
                     locked := locked;
                     liquidation_price := liquidation_price;
                     margin_ratio := margin_ratio;
                     mark_price := mark_price;
                     achieved_profits := achieved_profits;
                     total_fee := total_fee;
                     margin_mode := margin_mode |})
      else ret None
  end.

(** [BitgetAPI.get_position]. *)
Definition get_position (symbol : string) : M state (option Position) :=
  let params := [ ("symbol", symbol); ("marginMode", "crossed");
                  ("productType", "USDT-FUTURES"); ("marginCoin", "USDT") ] in
  let* response := _request "GET" "/api/v2/mix/position/single-position" params None in
  position_of_response symbol response.

(** [str(round(float(price) * 10) / 10)]: the number behind the text. *)
Definition round_to_tenth (x : Q) : Q := inject_Z (py_round (x * 10)) / 10.

Definition normalize_price (price : json) : M state json :=
  if truthy price then
    let* x := lift (py_float price) in
    ret (JStr (str_of_float (round_to_tenth x)))
  else ret price.

(** [order_type_mapping.get(order_type, 'limit')]. *)
Definition order_type_mapping : list (string * string) :=
  [ ("market", "market"); ("limit", "limit"); ("stop", "profit_stop") ].

Definition mapped_order_type (order_type : string) : string :=
  match assoc order_type order_type_mapping with
  | Some t => t
  | None => "limit"
  end.

(** The request body [BitgetAPI.place_order] builds; [price] and
    [trigger_price] are the values after normalisation. *)
Definition place_order_body (symbol side trade_side size margin_coin order_type : string)
    (price trigger_price : json) : list (string * json) :=
  let body := [ ("symbol", JStr symbol);
                ("productType", JStr "USDT-FUTURES");
                ("marginMode", JStr "crossed");
                ("marginCoin", JStr margin_coin);
                ("side", JStr side);
                ("tradeSide", JStr trade_side);
                ("orderType", JStr (mapped_order_type order_type));
                ("size", JStr size) ] in
  if String.eqb order_type "limit" && truthy price then
    (body ++ [ ("price", price) ])%list
  else if String.eqb order_type "stop" && truthy trigger_price then
    (body ++ [ ("triggerPrice", trigger_price);
               ("holdSide", JStr (if String.eqb side "buy" then "short" else "long")) ])%list
  else body.

(** [BitgetAPI.place_order].  [price] and [trigger_price] default to
    [None], which is [JNull]; [margin_coin] defaults to ['USDT'] and
    [order_type] to ['limit'] at the call site. *)
Definition place_order (symbol side trade_side size margin_coin order_type : string)
    (price trigger_price : json) : M state (option json) :=
  let* price := normalize_price price in
  let* trigger_price := normalize_price trigger_price in
  let body := place_order_body symbol side trade_side size margin_coin order_type
                price trigger_price in
  _request "POST" "/api/v2/mix/order/place-order" [] (Some body).

(** [BitgetAPI.place_tpsl_order]. *)
Definition place_tpsl_order (symbol plan_type : string) (trigger_price : json)
    (hold_side size execute_price : string) : M state (option json) :=
  let* x := lift (py_float trigger_price) in
  let body := [ ("symbol", JStr (upper symbol));
                ("marginCoin", JStr "USDT");
                ("productType", JStr "USDT-FUTURES");
                ("planType", JStr plan_type);
                ("triggerPrice", JStr (str_of_float (round_to_tenth x)));
                ("triggerType", JStr "mark_price");
                ("executePrice", JStr execute_price);
                ("holdSide", JStr hold_side);
                ("size", JStr size) ] in
  _request "POST" "/api/v2/mix/order/place-tpsl-order" [] (Some body).



(** [BitgetAPI.cancel_order].  The sweep passes the order id as it came
    out of the exchange's answer, so it is any JSON value. *)
Definition cancel_order (symbol : string) (order_id : json) : M state (option json) :=
  let body := [ ("symbol", JStr symbol); ("orderId", order_id) ] in
  _request "POST" "/api/v2/mix/order/cancel-order" [] (Some body).

(** [if symbol:] for an optional string argument. *)
Definition given (arg : option string) : option string :=
  match arg with
  | Some s => if String.eqb s "" then None else Some s
  | None => None
  end.

(** [BitgetAPI.get_pending_orders]. *)
Definition get_pending_orders (symbol status : option string) (limit : string)
    : M state (option json) :=
  let params := [ ("productType", "USDT-FUTURES"); ("limit", limit) ] in
  let params := match given symbol with
                | Some s => (params ++ [ ("symbol", s) ])%list
                | None => params
                end in
  let params := match given status with
                | Some s => (params ++ [ ("status", s) ])%list
                | None => params
                end in
  _request "GET" "/api/v2/mix/order/orders-pending" params None.

Definition time_threshold_ms : Z := 30 * 1000.

(** The body of the [for order in orders] loop of the sweep, one order
    at a time, with the results gathered so far. *)
Fixpoint sweep_orders (symbol : string) (current_time_ms : Z)
    (orders : list json) (results : list (option json)) : M state (list (option json)) :=
  match orders with
  | [] => ret results
  | order :: rest =>
      let* order_id := lift (dict_get order "orderId" JNull) in
      let* c_time := lift (dict_get order "cTime" (JNum 0)) in
      let* order_time := lift (py_int c_time) in
      if truthy order_id && (time_threshold_ms <=? current_time_ms - order_time) then
        let* result := cancel_order symbol order_id in
        let* ok :=
          match result with
          | Some r =>
              if truthy r then
                let* code := lift (dict_get r "code" JNull) in ret (eq_str code "00000")
              else ret false
          | None => ret false
          end in
        let* _ := if ok then write_log INFO "pending order cancelled"
                  else write_log ERROR "pending order not cancelled" in
        sweep_orders symbol current_time_ms rest (results ++ [result])%list
      else
        let* _ := write_log DEBUG "order kept" in
        sweep_orders symbol current_time_ms rest results
  end.

(** [BitgetAPI.cancel_all_pending_orders]. *)
Definition cancel_all_pending_orders (symbol : string) : M state (list (option json)) :=
  let results := [] in
  let* current_time_ms := time_ms in
  let* pending_orders := get_pending_orders (Some symbol) None "100" in
  match pending_orders with
  | None => ret results
  | Some p =>
      if negb (truthy p) then ret results else
      let* code := lift (dict_get p "code" JNull) in
      if negb (eq_str code "00000") then ret results else
      let* data := lift (dict_get p "data" (JDict [])) in
      let* orders := lift (dict_get data "entrustedList" (JList [])) in
      if negb (truthy orders) then ret results else
      let* orders := lift (py_iter orders) in
      sweep_orders symbol current_time_ms orders results
  end.

(** The entry of a response [get_position] looks at: the response is a
    non-empty dictionary whose ["code"] is ["00000"] and whose ["data"]
    is truthy; the entry is the first element of a list, or the data
    itself. *)
Definition position_entry (response_data : json) : option json :=
  match response_data with
  | JDict d =>
      let code := match assoc "code" d with Some c => c | None => JNull end in
      let data := match assoc "data" d with Some x => x | None => JNull end in
      if truthy response_data && eq_str code "00000" && truthy data then
        match data with
        | JList (first :: _) => Some first
        | _ => Some data
        end
      else None
  | _ => None
  end.

(** [float(position_data.get(key, '0'))] and
    [int(position_data.get('leverage', '1'))] as pure readings. *)
Definition float_reading (position_data : json) (key : string) : outcome Q :=
  match dict_get position_data key (JStr "0") with
  | Ret v => py_float v
  | Raise e => Raise e
  end.





(** The same object with other answers waiting. *)
Definition with_inbox (replies : list reply) (s : state) : state :=
  {| API_KEY := API_KEY s; SECRET_KEY := SECRET_KEY s; PASSPHRASE := PASSPHRASE s;
     session := session s; clock := clock s; inbox := replies; calls := calls s;
     log := log s |}.

(** What a reply turns into at the end of [_request]. *)
Definition reply_result (r : option reply) : option json :=
  match r with
  | Some (Answer _ _ response_data) => Some response_data
  | _ => None
  end.

(** What the sweep reads off one pending order: its id, its creation
    time, and the test that sends it to [cancel_order]. *)
Definition order_id (order : json) : json :=
  match dict_get order "orderId" JNull with
  | Ret v => v
  | Raise _ => JNull
  end.

Definition order_time (order : json) : outcome Z :=
  match dict_get order "cTime" (JNum 0) with
  | Ret v => py_int v
  | Raise e => Raise e
  end.

(** Age at least the threshold, the age being [now] less the creation
    time. *)
Definition aged (now : Z) (order : json) : bool :=
  match order_time order with
  | Ret t => time_threshold_ms <=? now - t
  | Raise _ => false
  end.

(** The sweep's own test: an id that is truthy, and the age. *)
Definition stale (now : Z) (order : json) : bool :=
  truthy (order_id order) && aged now order.

Definition cancel_body (symbol : string) (order : json) : list (string * json) :=
  [ ("symbol", JStr symbol); ("orderId", order_id order) ].

(** A pending order the sweep can read: a dictionary whose creation
    time [int] accepts. *)
Definition readable_order (order : json) : Prop :=
  (exists d, order = JDict d) /\ exists t, order_time order = Ret t.

(** What [k] requests in a row hand back, given the answers waiting. *)
Fixpoint answers (k : nat) (replies : list reply) : list (option json) :=
  match k with
  | O => []
  | S k' =>
      match replies with
      | [] => None :: answers k' []
      | r :: rest => reply_result (Some r) :: answers k' rest
      end
  end.

(** An answer the sweep can inspect with [.get]: nothing, a falsy body,
    or a dictionary. *)
Definition inspectable (r : reply) : Prop :=
  match r with
  | Answer _ _ body => truthy body = true -> exists d, body = JDict d
  | NoAnswer _ => True
  end.

(** The gateway's operations that hand back the exchange's answer, as
    one type, to speak about all of them at once. *)
Inductive operation : Type :=
  | PlaceOrder (symbol side trade_side size margin_coin order_type : string)
      (price trigger_price : json)
  | PlaceTpslOrder (symbol plan_type : string) (trigger_price : json)
      (hold_side size execute_price : string)
  | ClosePosition (symbol margin_coin : string)
  | CancelOrder (symbol : string) (order_id : json)
  | GetOrderDetail (symbol order_id : string)
  | GetPendingOrders (symbol status : option string) (limit : string).


(** The conversions an operation makes before it sends anything: the
    exception they raise, if any. *)
Definition price_reading (price : json) : option exn :=
  if truthy price then
    match py_float price with Ret _ => None | Raise e => Some e end
  else None.

Definition rejected (op : operation) : option exn :=
  match op with
  | PlaceOrder _ _ _ _ _ _ price trigger_price =>
      match price_reading price with
      | Some e => Some e
      | None => price_reading trigger_price
      end
  | PlaceTpslOrder _ _ trigger_price _ _ _ =>
      match py_float trigger_price with Ret _ => None | Raise e => Some e end
  | _ => None
  end.

(** *** The account and market operations *)

(** [BitgetAPI.get_historical_candles].  [_request] catches its own
    failures, so the handler here has nothing left to catch; it is kept
    as the source has it. *)
Definition get_historical_candles (symbol : string) : M state (option json) :=
  try_except
    (let* now := time_ms in
     let end_time := str_of_int now in
     let* now := time_ms in
     let start_time := str_of_int (now - 200 * 60 * 1000) in
     let params := [ ("symbol", symbol);
                     ("granularity", "1m");
                     ("productType", "USDT-FUTURES");
                     ("startTime", start_time);
                     ("endTime", end_time);
                     ("limit", "200") ] in
     _request "GET" "/api/v2/mix/market/history-candles" params None)
    (fun e => let* _ := write_log ERROR "Error fetching historical candles" in ret None).

(** [BitgetAPI.set_leverage]; [product_type] and [margin_coin] default
    to ['USDT-FUTURES'] and ['USDT'] at the call site. *)
Definition set_leverage (symbol : string) (leverage : Z) (product_type margin_coin : string)
    : M state (option json) :=
  let data := [ ("symbol", JStr (lower symbol));
                ("productType", JStr product_type);
                ("marginCoin", JStr (upper margin_coin));
                ("leverage", JStr (str_of_int leverage)) ] in
  _request "POST" "/api/v2/mix/account/set-leverage" [] (Some data).

(** [BitgetAPI.get_account_balance]. *)
Definition get_account_balance : M state (option json) :=
  let params := [ ("productType", "USDT-FUTURES") ] in
  _request "GET" "/api/v2/mix/account/accounts" params None.

(** The three of them as one type. *)
Inductive account_operation : Type :=
  | GetHistoricalCandles (symbol : string)
  | SetLeverage (symbol : string) (leverage : Z) (product_type margin_coin : string)
  | GetAccountBalance.

Definition perform_account (op : account_operation) : M state (option json) :=
  match op with
  | GetHistoricalCandles symbol => get_historical_candles symbol
  | SetLeverage symbol leverage product_type margin_coin =>
      set_leverage symbol leverage product_type margin_coin
  | GetAccountBalance => get_account_balance
  end.

Definition account_method (op : account_operation) : string :=
  match op with
  | SetLeverage _ _ _ _ => "POST"
  | _ => "GET"
  end.

(** The path [_create_headers] signs for a request path. *)
Definition signed_path (request_path : string) : string :=
  match split_once "?" request_path with
  | Some (base_path, query) =>
      base_path ++ "?" ++ join "&" (sorted_strings (split_on "&" query))
  | None => request_path
  end.

(** A fetch the sweep takes for "no orders": no answer, a falsy body,
    or a dictionary whose code is not ["00000"]. *)
Definition fetch_refused (answer : option reply) : Prop :=
  match answer with
  | Some (Answer _ _ body) =>
      truthy body = false \/
      exists d, body = JDict d /\
                eq_str (match assoc "code" d with Some c => c | None => JNull end) "00000"
                = false
  | _ => True
  end.

(** An ASCII letter in upper case, and in lower case. *)
Definition is_upper (c : ascii) : bool :=
  let n := nat_of_ascii c in (65 <=? n)%nat && (n <=? 90)%nat.

Definition is_lower (c : ascii) : bool :=
  let n := nat_of_ascii c in (97 <=? n)%nat && (n <=? 122)%nat.

End API.

End Bitget.

(** ** websocket_client.py: the streaming session *)

Module WS.

Inductive level : Type := INFO | WARNING | ERROR.

(** A callback is known by its identity. *)
Inductive Callable : Type := Handler (id : nat).

(** An element of a [channels] argument.  The annotation asks for a
    [Dict[str, str]]; [_reconnect] passes the keys of the registry,
    which are [str]. *)
Inductive channel_arg : Type :=
  | ChanDict (d : list (string * string))
  | ChanStr (s : string).

(** What [_send_message] is given: a text, a dictionary with an
    ["op"] and a list of ["args"], or the login dictionary, whose one
    argument holds the credentials. *)
Inductive message : Type :=
  | Text (s : string)
  | Op (op : string) (args : list channel_arg)
  | Login (credentials : list (string * pyval)).

(** What [ws.recv()] yields: the connection is gone, the bare text
    ["pong"], some other text that is not JSON, or a JSON document. *)
Inductive incoming : Type :=
  | Dropped
  | Pong
  | Malformed
  | Payload (j : json).

(** The socket object [websockets.connect] returns. *)
Record socket : Type := {
  sock_url : string;
  sock_open : bool;
}.

(** The attributes [__init__] sets once and no method changes.
    [api_config] is the dictionary [config.get_config('bybit')] gave. *)
Record config : Type := {
  api_config : list (string * pyval);
  ws_public_url : string;
  ws_private_url : string;
  ping_interval : Z;
  connection_timeout : Z;
  max_channels_per_conn : Z;
  message_rate_limit : Z;
}.

(** What the network and the scheduler will grant, in order: whether
    each [websockets.connect] and each [ws.send] goes through, what
    each [ws.recv] yields, and by how much each [asyncio.sleep] wakes up
    late.  Past the end of a list nothing goes through and sleeps are
    exact. *)
Record network : Type := {
  connects : list bool;
  sends : list bool;
  recvs : list incoming;
  oversleep : list N;
}.

(** A [BybitWebsocketClient] object and the world around it. *)
Record state : Type := {
  cfg : config;
  callbacks : gmap string Callable;
  subscribed_channels : gset string;
  ws : option socket;
  is_connected : bool;
  last_ping_time : Z;
  last_pong_time : Z;
  message_count : Z;
  message_time : Z;
  clock : Z;                       (* [time.time()], in milliseconds *)
  net : network;
  wire : list (Z * message);       (* frames sent, with the time, oldest first *)
  spawned : list string;           (* tasks handed to [asyncio.create_task] *)
  log : list (level * string);
}.

Definition default_config (api_config : list (string * pyval)) : config :=
  {| api_config := api_config;
     ws_public_url := "wss://ws.bitget.com/v2/ws/public";
     ws_private_url := "wss://ws.bitget.com/v2/ws/private";
     ping_interval := 20 * 1000;
     connection_timeout := 30 * 1000;
     max_channels_per_conn := 50;
     message_rate_limit := 10 |}.

(** [BybitWebsocketClient.__init__] at clock reading [now]. *)
Definition init (c : config) (now : Z) (n : network) : state :=
  {| cfg := c; callbacks := ∅; subscribed_channels := ∅; ws := None;
     is_connected := false; last_ping_time := now; last_pong_time := now;
     message_count := 0; message_time := now; clock := now; net := n;
     wire := []; spawned := []; log := [] |}.

Definition set_callbacks (v : gmap string Callable) (s : state) : state :=
  {| cfg := cfg s; callbacks := v; subscribed_channels := subscribed_channels s;
     ws := ws s; is_connected := is_connected s; last_ping_time := last_ping_time s;
     last_pong_time := last_pong_time s; message_count := message_count s;
     message_time := message_time s; clock := clock s; net := net s;
     wire := wire s; spawned := spawned s; log := log s |}.

Definition set_subscribed_channels (v : gset string) (s : state) : state :=
  {| cfg := cfg s; callbacks := callbacks s; subscribed_channels := v;
     ws := ws s; is_connected := is_connected s; last_ping_time := last_ping_time s;
     last_pong_time := last_pong_time s; message_count := message_count s;
     message_time := message_time s; clock := clock s; net := net s;
     wire := wire s; spawned := spawned s; log := log s |}.

Definition set_ws (v : option socket) (s : state) : state :=
  {| cfg := cfg s; callbacks := callbacks s; subscribed_channels := subscribed_channels s;
     ws := v; is_connected := is_connected s; last_ping_time := last_ping_time s;
     last_pong_time := last_pong_time s; message_count := message_count s;
     message_time := message_time s; clock := clock s; net := net s;
     wire := wire s; spawned := spawned s; log := log s |}.

Definition set_is_connected (v : bool) (s : state) : state :=
  {| cfg := cfg s; callbacks := callbacks s; subscribed_channels := subscribed_channels s;
     ws := ws s; is_connected := v; last_ping_time := last_ping_time s;
     last_pong_time := last_pong_time s; message_count := message_count s;
     message_time := message_time s; clock := clock s; net := net s;
     wire := wire s; spawned := spawned s; log := log s |}.

Definition set_message_count (v : Z) (s : state) : state :=
  {| cfg := cfg s; callbacks := callbacks s; subscribed_channels := subscribed_channels s;
     ws := ws s; is_connected := is_connected s; last_ping_time := last_ping_time s;
     last_pong_time := last_pong_time s; message_count := v;
     message_time := message_time s; clock := clock s; net := net s;
     wire := wire s; spawned := spawned s; log := log s |}.

Definition set_message_time (v : Z) (s : state) : state :=
  {| cfg := cfg s; callbacks := callbacks s; subscribed_channels := subscribed_channels s;
     ws := ws s; is_connected := is_connected s; last_ping_time := last_ping_time s;
     last_pong_time := last_pong_time s; message_count := message_count s;
     message_time := v; clock := clock s; net := net s;
     wire := wire s; spawned := spawned s; log := log s |}.

Definition set_clock (v : Z) (s : state) : state :=
  {| cfg := cfg s; callbacks := callbacks s; subscribed_channels := subscribed_channels s;
     ws := ws s; is_connected := is_connected s; last_ping_time := last_ping_time s;
     last_pong_time := last_pong_time s; message_count := message_count s;
     message_time := message_time s; clock := v; net := net s;
     wire := wire s; spawned := spawned s; log := log s |}.

Definition set_net (v : network) (s : state) : state :=
  {| cfg := cfg s; callbacks := callbacks s; subscribed_channels := subscribed_channels s;
     ws := ws s; is_connected := is_connected s; last_ping_time := last_ping_time s;
     last_pong_time := last_pong_time s; message_count := message_count s;
     message_time := message_time s; clock := clock s; net := v;
     wire := wire s; spawned := spawned s; log := log s |}.

Definition set_wire (v : list (Z * message)) (s : state) : state :=
  {| cfg := cfg s; callbacks := callbacks s; subscribed_channels := subscribed_channels s;
     ws := ws s; is_connected := is_connected s; last_ping_time := last_ping_time s;
     last_pong_time := last_pong_time s; message_count := message_count s;
     message_time := message_time s; clock := clock s; net := net s;
     wire := v; spawned := spawned s; log := log s |}.

Definition set_spawned (v : list string) (s : state) : state :=
  {| cfg := cfg s; callbacks := callbacks s; subscribed_channels := subscribed_channels s;
     ws := ws s; is_connected := is_connected s; last_ping_time := last_ping_time s;
     last_pong_time := last_pong_time s; message_count := message_count s;
     message_time := message_time s; clock := clock s; net := net s;
     wire := wire s; spawned := v; log := log s |}.

Definition set_log (v : list (level * string)) (s : state) : state :=
  {| cfg := cfg s; callbacks := callbacks s; subscribed_channels := subscribed_channels s;
     ws := ws s; is_connected := is_connected s; last_ping_time := last_ping_time s;
     last_pong_time := last_pong_time s; message_count := message_count s;
     message_time := message_time s; clock := clock s; net := net s;
     wire := wire s; spawned := spawned s; log := v |}.

Definition write_log (lv : level) (msg : string) : M state unit :=
  modify (fun s => set_log (log s ++ [(lv, msg)]) s).

(** [time.time()]. *)
Definition time_now : M state Z := fun s => (Ret (clock s), s).

(** [await asyncio.sleep(seconds)]: the clock moves by the delay and by
    however late the scheduler wakes the task. *)
Definition sleep (seconds : Z) : M state unit :=
  fun s =>
    let n := net s in
    let '(late, rest) := match oversleep n with
                         | [] => (0%N, [])
                         | l :: rest => (l, rest)
                         end in
    (Ret tt,
     set_clock (clock s + seconds * 1000 + Z.of_N late)
       (set_net {| connects := connects n; sends := sends n; recvs := recvs n;
                   oversleep := rest |} s)).

(** [await websockets.connect(url)]. *)
Definition websockets_connect (url : string) : M state socket :=
  fun s =>
    let n := net s in
    let '(ok, rest) := match connects n with
                       | [] => (false, [])
                       | b :: rest => (b, rest)
                       end in
    let s' := set_net {| connects := rest; sends := sends n; recvs := recvs n;
                         oversleep := oversleep n |} s in
    if ok then (Ret {| sock_url := url; sock_open := true |}, s')
    else (Raise TransportError, s').

(** [await self.ws.send(text)]: no socket is an [AttributeError] on
    [None], a closed socket refuses, an open one depends on the
    network.  A frame that goes through is on the wire. *)
Definition ws_send (m : message) : M state unit :=
  fun s =>
    match ws s with
    | None => (Raise AttributeError, s)
    | Some sock =>
        if negb (sock_open sock) then (Raise TransportError, s) else
        let n := net s in
        let '(ok, rest) := match sends n with
                           | [] => (false, [])
                           | b :: rest => (b, rest)
                           end in
        let s' := set_net {| connects := connects n; sends := rest; recvs := recvs n;
                             oversleep := oversleep n |} s in
        if ok then (Ret tt, set_wire (wire s' ++ [(clock s', m)]) s')
        else (Raise TransportError, s')
    end.

(** [await self.ws.recv()]. *)
Definition ws_recv : M state incoming :=
  fun s =>
    match ws s with
    | None => (Raise AttributeError, s)
    | Some sock =>
        if negb (sock_open sock) then (Raise TransportError, s) else
        let n := net s in
        match recvs n with
        | [] => (Raise TransportError, s)
        | Dropped :: rest =>
            (Raise TransportError,
             set_net {| connects := connects n; sends := sends n; recvs := rest;
                        oversleep := oversleep n |} s)
        | i :: rest =>
            (Ret i,
             set_net {| connects := connects n; sends := sends n; recvs := rest;
                        oversleep := oversleep n |} s)
        end
    end.

(** [await self.ws.close()]. *)
Definition ws_close : M state unit :=
  modify (fun s => match ws s with
                   | Some sock => set_ws (Some {| sock_url := sock_url sock; sock_open := false |}) s
                   | None => s
                   end).

Section Client.

Context `{PyRuntime}.

(** [BybitWebsocketClient._generate_signature]: the method reads the
    clock itself, and [int(time.time())] truncates it to seconds. *)
Definition login_message (now : Z) : string :=
  let timestamp := str_of_int (Z.quot now 1000) in
  timestamp ++ "GET" ++ "/user/verify".

Definition _generate_signature : M state string :=
  let* now := time_now in
  let message := login_message now in
  let* s := get_state in
  let* secret_key := lift (item (api_config (cfg s)) "secret_key") in
  let* key := lift (encode secret_key) in
  ret (b64encode (hmac_sha256 key message)).

(** [BybitWebsocketClient._send_message]: the rate limiter. *)
Definition _send_message (m : message) : M state unit :=
  let* current_time := time_now in
  let* s := get_state in
  let* _ :=
    if 1000 <=? current_time - message_time s then
      modify (fun s => set_message_time current_time (set_message_count 0 s))
    else ret tt in
  let* s := get_state in
  let* _ :=
    if message_rate_limit (cfg s) <=? message_count s then
      let* _ := sleep 1 in
      let* now := time_now in
      modify (fun s => set_message_time now (set_message_count 0 s))
    else ret tt in
  let* _ := ws_send m in
  modify (fun s => set_message_count (message_count s + 1) s).

(** [BybitWebsocketClient._authenticate].  The credentials are read
    by subscript, so a dictionary without one of them stops the method
    with a [KeyError] before anything is sent. *)
Definition _authenticate : M state unit :=
  let* now := time_now in
  let timestamp := str_of_int (Z.quot now 1000) in
  let* sign := _generate_signature in
  let* s := get_state in
  let* api_key := lift (item (api_config (cfg s)) "api_key") in
  let* passphrase := lift (item (api_config (cfg s)) "passphrase") in
  let auth_message :=
    Login [ ("apiKey", api_key);
            ("passphrase", passphrase);
            ("timestamp", Json (JStr timestamp));
            ("sign", Json (JStr sign)) ] in
  let* _ := _send_message auth_message in
  let* response := ws_recv in
  let* auth_response :=
    match response with
    | Payload j => ret j
    | _ => raise ValueError
    end in
  let* code := lift (dict_get auth_response "code" JNull) in
  if eq_str code "0" then write_log INFO "WebSocket login accepted"
  else raise (Exception "login refused").

(** [BybitWebsocketClient._connect].  The two duties handed to
    [asyncio.create_task] run beside the caller; here they are only
    recorded. *)
Definition _connect (is_private : bool) : M state unit :=
  let* s := get_state in
  let url := if is_private then ws_private_url (cfg s) else ws_public_url (cfg s) in
  try_except
    (let* sock := websockets_connect url in
     let* _ := modify (set_ws (Some sock)) in
     let* _ := modify (set_is_connected true) in
     let* _ := write_log INFO "WebSocket connected" in
     let* _ := if is_private then _authenticate else ret tt in
     modify (fun s => set_spawned (spawned s ++ ["_keep_alive"; "_monitor_connection"]) s))
    (fun e =>
     let* _ := modify (set_is_connected false) in
     let* _ := write_log ERROR "WebSocket connection failed" in
     raise e).

(** [channel[key]]. *)
Definition subscript (channel : channel_arg) (key : string) : outcome string :=
  match channel with
  | ChanDict d => match assoc key d with
                  | Some v => Ret v
                  | None => Raise (KeyError key)
                  end
  | ChanStr _ => Raise TypeError
  end.

(** The f-string that names a channel in the registry. *)
Definition channel_key (channel : channel_arg) : outcome string :=
  match subscript channel "instType" with
  | Raise e => Raise e
  | Ret inst_type =>
      match subscript channel "channel" with
      | Raise e => Raise e
      | Ret name =>
          match subscript channel "instId" with
          | Raise e => Raise e
          | Ret inst_id => Ret (inst_type ++ "." ++ name ++ "." ++ inst_id)
          end
      end
  end.

(** The exception [subscribe] raises at the capacity check; its text is
    the source's, in English. *)
Definition capacity_error (limit : Z) : exn :=
  Exception ("maximum number of subscribed channels (" ++ str_of_int limit ++ ") exceeded").

Definition len_channels (s : state) : Z := Z.of_nat (size (subscribed_channels s)).

(** [BybitWebsocketClient.subscribe]. *)
Definition subscribe (channels : list channel_arg) (callback : Callable) : M state unit :=
  let* s := get_state in
  if max_channels_per_conn (cfg s) <? len_channels s + Z.of_nat (length channels) then
    raise (capacity_error (max_channels_per_conn (cfg s)))
  else
    let* _ := if negb (is_connected s) then _connect false else ret tt in
    let subscribe_message := Op "subscribe" channels in
    let* _ := _send_message subscribe_message in
    for_each channels (fun channel =>
      let* channel_key := lift (channel_key channel) in
      let* _ := modify (fun s => set_callbacks (<[channel_key := callback]> (callbacks s)) s) in
      modify (fun s => set_subscribed_channels ({[channel_key]} ∪ subscribed_channels s) s)).

(** [BybitWebsocketClient.unsubscribe]. *)
Definition unsubscribe (channels : list channel_arg) : M state unit :=
  let unsubscribe_message := Op "unsubscribe" channels in
  let* _ := _send_message unsubscribe_message in
  for_each channels (fun channel =>
    let* channel_key := lift (channel_key channel) in
    let* _ := modify (fun s => set_callbacks (delete channel_key (callbacks s)) s) in
    modify (fun s => set_subscribed_channels (subscribed_channels s ∖ {[channel_key]}) s)).

(** The two [for] loops on their own. *)
Definition subscribe_loop (channels : list channel_arg) (callback : Callable) : M state unit :=
  for_each channels (fun channel =>
    let* channel_key := lift (channel_key channel) in
    let* _ := modify (fun s => set_callbacks (<[channel_key := callback]> (callbacks s)) s) in
    modify (fun s => set_subscribed_channels ({[channel_key]} ∪ subscribed_channels s) s)).

Definition unsubscribe_loop (channels : list channel_arg) : M state unit :=
  for_each channels (fun channel =>
    let* channel_key := lift (channel_key channel) in
    let* _ := modify (fun s => set_callbacks (delete channel_key (callbacks s)) s) in
    modify (fun s => set_subscribed_channels (subscribed_channels s ∖ {[channel_key]}) s)).

(** How Python binds the arguments of a call to
    [subscribe(self, channels, callback)]: [callback] has no default,
    so a call that leaves it out raises [TypeError] before the body
    runs. *)
Inductive passed (A : Type) : Type :=
  | Given (a : A)
  | Omitted.
Arguments Given {A} a.
Arguments Omitted {A}.

Definition call_subscribe (channels : list channel_arg) (callback : passed Callable)
    : M state unit :=
  match callback with
  | Given cb => subscribe channels cb
  | Omitted => raise TypeError
  end.

(** [BybitWebsocketClient._reconnect].  The method awaits itself from
    its own handler, one frame deeper each time, and Python's stack is
    finite: [attempts] is the number of attempts the interpreter has
    room for, and the call nested one deeper is refused with
    [RecursionError].  That call stands in the handler, not in the
    [try] block, so no handler catches the error on its way to the
    caller. *)
Fixpoint _reconnect (attempts : nat) : M state unit :=
  match attempts with
  | O => raise RecursionError
  | S attempts' =>
      let* _ := modify (set_is_connected false) in
      try_except
        (let* s := get_state in
         let* _ := match ws s with Some _ => ws_close | None => ret tt end in
         let* s := get_state in
         let* _ := _connect (0 <? len_channels s) in
         let* s := get_state in
         if 0 <? len_channels s then
           call_subscribe (map ChanStr (elements (subscribed_channels s))) Omitted
         else ret tt)
        (fun e =>
         let* _ := write_log ERROR "reconnect failed" in
         let* _ := sleep 5 in
         _reconnect attempts')
  end.

(** The [try] block of [_reconnect] on its own. *)
Definition reconnect_attempt : M state unit :=
  let* s := get_state in
  let* _ := match ws s with Some _ => ws_close | None => ret tt end in
  let* s := get_state in
  let* _ := _connect (0 <? len_channels s) in
  let* s := get_state in
  if 0 <? len_channels s then
    call_subscribe (map ChanStr (elements (subscribed_channels s))) Omitted
  else ret tt.

(** What a loop that may go on for ever has reached when observed for
    a bounded number of passes. *)
Inductive progress : Type :=
  | Returned
  | Retrying.

(** [BybitWebsocketClient.close]. *)
Definition close : M state unit :=
  let* _ := modify (set_is_connected false) in
  let* s := get_state in
  match ws s with Some _ => ws_close | None => ret tt end.

(** *** What a caller does with the client *)

(** The caller is busy elsewhere for [d] milliseconds. *)
Definition elapse (d : N) : M state unit :=
  modify (fun s => set_clock (clock s + Z.of_N d) s).

(** A caller of the rate limiter: it lets time pass, and it sends; a
    send that raises is caught by the caller, who goes on. *)
Inductive event : Type :=
  | Wait (d : N)
  | Send (m : message).

Definition do_event (e : event) : M state unit :=
  match e with
  | Wait d => elapse d
  | Send m => try_except (_send_message m) (fun _ => ret tt)
  end.

Definition run_events (events : list event) : M state unit :=
  for_each events do_event.

(** The messages a caller asks to send, in call order. *)
Fixpoint sends_of (events : list event) : list message :=
  match events with
  | [] => []
  | Wait _ :: rest => sends_of rest
  | Send m :: rest => m :: sends_of rest
  end.

(** Frames on the wire whose time lies in [[lo, hi)], and from [lo]
    on. *)
Definition sent_between (lo hi : Z) (w : list (Z * message)) : nat :=
  length (List.filter (fun e => (lo <=? fst e) && (fst e <? hi)) w).

Definition sent_from (lo : Z) (w : list (Z * message)) : nat :=
  length (List.filter (fun e => lo <=? fst e) w).

(** The two resets of [_send_message] on their own: the one taken when
    the window has elapsed, and the one taken after sleeping because
    the counter has reached the limit. *)
Definition window_reset (s : state) : state :=
  if 1000 <=? clock s - message_time s then
    set_message_time (clock s) (set_message_count 0 s)
  else s.

Definition limit_wait (s : state) : state :=
  if message_rate_limit (cfg s) <=? message_count s then
    let s' := snd (sleep 1 s) in
    set_message_time (clock s') (set_message_count 0 s')
  else s.

(** What the rate limiter maintains between calls, [N] being the
    limit: the counter is the number of frames sent since the window
    started, those frames lie within a second of the start, and the
    second before the start holds at most [N] frames. *)
Record limiter_ok (s : state) : Prop := {
  limit_positive : 1 <= message_rate_limit (cfg s);
  count_in_range : 0 <= message_count s <= message_rate_limit (cfg s);
  window_started : message_time s <= clock s;
  wire_in_past : Forall (fun e => fst e <= clock s) (wire s);
  window_short : Forall (fun e => message_time s <= fst e -> fst e < message_time s + 1000)
                   (wire s);
  count_is_window : Z.of_nat (sent_from (message_time s) (wire s)) = message_count s;
  previous_window : Z.of_nat (sent_between (message_time s - 999) (message_time s) (wire s))
                    <= message_rate_limit (cfg s);
  rolling_window : forall t, Z.of_nat (sent_between t (t + 1000) (wire s))
                             <= 2 * message_rate_limit (cfg s);
}.

(** The messages the network lets through, of those sent one after
    another over an open socket: a send takes the next entry of the
    network's [sends], and goes through when the entry says so; with no
    entry left nothing goes through. *)
Fixpoint granted (messages : list message) (grants : list bool) : list message :=
  match messages, grants with
  | m :: rest, true :: grants' => m :: granted rest grants'
  | _ :: rest, false :: grants' => granted rest grants'
  | _, _ => []
  end.

(** *** Several callers at once

    The tasks of one event loop take turns, and a task gives way only
    where it awaits.  [_send_message] awaits [asyncio.sleep(1)] when it
    finds the counter at the limit; [send_begin] is the method up to
    there, and tells whether the caller is suspended; [send_resume] is
    the method from there on.  (The other await, of [ws.send], is taken
    not to give way: the socket accepts the frame at once.) *)
Definition send_begin : M state bool :=
  let* current_time := time_now in
  let* s := get_state in
  let* _ :=
    if 1000 <=? current_time - message_time s then
      modify (fun s => set_message_time current_time (set_message_count 0 s))
    else ret tt in
  let* s := get_state in
  ret (message_rate_limit (cfg s) <=? message_count s).

Definition send_resume (slept : bool) (m : message) : M state unit :=
  let* _ :=
    if slept then
      let* now := time_now in
      modify (fun s => set_message_time now (set_message_count 0 s))
    else ret tt in
  let* _ := ws_send m in
  modify (fun s => set_message_count (message_count s + 1) s).

(** A caller suspended in the sleep: the time its second runs out, and
    the message it is about to send. *)
Record sleeper : Type := {
  due : Z;
  pending : message;
}.

(** What the event loop does next: nothing for a while; run a task that
    calls [_send_message], up to its sleep or to its end; or resume the
    caller that has been suspended longest, if its second has run
    out. *)
Inductive turn : Type :=
  | Pause (d : N)
  | Call (m : message)
  | Wake.

Definition do_turn (t : turn) (asleep : list sleeper) : M state (list sleeper) :=
  match t with
  | Pause d => let* _ := elapse d in ret asleep
  | Call m =>
      let* suspended := send_begin in
      if suspended then
        let* now := time_now in
        ret (asleep ++ [ {| due := now + 1000; pending := m |} ])%list
      else
        let* _ := try_except (send_resume false m) (fun _ => ret tt) in
        ret asleep
  | Wake =>
      let* now := time_now in
      match asleep with
      | first :: others =>
          if due first <=? now then
            let* _ := try_except (send_resume true (pending first)) (fun _ => ret tt) in
            ret others
          else ret asleep
      | [] => ret asleep
      end
  end.

Fixpoint run_turns (turns : list turn) (asleep : list sleeper) : M state (list sleeper) :=
  match turns with
  | [] => ret asleep
  | t :: rest => let* asleep' := do_turn t asleep in run_turns rest asleep'
  end.

(** The messages the tasks ask to send, in call order. *)
Fixpoint calls_of (turns : list turn) : list message :=
  match turns with
  | [] => []
  | Call m :: rest => m :: calls_of rest
  | _ :: rest => calls_of rest
  end.

(** A caller of the registry. *)
Inductive call : Type :=
  | Subscribe (channels : list channel_arg) (callback : Callable)
  | Unsubscribe (channels : list channel_arg).

Definition do_call (c : call) : M state unit :=
  match c with
  | Subscribe channels callback => subscribe channels callback
  | Unsubscribe channels => unsubscribe channels
  end.

Definition run_calls (calls : list call) : M state unit :=
  for_each calls do_call.

(** *** The registry a sequence of calls implies

    Read off the calls alone: a subscribe binds each of its channels to
    its callback, replacing an earlier binding; an unsubscribe removes
    each of its channels. *)
Definition key_of (channel : channel_arg) : option string :=
  match channel_key channel with
  | Ret k => Some k
  | Raise _ => None
  end.

Definition implied_step (reg : gmap string Callable) (c : call) : gmap string Callable :=
  match c with
  | Subscribe channels callback =>
      fold_left (fun r ch => match key_of ch with
                             | Some k => <[k := callback]> r
                             | None => r
                             end) channels reg
  | Unsubscribe channels =>
      fold_left (fun r ch => match key_of ch with
                             | Some k => delete k r
                             | None => r
                             end) channels reg
  end.

Definition implied_registry (calls : list call) (reg : gmap string Callable)
    : gmap string Callable :=
  fold_left implied_step calls reg.

(** A channel identity as the specification has it: the three fields. *)
Definition identity (channel : channel_arg) : option (string * string * string) :=
  match subscript channel "instType", subscript channel "channel",
        subscript channel "instId" with
  | Ret a, Ret b, Ret c => Some (a, b, c)
  | _, _, _ => None
  end.

Definition dot_free (s : string) : Prop :=
  ~ In "."%char (list_ascii_of_string s).

End Client.

(** The subscribe frames on the wire. *)
Definition is_subscribe (m : message) : bool :=
  match m with
  | Op op _ => String.eqb op "subscribe"
  | _ => false
  end.

Definition subscribe_frames (s : state) : list (Z * message) :=
  List.filter (fun e => is_subscribe (snd e)) (wire s).

(** The registry: the callback map and the set of subscribed keys. *)
Definition registry (s : state) : gmap string Callable * gset string :=
  (callbacks s, subscribed_channels s).

(** *** Two ways to speak about a method *)

(** [keeps f c]: the reading [f] of the state is the same after [c],
    however [c] ends. *)
Definition keeps {A X : Type} (f : state -> X) (c : M state A) : Prop :=
  forall s, f (snd (c s)) = f s.

(** [raises P c]: every exception that leaves [c] satisfies [P]. *)
Definition raises {A : Type} (P : exn -> Prop) (c : M state A) : Prop :=
  forall s e s', c s = (Raise e, s') -> P e.

(** An exception of Python's own, as opposed to a plain
    [Exception(msg)] raised by the client. *)
Definition builtin (e : exn) : Prop :=
  match e with
  | Exception _ => False
  | _ => True
  end.

(** The one exception that leaves [_reconnect]. *)
Definition stack_full (e : exn) : Prop := e = RecursionError.

(** *** The background duties and the receive loop *)

Definition set_last_ping_time (v : Z) (s : state) : state :=
  {| cfg := cfg s; callbacks := callbacks s; subscribed_channels := subscribed_channels s;
     ws := ws s; is_connected := is_connected s; last_ping_time := v;
     last_pong_time := last_pong_time s; message_count := message_count s;
     message_time := message_time s; clock := clock s; net := net s;
     wire := wire s; spawned := spawned s; log := log s |}.

Definition set_last_pong_time (v : Z) (s : state) : state :=
  {| cfg := cfg s; callbacks := callbacks s; subscribed_channels := subscribed_channels s;
     ws := ws s; is_connected := is_connected s; last_ping_time := last_ping_time s;
     last_pong_time := v; message_count := message_count s;
     message_time := message_time s; clock := clock s; net := net s;
     wire := wire s; spawned := spawned s; log := log s |}.

(** The client together with what its callbacks have been handed, in
    the order of the calls. *)
Record session : Type := {
  client : state;
  delivered : list (Callable * json);
}.

(** A method of the client, run within the session. *)
Definition on_client {A} (c : M state A) : M session A :=
  fun ss => (fst (c (client ss)),
             {| client := snd (c (client ss)); delivered := delivered ss |}).

Section Tasks.

Context `{PyRuntime}.

(** [f"{v}"] for a decoded JSON value; on a text it is the text. *)
Variable py_str : json -> string.

(** Whether a callback raises on a message.  A callback is the
    caller's code: here it does not touch the client. *)
Variable callback_fails : Callable -> json -> bool.

(** One pass of the [while] loop of
    [BybitWebsocketClient._monitor_connection].  [attempts] is the room
    [_reconnect] has on the stack when it is called from here. *)
Definition monitor_pass (attempts : nat) : M state unit :=
  let* now := time_now in
  let* s := get_state in
  let* _ :=
    if connection_timeout (cfg s) <? now - last_pong_time s then
      let* _ := write_log WARNING "pong timeout, reconnecting" in
      _reconnect attempts
    else ret tt in
  sleep 1.

(** [BybitWebsocketClient._monitor_connection], observed for at most
    [passes] passes of its loop. *)
Fixpoint _monitor_connection (passes attempts : nat) : M state progress :=
  fun s =>
    if negb (is_connected s) then (Ret Returned, s) else
    match passes with
    | O => (Ret Retrying, s)
    | S passes' =>
        (let* _ := monitor_pass attempts in
         _monitor_connection passes' attempts) s
    end.

(** One pass of the [while] loop of [BybitWebsocketClient._keep_alive]. *)
Definition keep_alive_pass (attempts : nat) : M state unit :=
  let* now := time_now in
  let* s := get_state in
  let* _ :=
    if ping_interval (cfg s) <=? now - last_ping_time s then
      try_except
        (let* _ := _send_message (Text "ping") in
         let* now := time_now in
         modify (set_last_ping_time now))
        (fun e =>
         let* _ := write_log ERROR "ping failed" in
         _reconnect attempts)
    else ret tt in
  sleep 1.

(** [BybitWebsocketClient._keep_alive]. *)
Fixpoint _keep_alive (passes attempts : nat) : M state progress :=
  fun s =>
    if negb (is_connected s) then (Ret Returned, s) else
    match passes with
    | O => (Ret Retrying, s)
    | S passes' =>
        (let* _ := keep_alive_pass attempts in
         _keep_alive passes' attempts) s
    end.

(** The f-string that names the channel of an incoming message. *)
Definition message_key (channel_info : json) : outcome string :=
  try* inst_type := json_item channel_info "instType" in
  try* channel := json_item channel_info "channel" in
  try* inst_id := json_item channel_info "instId" in
  Ret (py_str inst_type ++ "." ++ py_str channel ++ "." ++ py_str inst_id).

(** [await self.callbacks[channel_key](data)]. *)
Definition invoke (callback : Callable) (data : json) : M session unit :=
  fun ss =>
    (if callback_fails callback data then Raise (Exception "callback failed") else Ret tt,
     {| client := client ss; delivered := delivered ss ++ [(callback, data)] |}).

(** The [try] block of [BybitWebsocketClient._handle_messages]. *)
Definition receive_body : M session unit :=
  let* message := on_client ws_recv in
  match message with
  | Pong => on_client (let* now := time_now in modify (set_last_pong_time now))
  | Dropped => raise TransportError
  | Malformed => raise ValueError
  | Payload data =>
      let* event := lift (dict_get data "event" JNull) in
      if eq_str event "error" then on_client (write_log ERROR "error received") else
      match data with
      | JDict d =>
          if has_key "arg" d && has_key "data" d then
            let* channel_info := lift (item d "arg") in
            let* channel_key := lift (message_key channel_info) in
            let* ss := get_state in
            match callbacks (client ss) !! channel_key with
            | Some callback => invoke callback data
            | None => ret tt
            end
          else ret tt
      | _ => raise AttributeError
      end
  end.

(** One pass of the loop of [_handle_messages]: the [try] block and
    its two handlers, the first for a closed connection.  What the
    first handler raises is not the second one's to catch. *)
Definition receive_pass (attempts : nat) : M session unit :=
  fun ss =>
    match receive_body ss with
    | (Ret _, ss') => (Ret tt, ss')
    | (Raise TransportError, ss') =>
        on_client (let* _ := write_log WARNING "connection closed" in
                   _reconnect attempts) ss'
    | (Raise _, ss') =>
        on_client (write_log ERROR "message handling failed") ss'
    end.

(** [BybitWebsocketClient._handle_messages]. *)
Fixpoint _handle_messages (passes attempts : nat) : M session progress :=
  fun ss =>
    if negb (is_connected (client ss)) then (Ret Returned, ss) else
    match passes with
    | O => (Ret Retrying, ss)
    | S passes' =>
        (let* _ := receive_pass attempts in
         _handle_messages passes' attempts) ss
    end.

(** [BybitWebsocketClient.start]: [while True] around the receive
    loop, observed for at most [restarts] turns. *)
Fixpoint start (restarts passes attempts : nat) : M session progress :=
  match restarts with
  | O => ret Retrying
  | S restarts' =>
      try_except
        (let* reached := _handle_messages passes attempts in
         match reached with
         | Retrying => ret Retrying
         | Returned => start restarts' passes attempts
         end)
        (fun e =>
         let* _ := on_client (write_log ERROR "processing failed") in
         let* _ := on_client (sleep 5) in
         start restarts' passes attempts)
  end.

(** Whom an incoming message is for, read off the message and the
    callback map. *)
Definition addressee (cbs : gmap string Callable) (m : incoming) : option (Callable * json) :=
  match m with
  | Payload (JDict d) =>
      if eq_str (match assoc "event" d with Some e => e | None => JNull end) "error" then None
      else if has_key "arg" d && has_key "data" d then
        match item d "arg" with
        | Ret channel_info =>
            match message_key channel_info with
            | Ret k => option_map (fun cb => (cb, JDict d)) (cbs !! k)
            | Raise _ => None
            end
        | Raise _ => None
        end
      else None
  | _ => None
  end.

End Tasks.

(** [follows R c]: the state after [c] stands in relation [R] to the
    state before, however [c] ends. *)
Definition follows {A : Type} (R : state -> state -> Prop) (c : M state A) : Prop :=
  forall s, R s (snd (c s)).

(** [returns c]: [c] never raises. *)
Definition returns {S A : Type} (c : M S A) : Prop :=
  forall s, exists a, fst (c s) = Ret a.

(** The pings on the wire, by the time they were sent. *)
Definition is_ping (m : message) : bool :=
  match m with
  | Text t => String.eqb t "ping"
  | _ => false
  end.

Definition ping_times (s : state) : list Z :=
  map fst (List.filter (fun e => is_ping (snd e)) (wire s)).


(** What connecting, authenticating and reconnecting leave alone: the
    settings, the registry, the two heartbeat times and the pings on
    the wire; time, the log and the list of tasks only grow. *)
Record undisturbed (s s' : state) : Prop := {
  same_cfg : cfg s' = cfg s;
  same_registry : registry s' = registry s;
  same_pong : last_pong_time s' = last_pong_time s;
  same_ping : last_ping_time s' = last_ping_time s;
  same_pings : ping_times s' = ping_times s;
  clock_on : clock s <= clock s';
  log_on : log s `prefix_of` log s';
  spawned_on : spawned s `prefix_of` spawned s';
}.


(** What a pass leaves of the client when the socket yields a
    message: the registry, the connection and the settings as they
    were, the message gone from the socket. *)
Definition after_message (s s' : state) (m : incoming) (rest : list incoming) : Prop :=
  registry s' = registry s /\ is_connected s' = is_connected s /\ cfg s' = cfg s /\
  ws s' = ws s /\ recvs (net s') = rest /\ wire s' = wire s /\
  last_pong_time s' = match m with Pong => clock s | _ => last_pong_time s end.


End WS.

(** ** Concrete inputs

    A gateway object, the answers of an exchange, and the pending
    orders of the sweep, to run the operations on. *)

Module Inputs.

Definition gateway (now : Z) (replies : list Bitget.reply) : Bitget.state :=
  {| Bitget.API_KEY := "key"; Bitget.SECRET_KEY := "secret"; Bitget.PASSPHRASE := "phrase";
     Bitget.session := false; Bitget.clock := now; Bitget.inbox := replies;
     Bitget.calls := []; Bitget.log := [] |}.

Definition success (data : json) : json :=
  JDict [ ("code", JStr "00000"); ("msg", JStr "success"); ("data", data) ].

Definition pending_order (order_id c_time : string) : json :=
  JDict [ ("orderId", JStr order_id); ("symbol", JStr "BTCUSDT"); ("cTime", JStr c_time) ].

(** The sweep starts at 1700000045000 ms; the three orders are 10, 31
    and 45 seconds old. *)
Definition sweep_time : Z := 1700000045000.

Definition three_orders : list json :=
  [ pending_order "1001" "1700000035000";
    pending_order "1002" "1700000014000";
    pending_order "1003" "1700000000000" ].

Definition three_pending : list (string * json) :=
  [ ("code", JStr "00000"); ("msg", JStr "success");
    ("data", JDict [ ("entrustedList", JList three_orders); ("endId", JStr "1003") ]) ].

(** The first cancellation is accepted, the second request times out. *)
Definition cancel_replies : list Bitget.reply :=
  [ Bitget.Answer 120 200 (JDict [ ("code", JStr "00000") ]); Bitget.NoAnswer 5000 ].

(** The answer to a cancellation, wrapped in a list. *)
Definition answer_in_a_list : Bitget.reply :=
  Bitget.Answer 120 200 (JList [ JDict [ ("code", JStr "00000") ] ]).

(** A pending order 45 seconds old that carries no order id. *)
Definition anonymous_order : json :=
  JDict [ ("symbol", JStr "BTCUSDT"); ("cTime", JStr "1700000000000") ].




Definition flat : json :=
  JDict [ ("symbol", JStr "BTCUSDT"); ("total", JStr "0"); ("holdSide", JStr "long") ].

(** An environment that names the main network, and the settings
    [Config()] makes of it. *)
Definition environment : Settings.environ :=
  list_to_map [ ("BYBIT_ACCESS_KEY", "key"); ("BYBIT_SECRET_KEY", "secret");
                ("DB_PASSWORD", "password"); ("RISK_PERCENTAGE", "0.02");
                ("BYBIT_TESTNET", "false") ].

Definition main_config : Settings.Config :=
  Settings.built environment 3306 (JNum 10) (JNum (2 # 100)) (JNum (2 # 100)).

(** A streaming client with the default limits and the exchange section
    of these settings, created at clock 0, and a network that grants
    the first [n] connections and the first [k] sends. *)
Definition client_config : WS.config :=
  WS.default_config (Settings.get_config main_config "bybit").

Definition granting (n k : nat) (answers : list WS.incoming) : WS.network :=
  {| WS.connects := repeat true n; WS.sends := repeat true k;
     WS.recvs := answers; WS.oversleep := [] |}.

Definition fresh_client (n : WS.network) : WS.state := WS.init client_config 0 n.

Definition run_on {A} (c : M WS.state A) (s : WS.state) : WS.state := snd (c s).

Definition connected_client (k : nat) : WS.state :=
  run_on (WS._connect (H := decimal_runtime) false) (fresh_client (granting 1 k [])).

Definition numbered (i : nat) : WS.message := WS.Text ("m" ++ str_of_int (Z.of_nat i)).

(** Twenty-five sends, the first ten 999 ms after the client was
    created and the rest one millisecond later. *)
Definition burst : list WS.event :=
  (WS.Wait 999 :: map (fun i => WS.Send (numbered i)) (seq 1 10))
    ++ WS.Wait 1 :: map (fun i => WS.Send (numbered i)) (seq 11 15).

(** Thirty-one tasks call the limiter: ten at clock 0, twenty-one more
    half a second later, which are all suspended; a second on, the
    event loop resumes them one after the other. *)
Definition crowd : list WS.turn :=
  map (fun i => WS.Call (numbered i)) (seq 1 10)
    ++ WS.Pause 500 :: map (fun i => WS.Call (numbered i)) (seq 11 21)
    ++ WS.Pause 1000 :: repeat WS.Wake 21.

(** Twelve tasks call the limiter: ten at clock 0, one at 500 ms, which
    is suspended until 1500 ms, and one at 1000 ms. *)
Definition overtaking : list WS.turn :=
  map (fun i => WS.Call (numbered i)) (seq 1 10)
    ++ [ WS.Pause 500; WS.Call (numbered 11); WS.Pause 500; WS.Call (numbered 12);
         WS.Pause 500; WS.Wake ].

(** A client whose limit has been set to 0. *)
Definition zero_limit_client : WS.state :=
  run_on (WS._connect (H := decimal_runtime) false)
    (WS.init
       {| WS.api_config := WS.api_config client_config;
          WS.ws_public_url := WS.ws_public_url client_config;
          WS.ws_private_url := WS.ws_private_url client_config;
          WS.ping_interval := WS.ping_interval client_config;
          WS.connection_timeout := WS.connection_timeout client_config;
          WS.max_channels_per_conn := WS.max_channels_per_conn client_config;
          WS.message_rate_limit := 0 |}
       0 (granting 1 1 [])).

Definition ticker (inst_id : string) : WS.channel_arg :=
  WS.ChanDict [ ("instType", "USDT-FUTURES"); ("channel", "ticker"); ("instId", inst_id) ].

Definition fifty_channels : list WS.channel_arg :=
  map (fun i => ticker ("SYM" ++ str_of_int (Z.of_nat i))) (seq 0 50).

(** A client that has subscribed to fifty channels in one call. *)
Definition full_client : WS.state :=
  run_on (WS.subscribe (H := decimal_runtime) fifty_channels (WS.Handler 0))
    (fresh_client (granting 1 1 [])).

(** Two channels that differ in their fields and share their dotted
    key. *)
Definition spot_usdt_ticker : WS.channel_arg :=
  WS.ChanDict [ ("instType", "SPOT.USDT"); ("channel", "ticker"); ("instId", "BTC") ].

Definition spot_usdt_dot_ticker : WS.channel_arg :=
  WS.ChanDict [ ("instType", "SPOT"); ("channel", "USDT.ticker"); ("instId", "BTC") ].

Definition login_accepted : WS.incoming := WS.Payload (JDict [ ("code", JStr "0") ]).

(** A client subscribed to one channel, on a network that would grant
    three more connections and accept three logins. *)
Definition subscribed_client : WS.state :=
  run_on (WS.subscribe (H := decimal_runtime) [ticker "BTCUSDT"] (WS.Handler 0))
    (fresh_client (granting 4 8 [login_accepted; login_accepted; login_accepted])).

(** The same client with settings that hold a passphrase, which those
    of [Config] do not. *)
Definition keyed_config : WS.config :=
  WS.default_config
    [ ("api_key", Json (JStr "key")); ("secret_key", Json (JStr "secret"));
      ("passphrase", Json (JStr "phrase")) ].

Definition keyed_client : WS.state :=
  run_on (WS.subscribe (H := decimal_runtime) [ticker "BTCUSDT"] (WS.Handler 0))
    (WS.init keyed_config 0 (granting 4 8 [login_accepted; login_accepted; login_accepted])).

(** A REST client at clock reading [now]. *)
Definition rest_client (now : Z) (replies : list BybitClient.reply) : BybitClient.state :=
  {| BybitClient.api_key := "key"; BybitClient.secret_key := "secret";
     BybitClient.base_url := "https://api.bybit.com"; BybitClient.clock := now;
     BybitClient.inbox := replies; BybitClient.calls := [] |}.

(** A pending order whose creation time is not a number. *)
Definition undated_order : list (string * json) :=
  [ ("orderId", JStr "1004"); ("symbol", JStr "BTCUSDT"); ("cTime", JStr "soon") ].

Definition pending_with_undated : list (string * json) :=
  [ ("code", JStr "00000"); ("msg", JStr "success");
    ("data", JDict [ ("entrustedList",
                      JList ([ pending_order "1003" "1700000000000" ]
                               ++ JDict undated_order :: [ pending_order "1002" "1700000014000" ])) ]) ].

(** The f-string rendering used in the runs: a text as it is. *)
Definition render (v : json) : string :=
  match v with
  | JStr t => t
  | _ => dec_json_dumps v
  end.

Definition never_fails (callback : WS.Callable) (data : json) : bool := false.

(** A ticker update for BTCUSDT as the exchange pushes it. *)
Definition ticker_arg : list (string * json) :=
  [ ("instType", JStr "USDT-FUTURES"); ("channel", JStr "ticker"); ("instId", JStr "BTCUSDT") ].

Definition ticker_update : list (string * json) :=
  [ ("action", JStr "snapshot"); ("arg", JDict ticker_arg);
    ("data", JList [ JDict [ ("lastPr", JStr "65000.5") ] ]) ].

(** A channel that lacks its instrument. *)
Definition nameless_ticker : WS.channel_arg :=
  WS.ChanDict [ ("instType", "USDT-FUTURES"); ("channel", "ticker") ].

(** A network that refuses two connections and grants the third. *)
Definition third_time_lucky : WS.network :=
  {| WS.connects := [false; false; true]; WS.sends := [true]; WS.recvs := [];
     WS.oversleep := [] |}.

End Inputs.
(** ** Facts about the renderings *)

















Lemma list_ascii_app (s t : string) :
  list_ascii_of_string (s ++ t) = (list_ascii_of_string s ++ list_ascii_of_string t)%list.
Proof. induction s as [|c s IH]; simpl; [reflexivity | now rewrite IH]. Qed.

Lemma list_ascii_inj (s t : string) :
  list_ascii_of_string s = list_ascii_of_string t -> s = t.
Proof.
  intros E. rewrite <- (string_of_list_ascii_of_string s), <- (string_of_list_ascii_of_string t).
  now rewrite E.
Qed.




(** A text cut at its first separator: the two parts are determined. *)
Lemma list_split_at (sep : ascii) (l l' r r' : list ascii) :
  ~ In sep l -> ~ In sep l' ->
  (l ++ sep :: r = l' ++ sep :: r')%list -> l = l' /\ r = r'.
Proof.
  revert l'. induction l as [|x l IH]; intros [|y l'] Hl Hl' E; simpl in *.
  - inversion E. auto.
  - inversion E; subst. destruct Hl'. now left.
  - inversion E; subst. destruct Hl. now left.
  - inversion E; subst.
    destruct (IH l') as [-> ->]; auto.
Qed.

Lemma string_split_at_dot (a a' r r' : string) :
  ~ In "."%char (list_ascii_of_string a) -> ~ In "."%char (list_ascii_of_string a') ->
  a ++ "." ++ r = a' ++ "." ++ r' -> a = a' /\ r = r'.
Proof.
  intros Ha Ha' E. apply (f_equal list_ascii_of_string) in E.
  rewrite !list_ascii_app in E. simpl in E.
  apply list_split_at in E as [E1 E2]; auto.
  split; now apply list_ascii_inj.
Qed.

(** ** Sorting by key, splitting and joining *)

Lemma ascii_compare_lt_trans (a b c : ascii) :
  Ascii.compare a b = Lt -> Ascii.compare b c = Lt -> Ascii.compare a c = Lt.
Proof. unfold Ascii.compare. rewrite !N.compare_lt_iff. lia. Qed.

Lemma string_compare_lt_trans (s1 : string) :
  forall s2 s3, String.compare s1 s2 = Lt -> String.compare s2 s3 = Lt ->
                String.compare s1 s3 = Lt.
Proof.
  induction s1 as [|a s1 IH]; intros [|b s2] [|c s3]; simpl; try discriminate; auto.
  destruct (Ascii.compare a b) eqn:Eab; try discriminate;
    destruct (Ascii.compare b c) eqn:Ebc; try discriminate; intros H12 H23.
  - apply Ascii.compare_eq_iff in Eab, Ebc. subst.
    assert (Ascii.compare c c = Eq) as ->
      by (unfold Ascii.compare; apply N.compare_refl).
    eauto.
  - apply Ascii.compare_eq_iff in Eab. subst. now rewrite Ebc.
  - apply Ascii.compare_eq_iff in Ebc. subst. now rewrite Eab.
  - now rewrite (ascii_compare_lt_trans a b c).
Qed.

Lemma string_compare_refl (s : string) : String.compare s s = Eq.
Proof.
  induction s as [|a s IH]; simpl; [reflexivity |].
  assert (Ascii.compare a a = Eq) as -> by (unfold Ascii.compare; apply N.compare_refl).
  exact IH.
Qed.

Lemma string_leb_trans (s1 s2 s3 : string) :
  String.leb s1 s2 = true -> String.leb s2 s3 = true -> String.leb s1 s3 = true.
Proof.
  unfold String.leb.
  destruct (String.compare s1 s2) eqn:E12; try discriminate;
    destruct (String.compare s2 s3) eqn:E23; try discriminate; intros _ _.
  - apply String.compare_eq_iff in E12, E23. subst. now rewrite string_compare_refl.
  - apply String.compare_eq_iff in E12. subst. now rewrite E23.
  - apply String.compare_eq_iff in E23. subst. now rewrite E12.
  - now rewrite (string_compare_lt_trans s1 s2 s3).
Qed.

Section SortedItems.

Context {V : Type}.

Lemma insert_item_perm (a : string * V) (l : list (string * V)) :
  Permutation (insert_item a l) (a :: l).
Proof.
  induction l as [|b rest IH]; simpl.
  - reflexivity.
  - destruct (String.leb (fst a) (fst b)); [reflexivity |].
    rewrite IH. apply perm_swap.
Qed.

Lemma sorted_items_perm (l : list (string * V)) : Permutation (sorted_items l) l.
Proof.
  induction l as [|a rest IH]; simpl.
  - reflexivity.
  - unfold sorted_items in *. simpl. rewrite insert_item_perm. now constructor.
Qed.

Lemma insert_item_ordered (a : string * V) (l : list (string * V)) :
  ordered l -> ordered (insert_item a l).
Proof.
  induction l as [|b rest IH]; simpl.
  - intros _. split; [constructor | exact I].
  - intros [Hb Hrest]. destruct (String.leb (fst a) (fst b)) eqn:Eab; simpl.
    + split; [| split; assumption]. constructor; [exact Eab |].
      eapply List.Forall_impl; [| exact Hb].
      intros c Hc. unfold key_le in *. eapply string_leb_trans; eassumption.
    + split; [| auto].
      eapply Permutation_Forall; [symmetry; apply insert_item_perm |].
      constructor; [| exact Hb].
      unfold key_le. destruct (String.leb_total (fst a) (fst b)) as [E|E]; [congruence | exact E].
Qed.

Lemma sorted_items_ordered (l : list (string * V)) : ordered (sorted_items l).
Proof.
  induction l as [|a rest IH]; simpl; [exact I |].
  unfold sorted_items in *. simpl. now apply insert_item_ordered.
Qed.

(** Two lists in key order with the same items are the same list, when
    no two different items share a key. *)
Lemma ordered_unique (l1 : list (string * V)) :
  forall l2, ordered l1 -> ordered l2 -> Permutation l1 l2 ->
             (forall a b, In a l1 -> In b l1 -> fst a = fst b -> a = b) ->
             l1 = l2.
Proof.
  induction l1 as [|a l1 IH]; intros l2 H1 H2 Hp Hk.
  - now apply Permutation_nil in Hp.
  - destruct l2 as [|b l2]; [symmetry in Hp; now apply Permutation_nil in Hp |].
    assert (Hab : a = b).
    { assert (Ha : In a (b :: l2)) by (eapply Permutation_in; [exact Hp | now left]).
      assert (Hb : In b (a :: l1))
        by (eapply Permutation_in; [symmetry; exact Hp | now left]).
      destruct Ha as [Ha|Ha]; [now symmetry |].
      destruct Hb as [Hb|Hb]; [exact Hb |].
      destruct H1 as [H1 _], H2 as [H2 _].
      rewrite List.Forall_forall in H1, H2.
      apply Hk; [now left | now right |].
      apply String.leb_antisym; [apply (H1 b Hb) | apply (H2 a Ha)]. }
    subst b. f_equal. apply IH.
    + apply H1.
    + apply H2.
    + eapply Permutation_cons_inv; exact Hp.
    + intros x y Hx Hy. apply Hk; now right.
Qed.

(** Sorting forgets the order the items came in. *)
Lemma sorted_items_permutation (l l' : list (string * V)) :
  Permutation l l' ->
  (forall a b, In a l -> In b l -> fst a = fst b -> a = b) ->
  sorted_items l = sorted_items l'.
Proof.
  intros Hp Hk. apply ordered_unique; try apply sorted_items_ordered.
  - rewrite !sorted_items_perm. exact Hp.
  - intros a b Ha Hb. apply Hk; eapply Permutation_in; try eassumption;
      apply sorted_items_perm.
Qed.

Lemma distinct_keys (l : list (string * V)) :
  NoDup (map fst l) -> forall a b, In a l -> In b l -> fst a = fst b -> a = b.
Proof.
  induction l as [|c rest IH]; simpl; intros Hn a b Ha Hb E; [contradiction |].
  inversion Hn as [|? ? Hc Hrest]; subst.
  destruct Ha as [<-|Ha], Hb as [<-|Hb].
  - reflexivity.
  - exfalso. apply Hc. rewrite E. apply list_elem_of_In. now apply in_map.
  - exfalso. apply Hc. rewrite <- E. apply list_elem_of_In. now apply in_map.
  - now apply IH.
Qed.

End SortedItems.

(** [sorted(strings)] is the sort by key of the strings taken as keys. *)
Lemma insert_string_items (x : string) (l : list (string * unit)) :
  insert_string x (map fst l) = map fst (insert_item (x, tt) l).
Proof.
  induction l as [|[y []] rest IH]; simpl; [reflexivity |].
  destruct (String.leb x y); simpl; [reflexivity | now rewrite IH].
Qed.

Lemma sorted_strings_items (l : list string) :
  sorted_strings l = map fst (sorted_items (map (fun x => (x, tt)) l)).
Proof.
  induction l as [|x rest IH]; simpl; [reflexivity |].
  unfold sorted_strings, sorted_items in *. simpl. rewrite IH. apply insert_string_items.
Qed.

Lemma sorted_strings_permutation (l l' : list string) :
  Permutation l l' -> sorted_strings l = sorted_strings l'.
Proof.
  intros Hp. rewrite !sorted_strings_items. f_equal.
  apply sorted_items_permutation.
  - now apply Permutation_map.
  - intros [a []] [b []] _ _. simpl. now intros ->.
Qed.

(** *** [split] undoes [join] *)

Lemma split_on_free (sep : ascii) (p : string) : free_of sep p -> split_on sep p = [p].
Proof.
  induction p as [|c p IH]; simpl; intros Hf; [reflexivity |].
  destruct (Ascii.eqb_spec c sep) as [->|Hc].
  - exfalso. apply Hf. now left.
  - rewrite IH; [reflexivity |]. intros Hin. apply Hf. now right.
Qed.

Lemma split_on_piece (sep : ascii) (p rest : string) :
  free_of sep p -> split_on sep (p ++ String sep rest) = p :: split_on sep rest.
Proof.
  induction p as [|c p IH]; simpl; intros Hf.
  - change (("" ++ String sep rest)%string) with (String sep rest). simpl.
    now rewrite Ascii.eqb_refl.
  - change ((String c p ++ String sep rest)%string) with (String c (p ++ String sep rest)).
    simpl. destruct (Ascii.eqb_spec c sep) as [->|Hc].
    + exfalso. apply Hf. now left.
    + rewrite IH; [reflexivity |]. intros Hin. apply Hf. now right.
Qed.

Lemma split_on_join (sep : ascii) (pieces : list string) :
  pieces <> [] -> Forall (free_of sep) pieces ->
  split_on sep (join (String sep "") pieces) = pieces.
Proof.
  induction pieces as [|p rest IH]; intros Hne Hf; [contradiction |].
  inversion Hf as [|? ? Hp Hrest]; subst.
  destruct rest as [|q rest].
  - simpl. now apply split_on_free.
  - change (join (String sep "") (p :: q :: rest))
      with (p ++ String sep "" ++ join (String sep "") (q :: rest))%string.
    change (String sep "" ++ join (String sep "") (q :: rest))%string
      with (String sep (join (String sep "") (q :: rest))).
    rewrite split_on_piece by assumption. f_equal. apply IH; [discriminate | assumption].
Qed.

Lemma split_once_piece (sep : ascii) (p rest : string) :
  free_of sep p -> split_once sep (p ++ String sep rest) = Some (p, rest).
Proof.
  induction p as [|c p IH]; simpl; intros Hf.
  - change (("" ++ String sep rest)%string) with (String sep rest). simpl.
    now rewrite Ascii.eqb_refl.
  - change ((String c p ++ String sep rest)%string) with (String c (p ++ String sep rest)).
    simpl. destruct (Ascii.eqb_spec c sep) as [->|Hc].
    + exfalso. apply Hf. now left.
    + rewrite IH; [reflexivity |]. intros Hin. apply Hf. now right.
Qed.

(** ** The digest: its length, and what follows from it *)








(** ** Request signing *)

Section SignatureFacts.

Context `{PyRuntime}.




(** What the streaming signer returns: the key is the settings'
    ["secret_key"], which must be there and be a text. *)
Lemma ws_signature_run (s : WS.state) :
  WS._generate_signature s
  = (try* secret_key := item (WS.api_config (WS.cfg s)) "secret_key" in
     try* key := encode secret_key in
     Ret (b64encode (hmac_sha256 key (WS.login_message (WS.clock s)))), s).
Proof.
  unfold WS._generate_signature, bind, WS.time_now, get_state, lift, ret, and_then.
  destruct (item _ "secret_key") as [v|e]; [| reflexivity].
  destruct (encode v); reflexivity.
Qed.


End SignatureFacts.

(** ** The settings *)

Section SettingsFacts.

Context `{PyRuntime}.

Import Settings.

(** A value is read against the type expected of it, so that a
    decoded-JSON value can stand where a settings value is due. *)
#[local] Arguments Ret {A} & a.

(** [float()] gives a number or one of the three floats that are
    none; on a setting it fails with [ValueError] only. *)
Lemma float_of_value (v : json) (x : pyval) :
  float_of v = Ret x -> (exists q, x = Json (JNum q)) \/ exists f, x = Float f.
Proof.
  unfold float_of, and_then. destruct v as [| b | q | t | l | d]; simpl; try discriminate.
  - intros E; inversion E; eauto.
  - intros E; inversion E; eauto.
  - destruct (nonfinite_of_str t); [intros E; inversion E; eauto |].
    destruct (float_of_str t); [intros E; inversion E; eauto | discriminate].
Qed.

Lemma float_setting_raises (env : environ) (name : string) (q : Q) (e : exn) :
  float_of (getenv env name (JNum q)) = Raise e -> e = ValueError.
Proof.
  unfold getenv, float_of, and_then. destruct (env !! name) as [v|]; simpl; [| discriminate].
  destruct (nonfinite_of_str v); [discriminate |].
  destruct (float_of_str v); [discriminate | now inversion 1].
Qed.

Lemma int_setting_raises (env : environ) (name : string) (q : Q) (e : exn) :
  py_int (getenv env name (JNum q)) = Raise e -> e = ValueError.
Proof.
  unfold getenv. destruct (env !! name) as [v|]; simpl; [| discriminate].
  destruct (int_of_str v); [discriminate | now inversion 1].
Qed.

Lemma truthy_getenv (env : environ) (name : string) :
  truthy (getenv env name JNull) = true <-> nonempty_variable env name.
Proof.
  unfold getenv, nonempty_variable. destruct (env !! name) as [v|]; simpl.
  - destruct (String.eqb_spec v ""); simpl; split.
    + discriminate.
    + intros (v' & E & Hv). inversion E; subst. contradiction.
    + eauto.
    + reflexivity.
  - split; [discriminate | intros (v & E & _); discriminate].
Qed.

(** The range test lets through the numbers in (0, 1] and [nan]. *)
Lemma out_of_range_accepted (risk : pyval) :
  out_of_range risk = false <-> risk_accepted risk.
Proof.
  unfold out_of_range, risk_accepted.
  destruct risk as [[| b | q | t | l | d] | [| negative]]; simpl;
    try (split; [discriminate | contradiction]).
  - destruct b; simpl; split; auto; discriminate.
  - destruct (Qle_bool q 0) eqn:E0; simpl.
    + split; [discriminate |]. intros [Hpos _]. apply Qle_bool_iff in E0.
      exfalso. apply (Qlt_not_le _ _ Hpos E0).
    + assert (0 < q)%Q as Hpos.
      { apply Qnot_le_lt. intros Hle. apply Qle_bool_iff in Hle. congruence. }
      rewrite negb_false_iff, Qle_bool_iff. tauto.
  - tauto.
  - destruct negative; simpl; split; try discriminate; contradiction.
Qed.

Lemma checks_valid (env : environ) (risk : pyval) :
  checks env risk = true <-> valid_settings env risk.
Proof.
  unfold checks, valid_settings.
  rewrite !andb_true_iff, !truthy_getenv, negb_true_iff, out_of_range_accepted.
  tauto.
Qed.

(** The validation of the object [__init__] has filled in. *)
Lemma validate_built (env : environ) (port : Z) (leverage risk stop_loss : pyval) :
  ((exists q, risk = Json (JNum q)) \/ exists f, risk = Float f) ->
  _validate_config (built env port leverage risk stop_loss)
  = if checks env risk then Ret tt else Raise ValueError.
Proof.
  intros Hrisk. unfold _validate_config, checks, built, item, and_then. simpl.
  destruct (truthy (getenv env "BYBIT_ACCESS_KEY" JNull)); simpl; [| reflexivity].
  destruct (truthy (getenv env "BYBIT_SECRET_KEY" JNull)); simpl; [| reflexivity].
  destruct (truthy (getenv env "DB_PASSWORD" JNull)); simpl; [| reflexivity].
  unfold out_of_range.
  destruct Hrisk as [[q ->] | [[| negative] ->]]; simpl.
  - destruct (Qle_bool q 0); simpl; [reflexivity |]. now destruct (Qle_bool q 1).
  - reflexivity.
  - now destruct negative.
Qed.

(** The constructor, once the numeric settings are read. *)
Lemma init_run (env : environ) (port : Z) (leverage risk stop_loss : pyval) :
  numeric_settings env port leverage risk stop_loss ->
  __init__ env =
  if checks env risk then Ret (built env port leverage risk stop_loss) else Raise ValueError.
Proof.
  intros (Hp & Hl & Hr & Hs). unfold __init__. rewrite Hp, Hl, Hr, Hs.
  cbv zeta. unfold and_then at 1 2 3 4.
  change (_validate_config _) with (_validate_config (built env port leverage risk stop_loss)).
  rewrite validate_built by (eapply float_of_value; exact Hr).
  unfold and_then. now destruct (checks env risk).
Qed.

Lemma init_raises (env : environ) (e : exn) : __init__ env = Raise e -> e = ValueError.
Proof.
  destruct (py_int (getenv env "DB_PORT" (JNum 3306))) as [port|e1] eqn:Hp.
  2:{ unfold __init__. rewrite Hp. simpl. intros E; inversion E; subst.
      eapply int_setting_raises; eassumption. }
  destruct (float_of (getenv env "TRADING_LEVERAGE" (JNum 10))) as [l|e1] eqn:Hl.
  2:{ unfold __init__. rewrite Hp, Hl. simpl. intros E; inversion E; subst.
      eapply float_setting_raises; eassumption. }
  destruct (float_of (getenv env "RISK_PERCENTAGE" (JNum (1 # 100)))) as [r|e1] eqn:Hr.
  2:{ unfold __init__. rewrite Hp, Hl, Hr. simpl. intros E; inversion E; subst.
      eapply float_setting_raises; eassumption. }
  destruct (float_of (getenv env "STOP_LOSS_PERCENTAGE" (JNum (2 # 100)))) as [sl|e1] eqn:Hs.
  2:{ unfold __init__. rewrite Hp, Hl, Hr, Hs. simpl. intros E; inversion E; subst.
      eapply float_setting_raises; eassumption. }
  rewrite (init_run env port l r sl) by (repeat split; assumption).
  destruct (checks env r); [discriminate | now inversion 1].
Qed.

(** A constructed [Config] is the one built from the environment. *)
Lemma init_returns (env : environ) (c : Config) :
  __init__ env = Ret c ->
  exists port leverage risk stop_loss,
    numeric_settings env port leverage risk stop_loss /\
    checks env risk = true /\
    c = built env port leverage risk stop_loss.
Proof.
  intros E.
  destruct (py_int (getenv env "DB_PORT" (JNum 3306))) as [port|e1] eqn:Hp;
    [| unfold __init__ in E; rewrite Hp in E; discriminate].
  destruct (float_of (getenv env "TRADING_LEVERAGE" (JNum 10))) as [l|e1] eqn:Hl;
    [| unfold __init__ in E; rewrite Hp, Hl in E; discriminate].
  destruct (float_of (getenv env "RISK_PERCENTAGE" (JNum (1 # 100)))) as [r|e1] eqn:Hr;
    [| unfold __init__ in E; rewrite Hp, Hl, Hr in E; discriminate].
  destruct (float_of (getenv env "STOP_LOSS_PERCENTAGE" (JNum (2 # 100)))) as [sl|e1] eqn:Hs;
    [| unfold __init__ in E; rewrite Hp, Hl, Hr, Hs in E; discriminate].
  exists port, l, r, sl.
  assert (Hn : numeric_settings env port l r sl) by (repeat split; assumption).
  rewrite (init_run env port l r sl Hn) in E.
  destruct (checks env r); [| discriminate].
  inversion E. auto.
Qed.

(** [Config()] is constructed exactly when the API key, the secret key
    and the database password are set and not empty and the risk
    percentage passes the range test, which the numbers in (0, 1] do,
    and [nan]: a risk that is not a number is let through.  The
    sections then hold what the environment gave.  Every failure of the
    constructor, a setting that cannot be read included, is a
    [ValueError]. *)
Theorem config_is_built_from_valid_settings (env : environ) (port : Z)
    (leverage risk stop_loss : pyval) :
  numeric_settings env port leverage risk stop_loss ->
  ((exists c, __init__ env = Ret c) <-> valid_settings env risk) /\
  (forall c, __init__ env = Ret c ->
     item (get_config c "trading") "risk_percentage" = Ret risk /\
     item (get_config c "trading") "leverage" = Ret leverage /\
     item (get_config c "database") "port" = Ret (JNum (inject_Z port))) /\
  (~ valid_settings env risk -> __init__ env = Raise ValueError) /\
  (forall env' e, __init__ env' = Raise e -> e = ValueError) /\
  (forall q, risk = JNum q -> risk_accepted risk <-> (0 < q)%Q /\ (q <= 1)%Q) /\
  (forall v, env !! "RISK_PERCENTAGE" = Some v -> nonfinite_of_str v = Some NaN ->
     risk = Float NaN /\ risk_accepted risk).
Proof.
  intros Hn. pose proof (init_run env port leverage risk stop_loss Hn) as E.
  split; [| split; [| split; [| split; [| split]]]].
  - rewrite <- checks_valid. rewrite E. destruct (checks env risk).
    + split; eauto.
    + split; [intros (c & Hc); discriminate | discriminate].
  - intros c Hc. rewrite E in Hc. destruct (checks env risk); [| discriminate].
    inversion Hc. repeat split; reflexivity.
  - intros Hv. rewrite E. destruct (checks env risk) eqn:Hc; [| reflexivity].
    exfalso. apply Hv. now apply checks_valid.
  - intros env' e. apply init_raises.
  - intros q ->. reflexivity.
  - intros v Hv Hnan. destruct Hn as (_ & _ & Hr & _).
    unfold getenv in Hr. rewrite Hv in Hr. unfold float_of in Hr. rewrite Hnan in Hr.
    inversion Hr. split; [reflexivity | exact I].
Qed.

(** The base URL is the test network's unless [BYBIT_TESTNET] is set to
    a text other than "true" (in any mix of upper and lower case); in
    particular a missing variable means the test network, and "1",
    "yes" or "false" all mean the main network. *)
Theorem base_url_is_testnet_unless_told_otherwise (env : environ) (c : Config) :
  __init__ env = Ret c ->
  (env !! "BYBIT_TESTNET" = None ->
   get_bybit_base_url c = Ret (JStr "https://api-testnet.bybit.com")) /\
  (forall v, env !! "BYBIT_TESTNET" = Some v ->
     get_bybit_base_url c =
     Ret (JStr (if String.eqb (lower v) "true" then "https://api-testnet.bybit.com"
                else "https://api.bybit.com"))).
Proof.
  intros E. destruct (init_returns env c E) as (port & l & r & sl & _ & _ & ->).
  unfold get_bybit_base_url, built, testnet_flag, getenv. simpl.
  split.
  - intros ->. reflexivity.
  - intros v ->. simpl. now destruct (String.eqb (lower v) "true").
Qed.

(** The credentials in the "bybit" section of a constructed [Config]:
    the two keys are texts, and there is nothing under "passphrase". *)
Lemma bybit_section_credentials (env : environ) (c : Config) :
  __init__ env = Ret c ->
  (exists k, item (get_config c "bybit") "api_key" = Ret (Json (JStr k))) /\
  (exists k, item (get_config c "bybit") "secret_key" = Ret (Json (JStr k))) /\
  item (get_config c "bybit") "passphrase" = Raise (KeyError "passphrase").
Proof.
  intros E. destruct (init_returns env c E) as (port & l & r & sl & _ & Hc & ->).
  apply checks_valid in Hc. destruct Hc as ((k & Hk & Hkn) & (sk & Hsk & Hskn) & _).
  split; [| split].
  - exists k. unfold get_config, built, item, getenv. simpl. now rewrite Hk.
  - exists sk. unfold get_config, built, item, getenv. simpl. now rewrite Hsk.
  - reflexivity.
Qed.

(** The section of the settings a client asks for by name: the "bybit"
    section of a constructed [Config] holds five entries, its keys are
    non-empty texts, and it has no "passphrase"; a name that is not one
    of the four sections gives the empty dictionary. *)
Theorem bybit_section_holds_keys_and_no_passphrase (env : environ) (c : Config) :
  __init__ env = Ret c ->
  map fst (get_config c "bybit")
  = [ "testnet"; "base_url_testnet"; "base_url_mainnet"; "api_key"; "secret_key" ] /\
  (exists k, item (get_config c "bybit") "api_key" = Ret (JStr k) /\ k <> "" /\
             env !! "BYBIT_ACCESS_KEY" = Some k) /\
  (exists k, item (get_config c "bybit") "secret_key" = Ret (JStr k) /\ k <> "" /\
             env !! "BYBIT_SECRET_KEY" = Some k) /\
  item (get_config c "bybit") "passphrase" = Raise (KeyError "passphrase") /\
  (forall config_type,
     config_type <> "bybit" -> config_type <> "database" ->
     config_type <> "trading" -> config_type <> "logging" ->
     get_config c config_type = []).
Proof.
  intros E. destruct (init_returns env c E) as (port & l & r & sl & _ & Hc & ->).
  apply checks_valid in Hc. destruct Hc as ((k & Hk & Hkn) & (sk & Hsk & Hskn) & _).
  split; [reflexivity |]. split; [| split; [| split]].
  - exists k. unfold get_config, built, item, getenv. simpl. rewrite Hk. auto.
  - exists sk. unfold get_config, built, item, getenv. simpl. rewrite Hsk. auto.
  - reflexivity.
  - intros t H1 H2 H3 H4. unfold get_config. cbv zeta. unfold assoc.
    apply String.eqb_neq in H1, H2, H3, H4.
    rewrite (String.eqb_sym "bybit"), H1, (String.eqb_sym "database"), H2,
      (String.eqb_sym "trading"), H3, (String.eqb_sym "logging"), H4.
    reflexivity.
Qed.

End SettingsFacts.

(** ** The REST client of bybit_client.py *)

Section RequestFacts.

Context `{PyRuntime}.

Import BybitClient.

(** Lookup after an update: the updated key holds the new value, every
    other key what it held. *)
Lemma assoc_dict_set {V} (key key' : string) (value : V) (d : list (string * V)) :
  assoc key' (dict_set key value d)
  = if String.eqb key key' then Some value else assoc key' d.
Proof.
  induction d as [|[k v] rest IH]; simpl.
  - reflexivity.
  - destruct (String.eqb_spec k key) as [->|Hk]; simpl.
    + destruct (String.eqb key key'); reflexivity.
    + rewrite IH. destruct (String.eqb_spec key key') as [<-|Hk'].
      * apply String.eqb_neq in Hk. now rewrite Hk.
      * reflexivity.
Qed.

(** One call of [_send_request]. *)
Lemma _send_request_run (method endpoint : string)
    (params : option (list (string * scalar))) (auth_required : bool) (s : state) :
  _send_request method endpoint params auth_required s
  = (result_of (head (inbox s)),
     {| api_key := api_key s; secret_key := secret_key s; base_url := base_url s;
        clock := clock s; inbox := tail (inbox s);
        calls := calls s ++ [issued s method endpoint params auth_required] |}).
Proof.
  unfold _send_request, issued, bind, get_state, except_request, session_send.
  destruct auth_required; cbv iota beta zeta;
    destruct (authenticated s (clock s) params) as [ps hs] eqn:Ea; simpl fst; simpl snd.
  all: destruct (String.eqb method "GET"); simpl.
  all: destruct (inbox s) as [|[|status data] rest]; simpl; try reflexivity.
  all: unfold result_of, accepted, lift, ret, raise, bind.
  all: destruct (status =? 200) eqn:Est; simpl.
  all: try (apply Z.eqb_eq in Est; subst status).
  all: destruct data as [| b | q | t | l | d]; simpl; try reflexivity.
  all: try (destruct (differs_from_zero
                        match assoc "retCode" d with Some x => x | None => JNull end);
            simpl; try reflexivity).
  all: unfold item; destruct (assoc "result" d); reflexivity.
Qed.

(** [_send_request] issues one request whatever the outcome, and
    returns a value in one case only: the answer has status 200 and is a
    dictionary whose [retCode] equals zero, and the value is its
    [result].  No answer raises the client's own exception; so does an
    answer with another status or another [retCode]; an accepted answer
    without a [result] is a [KeyError]. *)
Theorem send_request_returns_only_accepted_results (method endpoint : string)
    (params : option (list (string * scalar))) (auth_required : bool) (s : state) :
  let run := _send_request method endpoint params auth_required s in
  (exists r, calls (snd run) = (calls s ++ [r])%list /\
             req_url r = base_url s ++ endpoint /\ inbox (snd run) = tail (inbox s)) /\
  (forall v, fst run = Ret v ->
     exists answer d, head (inbox s) = Some answer /\ accepted answer = Some d /\
                      assoc "result" d = Some v) /\
  (forall answer d, head (inbox s) = Some answer -> accepted answer = Some d ->
     fst run = item d "result") /\
  (head (inbox s) = None \/ head (inbox s) = Some NoAnswer -> fst run = Raise request_failed) /\
  (forall status d, head (inbox s) = Some (Answer status (JDict d)) ->
     accepted (Answer status (JDict d)) = None -> fst run = Raise api_error).
Proof.
  cbv zeta. rewrite _send_request_run. simpl fst. simpl snd.
  split; [| split; [| split; [| split]]].
  - eexists. split; [reflexivity |]. split; [| reflexivity].
    unfold issued. destruct (String.eqb method "GET"); reflexivity.
  - intros v E. destruct (inbox s) as [|[|status data] rest]; simpl in E; try discriminate.
    destruct data as [| b | q | t | l | d]; try discriminate.
    destruct (status =? 200) eqn:Est; [| discriminate].
    apply Z.eqb_eq in Est. subst status. simpl in E.
    exists (Answer 200 (JDict d)), d. split; [reflexivity |]. simpl.
    destruct (differs_from_zero _); [discriminate |]. split; [reflexivity |].
    unfold item in E. destruct (assoc "result" d); inversion E. reflexivity.
  - intros answer d Hhead Ha. rewrite Hhead.
    destruct answer as [|status data]; [discriminate |].
    assert (status = 200 /\ data = JDict d) as [-> ->].
    { destruct status as [|p|p]; try discriminate.
      destruct data as [| b | q | t | l | d']; simpl in Ha;
        repeat (match type of Ha with context [match ?p with _ => _ end] => destruct p end;
                try discriminate).
      inversion Ha. auto. }
    unfold result_of. rewrite Ha. reflexivity.
  - intros [-> | ->]; reflexivity.
  - intros status d -> Ha. unfold result_of. rewrite Ha.
    destruct (status =? 200); reflexivity.
Qed.

(** An authenticated request carries the caller's parameters with the
    API key and the clock reading added (replacing what the caller had
    under those two names), and its signature is the one
    [_generate_signature] gives for exactly the parameters carried and
    the timestamp in the header.  A request that is not authenticated
    carries the caller's parameters and no signature. *)
Theorem authenticated_request_signs_what_it_carries (method endpoint : string)
    (params : list (string * scalar)) (s : state) :
  (exists r,
     calls (snd (_send_request method endpoint (Some params) true s)) = (calls s ++ [r])%list /\
     assoc "api_key" (carried r) = Some (SStr (api_key s)) /\
     assoc "timestamp" (carried r) = Some (SInt (clock s)) /\
     (forall key, key <> "api_key" -> key <> "timestamp" ->
        assoc key (carried r) = assoc key params) /\
     assoc "X-BAPI-API-KEY" (req_headers r) = Some (api_key s) /\
     assoc "X-BAPI-TIMESTAMP" (req_headers r) = Some (str_of_int (clock s)) /\
     assoc "X-BAPI-SIGN" (req_headers r)
     = Some (_generate_signature (secret_key s) (rendered (carried r)) (clock s))) /\
  (exists r,
     calls (snd (_send_request method endpoint (Some params) false s)) = (calls s ++ [r])%list /\
     carried r = params /\
     assoc "X-BAPI-SIGN" (req_headers r) = None).
Proof.
  rewrite !_send_request_run. simpl snd. split.
  - eexists. split; [reflexivity |].
    assert (Hc : carried (issued s method endpoint (Some params) true)
                 = dict_set "timestamp" (SInt (clock s))
                     (dict_set "api_key" (SStr (api_key s)) params)).
    { unfold issued, carried, authenticated.
      destruct (String.eqb method "GET"); destruct params; reflexivity. }
    rewrite Hc. rewrite !assoc_dict_set. simpl.
    split; [reflexivity |]. split; [reflexivity |]. split.
    { intros key H1 H2. rewrite !assoc_dict_set.
      apply String.eqb_neq in H1, H2.
      now rewrite (String.eqb_sym "timestamp"), H2, (String.eqb_sym "api_key"), H1. }
    unfold issued, authenticated.
    destruct (String.eqb method "GET"); destruct params; simpl; repeat split; reflexivity.
  - eexists. split; [reflexivity |]. unfold issued, carried.
    destruct (String.eqb method "GET"); simpl; split; reflexivity.
Qed.

(** Both [place_order] methods send a price exactly when the price is
    given, is not zero, and the order type is spelled "Limit"; the
    quantity always goes out as text.  [set_leverage] sends a position
    index whenever one is given, zero included. *)
Theorem order_parameters_sent (symbol side order_type trade_side : string) (qty : Q)
    (price : option Q) (leverage : Z) (position_idx : option Z) (s : state) :
  let price_sent := if priced price order_type
                    then option_map (fun p => SStr (str_of_float p)) price else None in
  (exists r,
     calls (snd (spot_place_order symbol side order_type qty price s)) = (calls s ++ [r])%list /\
     req_method r = "POST" /\
     assoc "price" (carried r) = price_sent /\
     assoc "qty" (carried r) = Some (SStr (str_of_float qty)) /\
     assoc "orderType" (carried r) = Some (SStr order_type)) /\
  (exists r,
     calls (snd (futures_place_order symbol side order_type qty trade_side price s))
     = (calls s ++ [r])%list /\
     req_method r = "POST" /\
     assoc "price" (carried r) = price_sent /\
     assoc "qty" (carried r) = Some (SStr (str_of_float qty)) /\
     assoc "category" (carried r) = Some (SStr "linear")) /\
  (exists r,
     calls (snd (set_leverage symbol leverage position_idx s)) = (calls s ++ [r])%list /\
     assoc "positionIdx" (carried r) = option_map SInt position_idx /\
     assoc "leverage" (carried r) = Some (SInt leverage)).
Proof.
  cbv zeta. unfold spot_place_order, futures_place_order, set_leverage.
  rewrite !_send_request_run. simpl snd.
  split; [| split]; eexists; (split; [reflexivity |]).
  - unfold issued, carried, authenticated. simpl.
    destruct price as [p|]; simpl; [| repeat split; reflexivity].
    destruct (negb (Qeq_bool p 0) && String.eqb order_type "Limit"); simpl;
      repeat split; reflexivity.
  - unfold issued, carried, authenticated. simpl.
    destruct price as [p|]; simpl; [| repeat split; reflexivity].
    destruct (negb (Qeq_bool p 0) && String.eqb order_type "Limit"); simpl;
      repeat split; reflexivity.
  - unfold issued, carried, authenticated. simpl.
    destruct position_idx as [i|]; simpl; repeat split; reflexivity.
Qed.

(** The signature does not depend on the order in which the parameters
    were put into the dictionary: they are signed in the order of their
    keys. *)
Theorem signature_ignores_parameter_order (secret : string)
    (params params' : list (string * string)) (timestamp : Z) :
  Permutation params params' -> NoDup (map fst params) ->
  signature_payload params timestamp = signature_payload params' timestamp /\
  _generate_signature secret params timestamp = _generate_signature secret params' timestamp /\
  ordered (sorted_items params) /\ Permutation (sorted_items params) params.
Proof.
  intros Hp Hn.
  assert (E : sorted_items params = sorted_items params').
  { apply sorted_items_permutation; [exact Hp | now apply distinct_keys]. }
  unfold _generate_signature, signature_payload. cbv zeta. rewrite E.
  split; [reflexivity |]. split; [reflexivity |].
  rewrite <- E. split; [apply sorted_items_ordered | apply sorted_items_perm].
Qed.

End RequestFacts.

(** ** The REST gateway *)

Section GatewayFacts.

Context `{PyRuntime}.

Import Bitget.

#[local] Arguments assoc : simpl never.

(** One call of [_request]: it never raises; it hands back the body of
    the exchange's answer, or [None] when there is no answer; it issues
    exactly one request, with the method and the JSON body it was given;
    and a missing answer leaves an error record in the log. *)
Lemma _request_effect (method endpoint : string) (params : list (string * string))
    (data : option (list (string * json))) (s : state) :
  exists (r : request) (s' : state),
    _request method endpoint params data s = (Ret (reply_result (head (inbox s))), s') /\
    calls s' = (calls s ++ [r])%list /\
    req_method r = method /\
    req_json r = option_map JDict data /\
    inbox s' = tail (inbox s) /\
    (reply_result (head (inbox s)) = None ->
     log s' = (log s ++ [(ERROR, "Request error")])%list) /\
    (forall took status body, head (inbox s) = Some (Answer took status body) ->
     clock s' = clock s + took /\ Forall (fun e => e <> (ERROR, "Request error")) (skipn (length (log s)) (log s'))).
Proof.
  unfold _request, try_except, bind, modify, _create_headers, time_ms, get_state, ret,
    session_request, write_log.
  destruct s as [k sk pp se cl ib cs lg]. simpl.
  destruct ib as [|[took|took status body] rest]; simpl.
  - eexists _, _. split; [reflexivity |]. simpl.
    repeat split; intros; try discriminate; reflexivity.
  - eexists _, _. split; [reflexivity |]. simpl.
    repeat split; intros; try discriminate; reflexivity.
  - destruct (status =? 200) eqn:Est; simpl.
    + eexists _, _. split; [reflexivity |]. simpl.
      repeat split; intros; try discriminate; try reflexivity.
      * match goal with E : Some _ = Some _ |- _ => now inversion E end.
      * rewrite skipn_app, skipn_all, Nat.sub_diag. simpl.
        constructor; [discriminate | constructor].
    + eexists _, _. split; [reflexivity |]. simpl.
      repeat split; intros; try discriminate; try reflexivity.
      * match goal with E : Some _ = Some _ |- _ => now inversion E end.
      * rewrite <- List.app_assoc, skipn_app, skipn_all, Nat.sub_diag. simpl.
        constructor; [discriminate |]. constructor; [discriminate | constructor].
Qed.



Lemma normalize_price_run (price : json) (s : state) :
  normalize_price price s =
  match price_reading price with
  | Some e => (Raise e, s)
  | None =>
      (Ret (if truthy price then
              match py_float price with
              | Ret x => JStr (str_of_float (round_to_tenth x))
              | Raise _ => price
              end
            else price), s)
  end.
Proof.
  unfold normalize_price, price_reading, bind, lift, ret.
  destruct (truthy price); [| reflexivity].
  destruct (py_float price); reflexivity.
Qed.

Lemma get_position_run (symbol : string) (s : state) :
  match head (inbox s) with
  | Some (Answer took status body) =>
      exists s', get_position symbol s = position_of_response symbol (Some body) s' /\
                 clock s' = clock s + took
  | _ =>
      fst (get_position symbol s) = Ret None /\
      log (snd (get_position symbol s)) = (log s ++ [(ERROR, "Request error")])%list
  end.
Proof.
  unfold get_position, bind. cbv zeta.
  match goal with |- context [_request ?m ?e ?p ?d s] =>
    destruct (_request_effect m e p d s) as (r & s' & E & _ & _ & _ & _ & Hlog & Hans)
  end.
  rewrite E.
  destruct (inbox s) as [|[took|took status body] rest]; simpl in *.
  - split; [reflexivity | now apply Hlog].
  - split; [reflexivity | now apply Hlog].
  - exists s'. split; [reflexivity |]. now destruct (Hans took status body eq_refl).
Qed.

Lemma float_field_run (position_data : json) (key : string) (s : state) :
  float_field position_data key s = (float_reading position_data key, s).
Proof.
  unfold float_field, float_reading, bind, lift.
  destruct (dict_get position_data key (JStr "0")); reflexivity.
Qed.

(** Where a response has no position entry, [get_position] stops with
    [None] or, for a truthy body that is no dictionary, with the
    [AttributeError] of calling [.get] on it. *)
Lemma position_of_response_no_entry (symbol : string) (body : json) (s : state) :
  position_entry body = None ->
  fst (position_of_response symbol (Some body) s) = Ret None \/
  (fst (position_of_response symbol (Some body) s) = Raise AttributeError /\
   truthy body = true /\ forall d, body <> JDict d).
Proof.
  destruct body as [| b | q | t | l | d].
  1-5: unfold position_entry, position_of_response, bind, lift, ret; simpl.
  - now left.
  - destruct b; simpl; [right | now left]. repeat split; discriminate.
  - destruct (Qeq_bool q 0); simpl; [now left | right]. repeat split; discriminate.
  - destruct (String.eqb t ""); simpl; [now left | right]. repeat split; discriminate.
  - destruct l; simpl; [now left | right]. repeat split; discriminate.
  - unfold position_entry, position_of_response, bind, lift, ret. simpl.
    intros E. left.
    destruct d as [|kv d]; [reflexivity |]. simpl negb. cbv iota.
    destruct (eq_str _ "00000"); [| reflexivity]. simpl in *.
    destruct (truthy _) eqn:Et; [| reflexivity].
    destruct (match assoc "data" (kv :: d) with Some x => x | None => JNull end)
      as [| | | | [|? ?] |]; discriminate.
Qed.

(** With a position entry, everything turns on the size it reports. *)
Lemma position_of_response_entry (symbol : string) (body pd : json) (s : state) :
  position_entry body = Some pd ->
  position_of_response symbol (Some body) s =
  (let* total := float_field pd "total" in
   if negb (Qle_bool total 0) then
     let* hold_side := lift (dict_get pd "holdSide" JNull) in
     let* size := float_field pd "total" in
     let* entry_price := float_field pd "openPriceAvg" in
     let* now := time_ms in
     let* leverage_v := lift (dict_get pd "leverage" (JStr "1")) in
     let* leverage := lift (py_int leverage_v) in
     let* break_even_price := float_field pd "breakEvenPrice" in
     let* unrealized_pl := float_field pd "unrealizedPL" in
     let* margin_size := float_field pd "marginSize" in
     let* available := float_field pd "available" in
     let* locked := float_field pd "locked" in
     let* liquidation_price := float_field pd "liquidationPrice" in
     let* margin_ratio := float_field pd "marginRatio" in
     let* mark_price := float_field pd "markPrice" in
     let* achieved_profits := float_field pd "achievedProfits" in
     let* total_fee := float_field pd "totalFee" in
     let* margin_mode := lift (dict_get pd "marginMode" (JStr "crossed")) in
     ret (Some {| symbol := symbol;
                  side := if eq_str hold_side "long" then "long" else "short";
                  size := size;
                  entry_price := entry_price;
                  stop_loss_price := 0;
                  take_profit_price := 0;
                  timestamp := now;
                  leverage := leverage;
                  break_even_price := break_even_price;
                  unrealized_pl := unrealized_pl;
                  margin_size := margin_size;
                  available := available;
                  locked := locked;
                  liquidation_price := liquidation_price;
                  margin_ratio := margin_ratio;
                  mark_price := mark_price;
                  achieved_profits := achieved_profits;
                  total_fee := total_fee;
                  margin_mode := margin_mode |})
   else ret None) s.
Proof.
  unfold position_entry, position_of_response. destruct body as [| | | | | d]; try discriminate.
  unfold bind at 1 2 3, lift at 1 2, ret. simpl.
  destruct d as [|kv d]; [discriminate |]. simpl negb. cbv iota.
  destruct (eq_str _ "00000"); [| discriminate]. simpl.
  destruct (truthy _) eqn:Et; [| discriminate]. simpl.
  destruct (match assoc "data" (kv :: d) with Some x => x | None => JNull end)
    as [| | | | [|first more] |]; intros E; try discriminate;
    inversion E; subst; reflexivity.
Qed.

Lemma get_position_answered (symbol : string) (s : state)
    (took status : Z) (body : json) (rest : list reply) :
  inbox s = Answer took status body :: rest ->
  exists s', get_position symbol s = position_of_response symbol (Some body) s' /\
             clock s' = clock s + took.
Proof.
  intros Hin. pose proof (get_position_run symbol s) as Hg.
  now rewrite Hin in Hg.
Qed.


(** What [get_position] returns once the size is read. *)
Lemma get_position_sized (symbol : string) (s : state)
    (took status : Z) (body pd : json) (rest : list reply) (q : Q) :
  inbox s = Answer took status body :: rest ->
  position_entry body = Some pd ->
  float_reading pd "total" = Ret q ->
  (Qle_bool q 0 = true /\ fst (get_position symbol s) = Ret None) \/
  (Qle_bool q 0 = false /\ exists s',
     get_position symbol s =
     (let* hold_side := lift (dict_get pd "holdSide" JNull) in
      let* size := float_field pd "total" in
      let* entry_price := float_field pd "openPriceAvg" in
      let* now := time_ms in
      let* leverage_v := lift (dict_get pd "leverage" (JStr "1")) in
      let* leverage := lift (py_int leverage_v) in
      let* break_even_price := float_field pd "breakEvenPrice" in
      let* unrealized_pl := float_field pd "unrealizedPL" in
      let* margin_size := float_field pd "marginSize" in
      let* available := float_field pd "available" in
      let* locked := float_field pd "locked" in
      let* liquidation_price := float_field pd "liquidationPrice" in
      let* margin_ratio := float_field pd "marginRatio" in
      let* mark_price := float_field pd "markPrice" in
      let* achieved_profits := float_field pd "achievedProfits" in
      let* total_fee := float_field pd "totalFee" in
      let* margin_mode := lift (dict_get pd "marginMode" (JStr "crossed")) in
      ret (Some {| symbol := symbol;
                   side := if eq_str hold_side "long" then "long" else "short";
                   size := size;
                   entry_price := entry_price;
                   stop_loss_price := 0;
                   take_profit_price := 0;
                   timestamp := now;
                   leverage := leverage;
                   break_even_price := break_even_price;
                   unrealized_pl := unrealized_pl;
                   margin_size := margin_size;
                   available := available;
                   locked := locked;
                   liquidation_price := liquidation_price;
                   margin_ratio := margin_ratio;
                   mark_price := mark_price;
                   achieved_profits := achieved_profits;
                   total_fee := total_fee;
                   margin_mode := margin_mode |})) s').
Proof.
  intros Hin Hentry Hq.
  destruct (get_position_answered symbol s took status body rest Hin) as (s' & E & _).
  pose proof (position_of_response_entry symbol body pd s' Hentry) as E2.
  unfold bind at 1 in E2. rewrite float_field_run, Hq in E2.
  destruct (Qle_bool q 0) eqn:Eq0; simpl negb in E2; cbv iota in E2.
  - left. split; [reflexivity |]. rewrite E, E2. reflexivity.
  - right. split; [reflexivity |]. exists s'. rewrite E. exact E2.
Qed.

Lemma get_position_nonpositive (symbol : string) (s : state)
    (took status : Z) (body pd : json) (rest : list reply) (q : Q) :
  inbox s = Answer took status body :: rest ->
  position_entry body = Some pd ->
  float_reading pd "total" = Ret q ->
  (q <= 0)%Q ->
  fst (get_position symbol s) = Ret None.
Proof.
  intros Hin Hentry Hq Hle.
  destruct (get_position_sized symbol s took status body pd rest q Hin Hentry Hq)
    as [[_ E] | [Eq0 _]]; [exact E |].
  apply Qle_bool_iff in Hle. congruence.
Qed.









Lemma eq_str_true (v : json) (t : string) : eq_str v t = true -> v = JStr t.
Proof.
  destruct v; simpl; try discriminate. intros E. apply String.eqb_eq in E. now subst.
Qed.

Lemma get_position_no_entry (symbol : string) (s : state)
    (took status : Z) (d : list (string * json)) (rest : list reply) :
  inbox s = Answer took status (JDict d) :: rest ->
  position_entry (JDict d) = None ->
  fst (get_position symbol s) = Ret None.
Proof.
  intros Hin Hentry.
  destruct (get_position_answered symbol s took status _ rest Hin) as (s' & -> & _).
  destruct (position_of_response_no_entry symbol (JDict d) s' Hentry)
    as [E | (_ & _ & Hd)]; [exact E | now destruct (Hd d)].
Qed.

(** C10.  [get_position] returns [None] when the exchange gives no
    answer, when the answer's code is not ["00000"], when the answer
    carries no data, and when the position it reports has size zero.
    The return value is the same [None] in all four cases: a caller who
    sees only the return value cannot tell a flat position from a query
    that failed. *)
Theorem get_position_null_is_ambiguous (symbol : string) :
  (forall s, reply_result (head (inbox s)) = None ->
             fst (get_position symbol s) = Ret None) /\
  (forall s took status d rest,
     inbox s = Answer took status (JDict d) :: rest ->
     assoc "code" d <> Some (JStr "00000") ->
     fst (get_position symbol s) = Ret None) /\
  (forall s took status d rest,
     inbox s = Answer took status (JDict d) :: rest ->
     truthy (match assoc "data" d with Some x => x | None => JNull end) = false ->
     fst (get_position symbol s) = Ret None) /\
  (forall s took status body rest pd q,
     inbox s = Answer took status body :: rest ->
     position_entry body = Some pd ->
     float_reading pd "total" = Ret q -> (q == 0)%Q ->
     fst (get_position symbol s) = Ret None) /\
  (forall s_flat s_failed took status body rest pd q,
     inbox s_flat = Answer took status body :: rest ->
     position_entry body = Some pd ->
     float_reading pd "total" = Ret q -> (q == 0)%Q ->
     reply_result (head (inbox s_failed)) = None ->
     fst (get_position symbol s_flat) = fst (get_position symbol s_failed)).
Proof.
  assert (Hfail : forall s, reply_result (head (inbox s)) = None ->
                            fst (get_position symbol s) = Ret None).
  { intros s Hno. pose proof (get_position_run symbol s) as Hg.
    destruct (inbox s) as [|[took|took status body] rest]; simpl in *;
      [apply Hg | apply Hg | discriminate]. }
  assert (Hflat : forall s took status body rest pd q,
     inbox s = Answer took status body :: rest ->
     position_entry body = Some pd ->
     float_reading pd "total" = Ret q -> (q == 0)%Q ->
     fst (get_position symbol s) = Ret None).
  { intros s took status body rest pd q Hin Hentry Hq Hz.
    apply (get_position_nonpositive symbol s took status body pd rest q Hin Hentry Hq).
    rewrite Hz. apply Qle_refl. }
  split; [exact Hfail |]. split; [| split; [| split; [exact Hflat |]]].
  - intros s took status d rest Hin Hcode.
    apply (get_position_no_entry symbol s took status d rest Hin).
    unfold position_entry.
    destruct (eq_str _ "00000") eqn:Ec; [| now rewrite andb_false_r].
    apply eq_str_true in Ec. exfalso. apply Hcode.
    destruct (assoc "code" d); [now subst | discriminate].
  - intros s took status d rest Hin Hdata.
    apply (get_position_no_entry symbol s took status d rest Hin).
    unfold position_entry. rewrite Hdata. now rewrite andb_false_r.
  - intros s_flat s_failed took status body rest pd q Hin Hentry Hq Hz Hno.
    rewrite (Hflat s_flat took status body rest pd q Hin Hentry Hq Hz).
    now rewrite (Hfail s_failed Hno).
Qed.

(** *** Rounding to a tenth *)

Lemma py_round_near (x : Q) :
  (inject_Z (py_round x) - x <= 1 # 2)%Q /\ (x - inject_Z (py_round x) <= 1 # 2)%Q.
Proof.
  unfold py_round.
  pose proof (Qfloor_le x) as Hlo. pose proof (Qlt_floor x) as Hhi.
  rewrite inject_Z_plus in Hhi. change (inject_Z 1) with 1%Q in Hhi.
  set (f := inject_Z (Qfloor x)) in *.
  destruct (Qcompare (x - f) (1 # 2)) eqn:Ec.
  - apply Qeq_alt in Ec.
    destruct (Z.even (Qfloor x));
      [| rewrite inject_Z_plus; change (inject_Z 1) with 1%Q]; fold f; split; lra.
  - apply Qlt_alt in Ec. fold f. split; lra.
  - apply Qgt_alt in Ec. rewrite inject_Z_plus. change (inject_Z 1) with 1%Q.
    fold f. split; lra.
Qed.

Lemma round_to_tenth_near (x : Q) :
  (round_to_tenth x - x <= 1 # 20)%Q /\ (x - round_to_tenth x <= 1 # 20)%Q /\
  (round_to_tenth x * 10 == inject_Z (py_round (x * 10)))%Q.
Proof.
  unfold round_to_tenth.
  destruct (py_round_near (x * 10)) as [H1 H2].
  set (k := inject_Z (py_round (x * 10))) in *.
  assert (k / 10 * 10 == k)%Q as E by (field; discriminate).
  assert (k / 10 == k * (1 # 10))%Q as E' by (field; discriminate).
  split; [| split]; [rewrite E'; lra | rewrite E'; lra | exact E].
Qed.

(** *** Placing an order *)

(** A price as [place_order] hands it on: untouched when it is falsy,
    else the text of its reading rounded to a tenth. *)
Lemma truthy_printed (x : Q) : truthy (JStr (str_of_float x)) = true.
Proof.
  simpl. destruct (String.eqb_spec (str_of_float x) ""); [| reflexivity].
  now destruct (str_of_float_nonempty x).
Qed.

Lemma place_order_body_fields (symbol side trade_side size margin_coin order_type : string)
    (price trigger_price : json) :
  let body := place_order_body symbol side trade_side size margin_coin order_type
                price trigger_price in
  assoc "orderType" body = Some (JStr (mapped_order_type order_type)) /\
  assoc "price" body =
    (if String.eqb order_type "limit" && truthy price then Some price else None) /\
  assoc "triggerPrice" body =
    (if String.eqb order_type "stop" && truthy trigger_price then Some trigger_price
     else None).
Proof.
  unfold place_order_body.
  destruct (String.eqb_spec order_type "limit") as [-> | Hl].
  - destruct (truthy price); simpl; repeat split; reflexivity.
  - destruct (String.eqb_spec order_type "stop") as [-> | Hs].
    + destruct (truthy trigger_price); simpl; repeat split; try reflexivity.
      all: destruct (truthy price); reflexivity.
    + simpl. repeat split; reflexivity.
Qed.

(** C8.  [place_order] maps the order type through the fixed table
    (market, limit, and stop to profit_stop), any other type going to
    limit, and that is the [orderType] of the one request it submits.
    A price in the submitted body is the supplied price read as a
    number and rounded to the nearest tenth, and so is a trigger price;
    the body carries a price only for a limit order and a trigger price
    only for a stop order.  A supplied price that cannot be read as a
    number stops the call before anything is submitted. *)
Theorem place_order_normalises_and_maps
    (symbol side trade_side size margin_coin order_type : string)
    (price trigger_price : json) (s : state) :
  (mapped_order_type "market" = "market" /\
   mapped_order_type "limit" = "limit" /\
   mapped_order_type "stop" = "profit_stop" /\
   (order_type <> "market" -> order_type <> "limit" -> order_type <> "stop" ->
    mapped_order_type order_type = "limit")) /\
  (forall x : Q,
     (round_to_tenth x - x <= 1 # 20)%Q /\ (x - round_to_tenth x <= 1 # 20)%Q /\
     (round_to_tenth x * 10 == inject_Z (py_round (x * 10)))%Q) /\
  match rejected (PlaceOrder symbol side trade_side size margin_coin order_type
                    price trigger_price) with
  | Some e =>
      place_order symbol side trade_side size margin_coin order_type price trigger_price s
      = (Raise e, s)
  | None =>
      exists (r : request) (s' : state) (body : list (string * json)),
        place_order symbol side trade_side size margin_coin order_type price trigger_price s
        = (Ret (reply_result (head (inbox s))), s') /\
        calls s' = (calls s ++ [r])%list /\
        req_method r = "POST" /\
        req_json r = Some (JDict body) /\
        assoc "orderType" body = Some (JStr (mapped_order_type order_type)) /\
        assoc "price" body =
          (if String.eqb order_type "limit" && truthy price then
             match py_float price with
             | Ret x => Some (JStr (str_of_float (round_to_tenth x)))
             | Raise _ => None
             end
           else None) /\
        assoc "triggerPrice" body =
          (if String.eqb order_type "stop" && truthy trigger_price then
             match py_float trigger_price with
             | Ret y => Some (JStr (str_of_float (round_to_tenth y)))
             | Raise _ => None
             end
           else None)
  end.
Proof.
  split.
  { repeat split; try reflexivity. intros Hm Hl Hs. unfold mapped_order_type.
    unfold assoc, order_type_mapping.
    destruct (String.eqb_spec "market" order_type); [congruence |].
    destruct (String.eqb_spec "limit" order_type); [congruence |].
    destruct (String.eqb_spec "stop" order_type); [congruence | reflexivity]. }
  split; [exact round_to_tenth_near |].
  simpl rejected. unfold place_order, bind. rewrite normalize_price_run.
  destruct (price_reading price) as [e|] eqn:E1; [reflexivity |].
  rewrite normalize_price_run.
  destruct (price_reading trigger_price) as [e|] eqn:E2; [reflexivity |].
  set (price' := if truthy price then _ else price).
  set (trigger' := if truthy trigger_price then _ else trigger_price).
  destruct (_request_effect "POST" "/api/v2/mix/order/place-order" []
              (Some (place_order_body symbol side trade_side size margin_coin order_type
                       price' trigger')) s)
    as (r & s' & E & Hcalls & Hm & Hj & _).
  exists r, s', (place_order_body symbol side trade_side size margin_coin order_type
                   price' trigger').
  split; [exact E |]. split; [exact Hcalls |]. split; [exact Hm |]. split; [exact Hj |].
  destruct (place_order_body_fields symbol side trade_side size margin_coin order_type
              price' trigger') as (Ht & Hp & Hg).
  split; [exact Ht |].
  assert (Hpr : truthy price' = truthy price /\
                (truthy price = true ->
                 Some price' = match py_float price with
                               | Ret x => Some (JStr (str_of_float (round_to_tenth x)))
                               | Raise _ => None
                               end)).
  { subst price'. unfold price_reading in E1. destruct (truthy price) eqn:Et.
    - destruct (py_float price); [| discriminate].
      split; [apply truthy_printed | reflexivity].
    - split; [assumption | discriminate]. }
  assert (Htr : truthy trigger' = truthy trigger_price /\
                (truthy trigger_price = true ->
                 Some trigger' = match py_float trigger_price with
                                 | Ret x => Some (JStr (str_of_float (round_to_tenth x)))
                                 | Raise _ => None
                                 end)).
  { subst trigger'. unfold price_reading in E2. destruct (truthy trigger_price) eqn:Et.
    - destruct (py_float trigger_price); [| discriminate].
      split; [apply truthy_printed | reflexivity].
    - split; [assumption | discriminate]. }
  destruct Hpr as [Hpt Hpv]. destruct Htr as [Htt Htv].
  rewrite Hp, Hg, Hpt, Htt. split.
  - destruct (String.eqb order_type "limit"); [| reflexivity].
    destruct (truthy price); [| reflexivity]. now apply Hpv.
  - destruct (String.eqb order_type "stop"); [| reflexivity].
    destruct (truthy trigger_price); [| reflexivity]. now apply Htv.
Qed.

(** *** The stale-order sweep *)

Lemma answers_step (k : nat) (replies : list reply) :
  answers (S k) replies = reply_result (head replies) :: answers k (tail replies).
Proof. destruct replies; reflexivity. Qed.

Lemma sweep_orders_run (symbol : string) (now : Z) (orders : list json) :
  Forall readable_order orders ->
  forall (s : state) (results : list (option json)),
    Forall inspectable (inbox s) ->
    let k := length (List.filter (stale now) orders) in
    exists (s' : state) (new : list request),
      sweep_orders symbol now orders results s
      = (Ret (results ++ answers k (inbox s))%list, s') /\
      calls s' = (calls s ++ new)%list /\
      map req_json new
      = map (fun o => Some (JDict (cancel_body symbol o))) (List.filter (stale now) orders) /\
      Forall (fun r => req_method r = "POST") new /\
      inbox s' = skipn k (inbox s).
Proof.
  induction 1 as [|order rest [[od ->] [t Ht]] Hrest IH]; intros s results Hins; cbv zeta.
  - exists s, []. simpl. rewrite !app_nil_r. repeat split; constructor.
  - assert (Hstale : stale now (JDict od)
                     = truthy (order_id (JDict od)) && (time_threshold_ms <=? now - t)).
    { unfold stale, aged. now rewrite Ht. }
    unfold order_time in Ht. simpl dict_get in Ht.
    cbn [sweep_orders]. unfold bind at 1. unfold lift at 1. simpl dict_get. cbv iota beta.
    unfold bind at 1. unfold lift at 1. simpl dict_get. cbv iota beta.
    unfold bind at 1. unfold lift at 1. rewrite Ht. cbv iota beta.
    change (match assoc "orderId" od with Some x => x | None => JNull end)
      with (order_id (JDict od)).
    rewrite <- Hstale. cbn [List.filter]. destruct (stale now (JDict od)) eqn:Es.
    + unfold bind at 1. unfold cancel_order.
      destruct (_request_effect "POST" "/api/v2/mix/order/cancel-order" []
                  (Some [("symbol", JStr symbol); ("orderId", order_id (JDict od))]) s)
        as (r & s1 & E & Hcalls & Hm & Hj & Hinbox & _).
      rewrite E. cbv iota beta.
      assert (Hok : exists ok : bool,
                 (match reply_result (head (inbox s)) with
                  | Some r0 =>
                      if truthy r0 then
                        let* code := lift (dict_get r0 "code" JNull) in
                        ret (eq_str code "00000")
                      else ret false
                  | None => ret false
                  end) s1 = (Ret ok, s1)).
      { destruct (inbox s) as [|[took|took status body] more]; simpl;
          try (exists false; reflexivity).
        destruct (truthy body) eqn:Eb; [| exists false; reflexivity].
        apply Forall_cons_iff in Hins as [Hhead _]. destruct (Hhead Eb) as [d ->].
        unfold bind, lift, ret. simpl. eauto. }
      destruct Hok as [ok Hok]. unfold bind at 1. rewrite Hok. cbv iota beta.
      set (s2 := snd ((if ok then write_log INFO "pending order cancelled"
                       else write_log ERROR "pending order not cancelled") s1)).
      assert (Hs2 : (if ok then write_log INFO "pending order cancelled"
                     else write_log ERROR "pending order not cancelled") s1 = (Ret tt, s2)
                    /\ calls s2 = calls s1 /\ inbox s2 = inbox s1).
      { subst s2. destruct ok; repeat split; reflexivity. }
      destruct Hs2 as (Hlog & Hc2 & Hi2).
      unfold bind at 1. rewrite Hlog. cbv iota beta.
      assert (Hins2 : Forall inspectable (inbox s2)).
      { rewrite Hi2, Hinbox. destruct (inbox s); [constructor |].
        now apply Forall_cons_iff in Hins as [_ ?]. }
      destruct (IH s2 (results ++ [reply_result (head (inbox s))])%list Hins2)
        as (s' & new & Erun & Hcalls' & Hmap & Hpost & Hinbox').
      exists s', (r :: new). cbn [length]. rewrite answers_step.
      split; [rewrite Erun, <- List.app_assoc, Hi2, Hinbox; reflexivity |].
      split; [rewrite Hcalls', Hc2, Hcalls, <- List.app_assoc; reflexivity |].
      split; [cbn [map]; rewrite Hmap, Hj; reflexivity |].
      split; [constructor; assumption |].
      rewrite Hinbox', Hi2, Hinbox. destruct (inbox s); [now rewrite skipn_nil | reflexivity].
    + unfold bind at 1.
      set (s2 := snd (write_log DEBUG "order kept" s)).
      change (write_log DEBUG "order kept" s) with (Ret tt, s2). cbv iota beta.
      assert (Hins2 : Forall inspectable (inbox s2)) by exact Hins.
      destruct (IH s2 results Hins2) as (s' & new & Erun & Hcalls' & Hmap & Hpost & Hinbox').
      exists s', new. repeat split; assumption.
Qed.

(** C3 (amended).  The sweep reads the clock, fetches the pending
    orders, and then, when every order is a dictionary whose creation
    time [int] accepts and every answer to a cancellation is a
    dictionary, falsy or missing, it cancels, in the order of the list,
    exactly those orders that carry a truthy order id and whose age,
    the clock reading less the creation time, is at least 30 seconds;
    every other order is left alone.  It returns what each cancellation
    handed back, a failed one being [None].  When the list of pending
    orders is empty, absent or null, it returns the empty list and the
    fetch is its only request. *)
Theorem stale_sweep_cancels_identified_aged_orders (symbol : string) (s : state)
    (took status : Z) (d dd : list (string * json)) (orders : list json)
    (replies : list reply) :
  inbox s = Answer took status (JDict d) :: replies ->
  assoc "code" d = Some (JStr "00000") ->
  assoc "data" d = Some (JDict dd) ->
  let entrusted := match assoc "entrustedList" dd with Some x => x | None => JList [] end in
  let now := clock s in
  let cancelled := List.filter (stale now) orders in
  (truthy entrusted = false ->
   exists (s' : state) (fetch : request),
     cancel_all_pending_orders symbol s = (Ret [], s') /\
     calls s' = (calls s ++ [fetch])%list /\ req_method fetch = "GET") /\
  (entrusted = JList orders -> Forall readable_order orders -> Forall inspectable replies ->
   exists (s' : state) (fetch : request) (cancels : list request),
     cancel_all_pending_orders symbol s = (Ret (answers (length cancelled) replies), s') /\
     calls s' = (calls s ++ fetch :: cancels)%list /\
     req_method fetch = "GET" /\
     Forall (fun r => req_method r = "POST") cancels /\
     map req_json cancels = map (fun o => Some (JDict (cancel_body symbol o))) cancelled /\
     (forall o, In o cancelled <->
                In o orders /\ truthy (order_id o) = true /\ aged now o = true) /\
     (orders = [] -> cancels = [])).
Proof.
  intros Hin Hcode Hdata entrusted now cancelled.
  assert (Hd : truthy (JDict d) = true) by (destruct d; [discriminate | reflexivity]).
  assert (Hstart : exists (s1 : state) (fetch : request),
            cancel_all_pending_orders symbol s =
            (if negb (truthy entrusted) then ret []
             else let* orders := lift (py_iter entrusted) in
                  sweep_orders symbol now orders []) s1 /\
            calls s1 = (calls s ++ [fetch])%list /\ req_method fetch = "GET" /\
            inbox s1 = replies).
  { unfold cancel_all_pending_orders. cbv zeta.
    unfold bind at 1. unfold time_ms at 1. cbv iota beta.
    unfold bind at 1. unfold get_pending_orders. cbv zeta. simpl given. cbv iota.
    match goal with |- context [_request ?m ?e ?p ?x s] =>
      destruct (_request_effect m e p x s) as (fetch & s1 & E & Hcalls & Hm & _ & Hinbox & _)
    end.
    rewrite E, Hin.
    change (reply_result (head (Answer took status (JDict d) :: replies)))
      with (Some (JDict d)).
    cbv iota beta. rewrite Hd. cbn [negb]. cbv iota beta.
    unfold bind at 1. unfold lift at 1. cbn [dict_get]. rewrite Hcode. cbv iota beta.
    cbn [eq_str negb]. rewrite String.eqb_refl. cbn [negb]. cbv iota beta.
    unfold bind at 1. unfold lift at 1. cbn [dict_get]. rewrite Hdata. cbv iota beta.
    unfold bind at 1. unfold lift at 1. cbn [dict_get]. fold entrusted. cbv iota beta.
    exists s1, fetch. repeat split; try assumption. now rewrite Hinbox, Hin. }
  destruct Hstart as (s1 & fetch & Estart & Hcalls & Hm & Hinbox).
  split.
  - intros Hfalsy. exists s1, fetch. rewrite Estart, Hfalsy. repeat split; assumption.
  - intros Hlist Hread Hins. rewrite Estart, Hlist.
    assert (Hfilter : forall o, In o cancelled <->
              In o orders /\ truthy (order_id o) = true /\ aged now o = true).
    { intros o. subst cancelled. rewrite filter_In. unfold stale.
      rewrite andb_true_iff. tauto. }
    destruct orders as [|o os].
    + exists s1, fetch, [].
      split; [reflexivity |]. split; [assumption |]. split; [assumption |].
      split; [constructor |]. split; [reflexivity |].
      split; [exact Hfilter | reflexivity].
    + cbn [negb truthy]. cbv beta match. unfold bind at 1. unfold lift at 1. cbn [py_iter].
      cbv beta match.
      assert (Hins1 : Forall inspectable (inbox s1)) by now rewrite Hinbox.
      destruct (sweep_orders_run symbol now (o :: os) Hread s1 [] Hins1)
        as (s' & new & Erun & Hcalls' & Hmap & Hpost & _).
      exists s', fetch, new. rewrite Erun, Hinbox.
      split; [reflexivity |].
      split; [rewrite Hcalls', Hcalls, <- List.app_assoc; reflexivity |].
      split; [assumption |]. split; [assumption |]. split; [assumption |].
      split; [exact Hfilter | discriminate].
Qed.

End GatewayFacts.

(** ** More of the REST gateway *)

Section MoreGatewayFacts.

Context `{PyRuntime}.

Import Bitget.

#[local] Arguments assoc : simpl never.

(** *** Case of letters *)

Lemma lower_has_no_upper (s : string) :
  forallb (fun c => negb (is_upper c)) (list_ascii_of_string (lower s)) = true.
Proof.
  unfold lower. rewrite list_ascii_of_string_of_list_ascii.
  induction (list_ascii_of_string s) as [|c l IH]; [reflexivity |].
  cbn [map forallb]. rewrite IH, andb_true_r. unfold is_upper.
  destruct ((65 <=? nat_of_ascii c)%nat && (nat_of_ascii c <=? 90)%nat) eqn:E.
  - rewrite nat_ascii_embedding.
    + apply andb_true_iff in E as [E1 E2].
      apply Nat.leb_le in E1, E2.
      apply negb_true_iff, andb_false_iff. right. apply Nat.leb_gt. lia.
    + apply andb_true_iff in E as [E1 E2]. apply Nat.leb_le in E2. lia.
  - now rewrite E.
Qed.

Lemma upper_has_no_lower (s : string) :
  forallb (fun c => negb (is_lower c)) (list_ascii_of_string (upper s)) = true.
Proof.
  unfold upper. rewrite list_ascii_of_string_of_list_ascii.
  induction (list_ascii_of_string s) as [|c l IH]; [reflexivity |].
  cbn [map forallb]. rewrite IH, andb_true_r. unfold is_lower.
  destruct ((97 <=? nat_of_ascii c)%nat && (nat_of_ascii c <=? 122)%nat) eqn:E.
  - rewrite nat_ascii_embedding.
    + apply andb_true_iff in E as [E1 E2].
      apply Nat.leb_le in E1, E2.
      apply negb_true_iff, andb_false_iff. left. apply Nat.leb_gt. lia.
    + apply andb_true_iff in E as [E1 E2]. apply Nat.leb_le in E2. lia.
  - now rewrite E.
Qed.

(** The account and market operations behave like the order
    operations: each issues one request and hands back the decoded
    answer, or [None] with an error in the log when there is none; none
    of them raises.  [set_leverage] submits the symbol in lower case,
    the margin coin in upper case and the leverage as decimal text. *)
Theorem account_operations_return_answer_or_null (op : account_operation) (s : state) :
  exists (r : request) (s' : state),
    perform_account op s = (Ret (reply_result (head (inbox s))), s') /\
    calls s' = (calls s ++ [r])%list /\
    req_method r = account_method op /\
    (reply_result (head (inbox s)) = None ->
     log s' = (log s ++ [(ERROR, "Request error")])%list) /\
    (forall symbol leverage product_type margin_coin,
       op = SetLeverage symbol leverage product_type margin_coin ->
       req_json r = Some (JDict [ ("symbol", JStr (lower symbol));
                                   ("productType", JStr product_type);
                                   ("marginCoin", JStr (upper margin_coin));
                                   ("leverage", JStr (str_of_int leverage)) ]) /\
       forallb (fun c => negb (is_upper c)) (list_ascii_of_string (lower symbol)) = true /\
       forallb (fun c => negb (is_lower c)) (list_ascii_of_string (upper margin_coin)) = true).
Proof.
  destruct op as [symbol | symbol leverage product_type margin_coin |]; simpl.
  - unfold get_historical_candles, try_except, bind, time_ms. cbv zeta.
    match goal with |- context [_request ?m ?e ?p ?d s] =>
      destruct (_request_effect m e p d s) as (r & s' & E & Hcalls & Hm & _ & _ & Hlog & _)
    end.
    rewrite E. exists r, s'. repeat split; try assumption. all: discriminate.
  - unfold set_leverage. cbv zeta.
    match goal with |- context [_request ?m ?e ?p ?d s] =>
      destruct (_request_effect m e p d s) as (r & s' & E & Hcalls & Hm & Hj & _ & Hlog & _)
    end.
    rewrite E. exists r, s'.
    split; [reflexivity |]. split; [assumption |]. split; [assumption |].
    split; [assumption |].
    intros symbol' leverage' pt mc E'. inversion E'; subst.
    split; [exact Hj |]. split; [apply lower_has_no_upper | apply upper_has_no_lower].
  - unfold get_account_balance. cbv zeta.
    match goal with |- context [_request ?m ?e ?p ?d s] =>
      destruct (_request_effect m e p d s) as (r & s' & E & Hcalls & Hm & _ & _ & Hlog & _)
    end.
    rewrite E. exists r, s'. repeat split; try assumption. all: discriminate.
Qed.

(** *** Signing *)

Lemma _create_headers_run (method request_path body : string) (s : state) :
  _create_headers method request_path body s
  = (Ret [ ("ACCESS-KEY", API_KEY s);
           ("ACCESS-SIGN",
            _generate_signature (SECRET_KEY s) (str_of_int (clock s)) (upper method)
              (signed_path request_path) body);
           ("ACCESS-TIMESTAMP", str_of_int (clock s));
           ("ACCESS-PASSPHRASE", PASSPHRASE s);
           ("Content-Type", "application/json");
           ("ACCESS-VERSION", "2") ], s).
Proof.
  unfold _create_headers, signed_path, bind, time_ms, get_state, ret. cbv zeta.
  destruct (split_once "?" request_path) as [[base_path query]|]; reflexivity.
Qed.

Lemma signed_path_query (base : string) (pieces : list string) :
  free_of "?" base -> pieces <> [] -> Forall (free_of "&") pieces ->
  signed_path (base ++ "?" ++ join "&" pieces)
  = base ++ "?" ++ join "&" (sorted_strings pieces).
Proof.
  intros Hb Hne Hp. unfold signed_path.
  change ("?" ++ join "&" pieces)%string with (String "?" (join "&" pieces)).
  rewrite split_once_piece by assumption.
  change "&" with (String "&" "") at 1. rewrite split_on_join by assumption.
  reflexivity.
Qed.

(** The headers do not depend on the order in which the query
    parameters stand in the request path: the path is signed with its
    parameters sorted.  The timestamp in the headers is the one in the
    signed message, and the method is signed in upper case. *)
Theorem headers_ignore_query_order (method base body : string)
    (pieces pieces' : list string) (s : state) :
  free_of "?" base -> pieces <> [] -> Forall (free_of "&") pieces ->
  Permutation pieces pieces' ->
  _create_headers method (base ++ "?" ++ join "&" pieces) body s
  = _create_headers method (base ++ "?" ++ join "&" pieces') body s /\
  exists headers,
    _create_headers method (base ++ "?" ++ join "&" pieces) body s = (Ret headers, s) /\
    assoc "ACCESS-TIMESTAMP" headers = Some (str_of_int (clock s)) /\
    assoc "ACCESS-SIGN" headers
    = Some (_generate_signature (SECRET_KEY s) (str_of_int (clock s)) (upper method)
              (base ++ "?" ++ join "&" (sorted_strings pieces)) body).
Proof.
  intros Hb Hne Hp Hperm.
  assert (Hne' : pieces' <> []).
  { intros ->. symmetry in Hperm. apply Permutation_nil in Hperm. contradiction. }
  assert (Hp' : Forall (free_of "&") pieces') by (eapply Permutation_Forall; eassumption).
  rewrite !_create_headers_run, !signed_path_query by assumption.
  rewrite (sorted_strings_permutation pieces pieces' Hperm).
  split; [reflexivity |]. eexists. split; [reflexivity |]. split; reflexivity.
Qed.

(** *** The sweep when it cannot go on *)

Lemma sweep_orders_app (symbol : string) (now : Z) (l1 l2 : list json) :
  forall (results : list (option json)) (s : state),
    sweep_orders symbol now (l1 ++ l2) results s
    = match sweep_orders symbol now l1 results s with
      | (Ret r, s1) => sweep_orders symbol now l2 r s1
      | (Raise e, s1) => (Raise e, s1)
      end.
Proof.
  induction l1 as [|order rest IH]; intros results s; [reflexivity |].
  cbn [sweep_orders app]. unfold bind, lift, ret.
  destruct (dict_get order "orderId" JNull) as [oid|e]; [| reflexivity].
  destruct (dict_get order "cTime" (JNum 0)) as [ct|e]; [| reflexivity].
  destruct (py_int ct) as [t|e]; [| reflexivity].
  destruct (truthy oid && (time_threshold_ms <=? now - t)).
  - destruct (cancel_order symbol oid s) as [[result|e] s1]; [| reflexivity].
    destruct result as [r|].
    + destruct (truthy r).
      * destruct (dict_get r "code" JNull) as [code|e]; [| reflexivity].
        destruct (eq_str code "00000"); apply IH.
      * apply IH.
    + apply IH.
  - apply IH.
Qed.

(** The sweep up to the point where it has the answer to its fetch. *)
Lemma sweep_fetch (symbol : string) (s : state) :
  exists (fetch : request) (s1 : state),
    cancel_all_pending_orders symbol s
    = (match reply_result (head (inbox s)) with
       | None => ret []
       | Some p =>
           if negb (truthy p) then ret [] else
           let* code := lift (dict_get p "code" JNull) in
           if negb (eq_str code "00000") then ret [] else
           let* data := lift (dict_get p "data" (JDict [])) in
           let* orders := lift (dict_get data "entrustedList" (JList [])) in
           if negb (truthy orders) then ret [] else
           let* orders := lift (py_iter orders) in
           sweep_orders symbol (clock s) orders []
       end) s1 /\
    calls s1 = (calls s ++ [fetch])%list /\ req_method fetch = "GET" /\
    inbox s1 = tail (inbox s).
Proof.
  unfold cancel_all_pending_orders. cbv zeta.
  unfold bind at 1. unfold time_ms at 1. cbv iota beta.
  unfold bind at 1. unfold get_pending_orders. cbv zeta. simpl given. cbv iota.
  match goal with |- context [_request ?m ?e ?p ?x s] =>
    destruct (_request_effect m e p x s) as (fetch & s1 & E & Hcalls & Hm & _ & Hinbox & _)
  end.
  rewrite E. exists fetch, s1. repeat split; assumption.
Qed.

(** When the fetch brings nothing usable (no answer, an empty body, or
    a code other than "00000") the sweep returns the empty list having
    issued the fetch and nothing else: the same value it returns when
    there is nothing to cancel. *)
Theorem sweep_after_refused_fetch_cancels_nothing (symbol : string) (s : state) :
  fetch_refused (head (inbox s)) ->
  exists (fetch : request) (s' : state),
    cancel_all_pending_orders symbol s = (Ret [], s') /\
    calls s' = (calls s ++ [fetch])%list /\ req_method fetch = "GET".
Proof.
  intros Hr. destruct (sweep_fetch symbol s) as (fetch & s1 & E & Hcalls & Hm & _).
  exists fetch, s1. split; [| split; assumption]. rewrite E.
  destruct (inbox s) as [|[took|took status body] rest]; simpl in Hr |- *; try reflexivity.
  destruct (truthy body) eqn:Eb; [| reflexivity]. simpl.
  destruct Hr as [Hr | (d & -> & Hr)]; [congruence |].
  unfold bind, lift. simpl. rewrite Hr. reflexivity.
Qed.

(** The sweep is not all-or-nothing.  An order whose creation time
    cannot be read stops it with the exception of the reading, after the
    cancellations of the stale orders that came before it in the list
    have been issued; what those cancellations handed back is lost with
    the exception, and the orders after it are not looked at. *)
Theorem sweep_stops_at_unreadable_order (symbol : string) (s : state)
    (took status : Z) (d dd bad : list (string * json)) (good rest : list json)
    (replies : list reply) (e : exn) :
  inbox s = Answer took status (JDict d) :: replies ->
  assoc "code" d = Some (JStr "00000") ->
  assoc "data" d = Some (JDict dd) ->
  assoc "entrustedList" dd = Some (JList (good ++ JDict bad :: rest)) ->
  Forall readable_order good -> Forall inspectable replies ->
  order_time (JDict bad) = Raise e ->
  exists (s' : state) (fetch : request) (cancels : list request),
    cancel_all_pending_orders symbol s = (Raise e, s') /\
    calls s' = (calls s ++ fetch :: cancels)%list /\
    req_method fetch = "GET" /\
    Forall (fun r => req_method r = "POST") cancels /\
    map req_json cancels
    = map (fun o => Some (JDict (cancel_body symbol o))) (List.filter (stale (clock s)) good).
Proof.
  intros Hin Hcode Hdata Hlist Hgood Hrep Hbad.
  destruct (sweep_fetch symbol s) as (fetch & s1 & E & Hcalls & Hm & Hinbox).
  rewrite Hin in E, Hinbox. cbn [head reply_result tail] in E, Hinbox.
  assert (Hd : truthy (JDict d) = true).
  { destruct d; [discriminate | reflexivity]. }
  rewrite Hd in E. unfold bind, lift in E. cbn [negb dict_get] in E.
  rewrite Hcode in E. cbn [eq_str] in E. rewrite String.eqb_refl in E.
  cbn [negb] in E. rewrite Hdata in E. cbn [dict_get] in E. rewrite Hlist in E.
  assert (Ht : truthy (JList (good ++ JDict bad :: rest)) = true).
  { destruct good; reflexivity. }
  rewrite Ht in E. cbn [negb py_iter] in E.
  rewrite sweep_orders_app in E.
  assert (Hins : Forall inspectable (inbox s1)) by (rewrite Hinbox; exact Hrep).
  destruct (sweep_orders_run symbol (clock s) good Hgood s1 [] Hins)
    as (s2 & cancels & Erun & Hcalls2 & Hmap & Hpost & _).
  rewrite Erun in E.
  assert (Estop : forall results,
            sweep_orders symbol (clock s) (JDict bad :: rest) results s2 = (Raise e, s2)).
  { intros results. cbn [sweep_orders]. unfold bind, lift. cbn [dict_get].
    unfold order_time in Hbad. cbn [dict_get] in Hbad. rewrite Hbad. reflexivity. }
  rewrite Estop in E.
  exists s2, fetch, cancels. split; [exact E |].
  split; [rewrite Hcalls2, Hcalls, <- List.app_assoc; reflexivity |].
  repeat split; assumption.
Qed.

(** *** Take-profit and stop-loss orders *)

(** [place_tpsl_order] reads the trigger price before anything is sent:
    a price that cannot be read ([None] included: there is no default)
    stops the call with nothing submitted.  Otherwise it submits one
    request whose trigger price is the reading rounded to the nearest
    tenth and whose symbol is in upper case; the execute price goes out
    as it was given. *)
Theorem place_tpsl_order_normalises_trigger (symbol plan_type : string) (trigger_price : json)
    (hold_side size execute_price : string) (s : state) :
  match py_float trigger_price with
  | Raise e =>
      place_tpsl_order symbol plan_type trigger_price hold_side size execute_price s
      = (Raise e, s)
  | Ret x =>
      exists (r : request) (s' : state) (body : list (string * json)),
        place_tpsl_order symbol plan_type trigger_price hold_side size execute_price s
        = (Ret (reply_result (head (inbox s))), s') /\
        calls s' = (calls s ++ [r])%list /\
        req_method r = "POST" /\
        req_json r = Some (JDict body) /\
        assoc "triggerPrice" body = Some (JStr (str_of_float (round_to_tenth x))) /\
        (round_to_tenth x - x <= 1 # 20)%Q /\ (x - round_to_tenth x <= 1 # 20)%Q /\
        assoc "symbol" body = Some (JStr (upper symbol)) /\
        assoc "executePrice" body = Some (JStr execute_price) /\
        assoc "planType" body = Some (JStr plan_type)
  end.
Proof.
  unfold place_tpsl_order, bind, lift.
  destruct (py_float trigger_price) as [x|e]; [| reflexivity].
  cbv zeta.
  match goal with |- context [_request ?m ?e ?p ?d s] =>
    destruct (_request_effect m e p d s) as (r & s' & E & Hcalls & Hm & Hj & _)
  end.
  rewrite E. eexists r, s', _. split; [reflexivity |].
  split; [assumption |]. split; [assumption |]. split; [exact Hj |].
  destruct (round_to_tenth_near x) as (H1 & H2 & _).
  repeat split; try assumption; reflexivity.
Qed.

End MoreGatewayFacts.

(** ** The streaming client *)

Section ClientFacts.

Context `{PyRuntime}.

Import WS.

(** *** What a method leaves alone, and what it may raise *)

Lemma keeps_ret {A X} (f : state -> X) (a : A) : keeps f (ret a).
Proof. intros s. reflexivity. Qed.

Lemma keeps_raise {A X} (f : state -> X) (e : exn) : keeps f (raise e : M state A).
Proof. intros s. reflexivity. Qed.

Lemma keeps_lift {A X} (f : state -> X) (o : outcome A) : keeps f (lift o).
Proof. intros s. reflexivity. Qed.

Lemma keeps_get_state {X} (f : state -> X) : keeps f get_state.
Proof. intros s. reflexivity. Qed.

Lemma keeps_modify {X} (f : state -> X) (g : state -> state) :
  (forall s, f (g s) = f s) -> keeps f (modify g).
Proof. intros Hg s. apply Hg. Qed.

Lemma keeps_bind {A B X} (f : state -> X) (c : M state A) (k : A -> M state B) :
  keeps f c -> (forall a, keeps f (k a)) -> keeps f (bind c k).
Proof.
  intros Hc Hk s. unfold bind. specialize (Hc s).
  destruct (c s) as [[a|e] s1]; simpl in *; [| exact Hc].
  now rewrite Hk.
Qed.

Lemma keeps_try_except {A X} (f : state -> X) (c : M state A) (h : exn -> M state A) :
  keeps f c -> (forall e, keeps f (h e)) -> keeps f (try_except c h).
Proof.
  intros Hc Hh s. unfold try_except. specialize (Hc s).
  destruct (c s) as [[a|e] s1]; simpl in *; [exact Hc |].
  now rewrite Hh.
Qed.

Lemma keeps_if {A X} (f : state -> X) (b : bool) (c1 c2 : M state A) :
  keeps f c1 -> keeps f c2 -> keeps f (if b then c1 else c2).
Proof. now destruct b. Qed.

Lemma keeps_for_each {A X} (f : state -> X) (xs : list A) (body : A -> M state unit) :
  (forall x, keeps f (body x)) -> keeps f (for_each xs body).
Proof.
  intros Hb. induction xs as [|x xs IH]; simpl.
  - apply keeps_ret.
  - apply keeps_bind; [apply Hb | intros _; exact IH].
Qed.

Lemma raises_ret {A} (P : exn -> Prop) (a : A) : raises P (ret a).
Proof. intros s e s' E. discriminate. Qed.

Lemma raises_raise {A} (P : exn -> Prop) (e : exn) : P e -> raises P (raise e : M state A).
Proof. intros He s e' s' E. inversion E. now subst. Qed.

Lemma raises_modify (P : exn -> Prop) (g : state -> state) : raises P (modify g).
Proof. intros s e s' E. discriminate. Qed.

Lemma raises_get_state (P : exn -> Prop) : raises P get_state.
Proof. intros s e s' E. discriminate. Qed.

Lemma raises_lift {A} (P : exn -> Prop) (o : outcome A) :
  (forall e, o = Raise e -> P e) -> raises P (lift o).
Proof. intros Ho s e s' E. inversion E. now apply Ho. Qed.

Lemma raises_bind {A B} (P : exn -> Prop) (c : M state A) (k : A -> M state B) :
  raises P c -> (forall a, raises P (k a)) -> raises P (bind c k).
Proof.
  intros Hc Hk s e s' E. unfold bind in E.
  destruct (c s) as [[a|e0] s1] eqn:Ec.
  - eapply Hk; eassumption.
  - inversion E; subst. eapply Hc; eassumption.
Qed.

Lemma raises_if {A} (P : exn -> Prop) (b : bool) (c1 c2 : M state A) :
  raises P c1 -> raises P c2 -> raises P (if b then c1 else c2).
Proof. now destruct b. Qed.

Lemma raises_for_each {A} (P : exn -> Prop) (xs : list A) (body : A -> M state unit) :
  (forall x, raises P (body x)) -> raises P (for_each xs body).
Proof.
  intros Hb. induction xs as [|x xs IH]; simpl.
  - apply raises_ret.
  - apply raises_bind; [apply Hb | intros _; exact IH].
Qed.

Lemma raises_time_now (P : exn -> Prop) : raises P time_now.
Proof. intros s e s' E. discriminate. Qed.

Lemma raises_sleep (P : exn -> Prop) (d : Z) : raises P (sleep d).
Proof.
  intros s e s' E. unfold sleep in E. destruct (oversleep (net s)); discriminate.
Qed.

Lemma raises_ws_send (m : message) : raises builtin (ws_send m).
Proof.
  intros s e s' E. unfold ws_send in E.
  destruct (ws s) as [sock|]; [| inversion E; exact I].
  destruct (sock_open sock); simpl in E; [| inversion E; exact I].
  destruct (sends (net s)) as [|[|] rest]; inversion E; exact I.
Qed.

Lemma raises_websockets_connect (url : string) : raises builtin (websockets_connect url).
Proof.
  intros s e s' E. unfold websockets_connect in E.
  destruct (connects (net s)) as [|[|] rest]; inversion E; exact I.
Qed.

Lemma raises_write_log (P : exn -> Prop) (lv : level) (msg : string) :
  raises P (write_log lv msg).
Proof. apply raises_modify. Qed.

Lemma raises_send_message (m : message) : raises builtin (_send_message m).
Proof.
  unfold _send_message.
  repeat first
    [ apply raises_bind; [| intros ?]
    | apply raises_if
    | apply raises_time_now | apply raises_get_state | apply raises_modify
    | apply raises_ret | apply raises_sleep | apply raises_ws_send ].
Qed.

Lemma raises_connect_public : raises builtin (_connect false).
Proof.
  unfold _connect. apply raises_bind; [apply raises_get_state | intros s0].
  intros s e s' E. unfold try_except in E.
  match type of E with context [?c s] =>
    assert (Hbody : raises builtin c)
  end.
  { repeat first
      [ apply raises_bind; [| intros ?]
      | apply raises_websockets_connect | apply raises_modify
      | apply raises_write_log | apply raises_ret ]. }
  match type of E with context [?c s] => destruct (c s) as [[a|e0] s1] eqn:Ec end;
    [discriminate |].
  apply Hbody in Ec. unfold bind, modify, write_log, raise in E. simpl in E.
  inversion E. now subst.
Qed.

Lemma raises_channel_key (channel : channel_arg) (e : exn) :
  channel_key channel = Raise e -> builtin e.
Proof.
  unfold channel_key, subscript. destruct channel as [d|t]; [| intros E; inversion E; exact I].
  repeat match goal with
         | |- context [assoc ?k d] => destruct (assoc k d)
         end; intros E; inversion E; exact I.
Qed.

(** *** The registry is touched by the two loops only *)

Lemma bind_returns {A B} (c : M state A) (k : A -> M state B) (s : state) (b : B) :
  fst (bind c k s) = Ret b ->
  exists a s1, c s = (Ret a, s1) /\ bind c k s = k a s1 /\ fst (k a s1) = Ret b.
Proof.
  unfold bind. destruct (c s) as [[a|e] s1]; simpl; [eauto | discriminate].
Qed.

Lemma keeps_time_now {X} (f : state -> X) : keeps f time_now.
Proof. intros s. reflexivity. Qed.

Lemma keeps_registry_sleep (d : Z) : keeps registry (sleep d).
Proof. intros s. unfold sleep. destruct (oversleep (net s)); reflexivity. Qed.

Lemma keeps_registry_connect (url : string) : keeps registry (websockets_connect url).
Proof.
  intros s. unfold websockets_connect. destruct (connects (net s)) as [|[|] rest]; reflexivity.
Qed.

Lemma keeps_registry_send (m : message) : keeps registry (ws_send m).
Proof.
  intros s. unfold ws_send. destruct (ws s) as [sock|]; [| reflexivity].
  destruct (sock_open sock); [| reflexivity]. simpl.
  destruct (sends (net s)) as [|[|] rest]; reflexivity.
Qed.

Lemma keeps_registry_recv : keeps registry ws_recv.
Proof.
  intros s. unfold ws_recv. destruct (ws s) as [sock|]; [| reflexivity].
  destruct (sock_open sock); [| reflexivity]. simpl.
  destruct (recvs (net s)) as [|[| | |j] rest]; reflexivity.
Qed.

Lemma keeps_registry_close : keeps registry ws_close.
Proof. intros s. unfold ws_close, modify. simpl. destruct (ws s); reflexivity. Qed.

Lemma keeps_registry_log (lv : level) (msg : string) : keeps registry (write_log lv msg).
Proof. intros s. reflexivity. Qed.

Ltac keeps_registry :=
  repeat first
    [ apply keeps_bind; [| intros ?]
    | apply keeps_try_except; [| intros ?]
    | apply keeps_if
    | apply keeps_ret | apply keeps_raise | apply keeps_lift | apply keeps_get_state
    | apply keeps_time_now | apply keeps_registry_sleep | apply keeps_registry_connect
    | apply keeps_registry_send | apply keeps_registry_recv | apply keeps_registry_close
    | apply keeps_registry_log
    | apply keeps_modify; intros ?; reflexivity
    | match goal with |- keeps _ (match ?x with _ => _ end) => destruct x end
    | assumption ].

Lemma keeps_registry_send_message (m : message) : keeps registry (_send_message m).
Proof. unfold _send_message. keeps_registry. Qed.

Lemma keeps_registry_generate_signature : keeps registry _generate_signature.
Proof. unfold _generate_signature. keeps_registry. Qed.

Lemma keeps_registry_authenticate : keeps registry _authenticate.
Proof.
  unfold _authenticate.
  pose proof keeps_registry_send_message. pose proof keeps_registry_generate_signature.
  keeps_registry.
Qed.

Lemma keeps_registry_connect_method (is_private : bool) : keeps registry (_connect is_private).
Proof.
  unfold _connect. pose proof keeps_registry_authenticate. keeps_registry.
Qed.

(** *** The capacity check *)

Lemma raises_subscribe_past_check (channels : list channel_arg) (callback : Callable)
    (s0 : state) :
  raises builtin
    (let* _ := if negb (is_connected s0) then _connect false else ret tt in
     let subscribe_message := Op "subscribe" channels in
     let* _ := _send_message subscribe_message in
     for_each channels (fun channel =>
       let* channel_key := lift (channel_key channel) in
       let* _ := modify (fun s => set_callbacks (<[channel_key := callback]> (callbacks s)) s) in
       modify (fun s => set_subscribed_channels ({[channel_key]} ∪ subscribed_channels s) s))).
Proof.
  apply raises_bind; [apply raises_if; [apply raises_connect_public | apply raises_ret] |].
  intros _. cbv zeta.
  apply raises_bind; [apply raises_send_message | intros _].
  apply raises_for_each. intros channel.
  apply raises_bind; [apply raises_lift, raises_channel_key | intros k].
  apply raises_bind; [apply raises_modify | intros _; apply raises_modify].
Qed.

(** C4 (amended).  [subscribe] fails with the capacity error exactly
    when the number of channels in the registry plus the number of
    channels in the request exceeds the maximum; every channel of the
    request counts, also one that is already subscribed or listed
    twice.  When it fails so, the object and the world are unchanged:
    nothing is connected, no frame is sent, the registry is as
    before. *)
Theorem subscribe_capacity_counts_requested_channels
    (channels : list channel_arg) (callback : Callable) (s : state) :
  let limit := max_channels_per_conn (cfg s) in
  let counted := len_channels s + Z.of_nat (length channels) in
  (fst (subscribe channels callback s) = Raise (capacity_error limit) <-> limit < counted) /\
  (limit < counted -> subscribe channels callback s = (Raise (capacity_error limit), s)).
Proof.
  cbv zeta.
  assert (E0 : subscribe channels callback s =
               (if max_channels_per_conn (cfg s) <? len_channels s + Z.of_nat (length channels)
                then raise (capacity_error (max_channels_per_conn (cfg s)))
                else
                  let* _ := if negb (is_connected s) then _connect false else ret tt in
                  let subscribe_message := Op "subscribe" channels in
                  let* _ := _send_message subscribe_message in
                  for_each channels (fun channel =>
                    let* channel_key := lift (channel_key channel) in
                    let* _ := modify (fun s => set_callbacks
                                                 (<[channel_key := callback]> (callbacks s)) s) in
                    modify (fun s => set_subscribed_channels
                                       ({[channel_key]} ∪ subscribed_channels s) s))) s)
    by reflexivity.
  rewrite E0. clear E0.
  destruct (max_channels_per_conn (cfg s) <? len_channels s + Z.of_nat (length channels))
    eqn:Echeck.
  - apply Z.ltb_lt in Echeck. split; [split; [intros _; exact Echeck | reflexivity] |].
    reflexivity.
  - apply Z.ltb_ge in Echeck. split; [split |]; [| lia | lia].
    intros E.
    pose proof (raises_subscribe_past_check channels callback s) as Hr.
    match type of E with fst (?c s) = _ => destruct (c s) as [o s'] eqn:Ec end.
    simpl in E. subst o. apply Hr in Ec. destruct Ec.
Qed.

(** *** The registry after a sequence of calls *)

Lemma subscribe_loop_cons (channel : channel_arg) (rest : list channel_arg)
    (callback : Callable) (s : state) :
  subscribe_loop (channel :: rest) callback s =
  match channel_key channel with
  | Ret k =>
      subscribe_loop rest callback
        (set_subscribed_channels ({[k]} ∪ subscribed_channels s)
           (set_callbacks (<[k := callback]> (callbacks s)) s))
  | Raise e => (Raise e, s)
  end.
Proof.
  unfold subscribe_loop. simpl. unfold bind, lift, modify.
  destruct (channel_key channel); reflexivity.
Qed.

Lemma unsubscribe_loop_cons (channel : channel_arg) (rest : list channel_arg) (s : state) :
  unsubscribe_loop (channel :: rest) s =
  match channel_key channel with
  | Ret k =>
      unsubscribe_loop rest
        (set_subscribed_channels (subscribed_channels s ∖ {[k]})
           (set_callbacks (delete k (callbacks s)) s))
  | Raise e => (Raise e, s)
  end.
Proof.
  unfold unsubscribe_loop. simpl. unfold bind, lift, modify.
  destruct (channel_key channel); reflexivity.
Qed.

Lemma implied_subscribe_cons (reg : gmap string Callable) (channel : channel_arg)
    (rest : list channel_arg) (callback : Callable) :
  implied_step reg (Subscribe (channel :: rest) callback)
  = implied_step (match key_of channel with
                  | Some k => <[k := callback]> reg
                  | None => reg
                  end) (Subscribe rest callback).
Proof. reflexivity. Qed.

Lemma implied_unsubscribe_cons (reg : gmap string Callable) (channel : channel_arg)
    (rest : list channel_arg) :
  implied_step reg (Unsubscribe (channel :: rest))
  = implied_step (match key_of channel with
                  | Some k => delete k reg
                  | None => reg
                  end) (Unsubscribe rest).
Proof. reflexivity. Qed.

Lemma subscribe_loop_returns (channels : list channel_arg) (callback : Callable) :
  forall s, fst (subscribe_loop channels callback s) = Ret tt ->
    callbacks (snd (subscribe_loop channels callback s))
    = implied_step (callbacks s) (Subscribe channels callback) /\
    (subscribed_channels s = dom (callbacks s) ->
     subscribed_channels (snd (subscribe_loop channels callback s))
     = dom (callbacks (snd (subscribe_loop channels callback s)))).
Proof.
  induction channels as [|channel rest IH]; intros s Hret.
  - split; [reflexivity | auto].
  - rewrite subscribe_loop_cons in *. rewrite implied_subscribe_cons. unfold key_of.
    destruct (channel_key channel) as [k|e]; [| discriminate].
    destruct (IH _ Hret) as [Hcb Hsub].
    cbn [callbacks subscribed_channels set_subscribed_channels set_callbacks] in Hcb, Hsub.
    split; [exact Hcb |].
    intros Hdom. apply Hsub. rewrite dom_insert_L. now rewrite Hdom.
Qed.

Lemma unsubscribe_loop_returns (channels : list channel_arg) :
  forall s, fst (unsubscribe_loop channels s) = Ret tt ->
    callbacks (snd (unsubscribe_loop channels s))
    = implied_step (callbacks s) (Unsubscribe channels) /\
    (subscribed_channels s = dom (callbacks s) ->
     subscribed_channels (snd (unsubscribe_loop channels s))
     = dom (callbacks (snd (unsubscribe_loop channels s)))).
Proof.
  induction channels as [|channel rest IH]; intros s Hret.
  - split; [reflexivity | auto].
  - rewrite unsubscribe_loop_cons in *. rewrite implied_unsubscribe_cons. unfold key_of.
    destruct (channel_key channel) as [k|e]; [| discriminate].
    destruct (IH _ Hret) as [Hcb Hsub].
    cbn [callbacks subscribed_channels set_subscribed_channels set_callbacks] in Hcb, Hsub.
    split; [exact Hcb |].
    intros Hdom. apply Hsub. rewrite dom_delete_L. now rewrite Hdom.
Qed.

Lemma subscribe_unfold (channels : list channel_arg) (callback : Callable) (s : state) :
  subscribe channels callback s =
  (if max_channels_per_conn (cfg s) <? len_channels s + Z.of_nat (length channels)
   then raise (capacity_error (max_channels_per_conn (cfg s)))
   else
     let* _ := if negb (is_connected s) then _connect false else ret tt in
     let* _ := _send_message (Op "subscribe" channels) in
     subscribe_loop channels callback) s.
Proof. reflexivity. Qed.

Lemma unsubscribe_unfold (channels : list channel_arg) (s : state) :
  unsubscribe channels s =
  (let* _ := _send_message (Op "unsubscribe" channels) in unsubscribe_loop channels) s.
Proof. reflexivity. Qed.

Lemma registry_fields (s1 s2 : state) :
  registry s1 = registry s2 ->
  callbacks s1 = callbacks s2 /\ subscribed_channels s1 = subscribed_channels s2.
Proof. unfold registry. intros E. now inversion E. Qed.

Lemma subscribe_returns (channels : list channel_arg) (callback : Callable) (s : state) :
  fst (subscribe channels callback s) = Ret tt ->
  callbacks (snd (subscribe channels callback s))
  = implied_step (callbacks s) (Subscribe channels callback) /\
  (subscribed_channels s = dom (callbacks s) ->
   subscribed_channels (snd (subscribe channels callback s))
   = dom (callbacks (snd (subscribe channels callback s)))).
Proof.
  rewrite subscribe_unfold.
  destruct (max_channels_per_conn (cfg s) <? len_channels s + Z.of_nat (length channels));
    [discriminate |].
  intros Hret.
  apply bind_returns in Hret as (a1 & s1 & E1 & -> & Hret).
  apply bind_returns in Hret as (a2 & s2 & E2 & -> & Hret).
  assert (Hr1 : registry s1 = registry s).
  { pose proof (keeps_if registry (negb (is_connected s)) (_connect false) (ret tt)
                  (keeps_registry_connect_method false) (keeps_ret registry tt) s) as K.
    now rewrite E1 in K. }
  assert (Hr2 : registry s2 = registry s1).
  { pose proof (keeps_registry_send_message (Op "subscribe" channels) s1) as K.
    now rewrite E2 in K. }
  rewrite Hr1 in Hr2. apply registry_fields in Hr2 as [Hc Hs].
  rewrite <- Hc, <- Hs. now apply subscribe_loop_returns.
Qed.

Lemma unsubscribe_returns (channels : list channel_arg) (s : state) :
  fst (unsubscribe channels s) = Ret tt ->
  callbacks (snd (unsubscribe channels s))
  = implied_step (callbacks s) (Unsubscribe channels) /\
  (subscribed_channels s = dom (callbacks s) ->
   subscribed_channels (snd (unsubscribe channels s))
   = dom (callbacks (snd (unsubscribe channels s)))).
Proof.
  rewrite unsubscribe_unfold. intros Hret.
  apply bind_returns in Hret as (a2 & s2 & E2 & -> & Hret).
  assert (Hr2 : registry s2 = registry s).
  { pose proof (keeps_registry_send_message (Op "unsubscribe" channels) s) as K.
    now rewrite E2 in K. }
  apply registry_fields in Hr2 as [Hc Hs].
  rewrite <- Hc, <- Hs. now apply unsubscribe_loop_returns.
Qed.

Lemma run_calls_returns (calls : list call) :
  forall s, fst (run_calls calls s) = Ret tt ->
    callbacks (snd (run_calls calls s)) = implied_registry calls (callbacks s) /\
    (subscribed_channels s = dom (callbacks s) ->
     subscribed_channels (snd (run_calls calls s))
     = dom (callbacks (snd (run_calls calls s)))).
Proof.
  unfold run_calls, implied_registry.
  induction calls as [|c rest IH]; intros s Hret.
  - split; [reflexivity | auto].
  - simpl for_each in *. simpl fold_left.
    apply bind_returns in Hret as ([] & s1 & E1 & -> & Hret).
    destruct (IH s1 Hret) as [Hcb Hsub].
    assert (Hstep : callbacks s1 = implied_step (callbacks s) c /\
                    (subscribed_channels s = dom (callbacks s) ->
                     subscribed_channels s1 = dom (callbacks s1))).
    { destruct c as [channels callback | channels]; simpl do_call in E1.
      - pose proof (subscribe_returns channels callback s) as K. rewrite E1 in K.
        now apply K.
      - pose proof (unsubscribe_returns channels s) as K. rewrite E1 in K.
        now apply K. }
    destruct Hstep as [Hc1 Hs1]. rewrite <- Hc1. split; [exact Hcb | auto].
Qed.

Lemma implied_subscribe_keeps (callback : Callable) (k : string)
    (channels : list channel_arg) :
  forall reg : gmap string Callable,
    reg !! k = Some callback ->
    implied_step reg (Subscribe channels callback) !! k = Some callback.
Proof.
  induction channels as [|channel rest IH]; intros reg Hk; [exact Hk |].
  rewrite implied_subscribe_cons. apply IH.
  destruct (key_of channel) as [k'|]; [| exact Hk].
  destruct (decide (k' = k)) as [-> | Hne].
  - apply lookup_insert_eq.
  - now rewrite lookup_insert_ne.
Qed.

Lemma implied_subscribe_binds (callback : Callable) (k : string) (channel : channel_arg)
    (channels : list channel_arg) :
  In channel channels -> key_of channel = Some k ->
  forall reg : gmap string Callable,
    implied_step reg (Subscribe channels callback) !! k = Some callback.
Proof.
  induction channels as [|c rest IH]; intros Hin Hkey reg; [destruct Hin |].
  rewrite implied_subscribe_cons. destruct Hin as [-> | Hin].
  - rewrite Hkey. apply implied_subscribe_keeps, lookup_insert_eq.
  - now apply IH.
Qed.

Lemma implied_registry_app (calls1 calls2 : list call) (reg : gmap string Callable) :
  implied_registry (calls1 ++ calls2) reg = implied_registry calls2 (implied_registry calls1 reg).
Proof. unfold implied_registry. apply fold_left_app. Qed.

(** Where the first two fields are free of dots, the key tells the
    three fields apart. *)
Lemma key_determines_identity (ch1 ch2 : channel_arg) (a b c a' b' c' : string) :
  identity ch1 = Some (a, b, c) -> identity ch2 = Some (a', b', c') ->
  dot_free a -> dot_free b -> dot_free a' -> dot_free b' ->
  key_of ch1 = key_of ch2 -> (a, b, c) = (a', b', c').
Proof.
  unfold identity, key_of, channel_key.
  destruct (subscript ch1 "instType") as [x|]; [| discriminate].
  destruct (subscript ch1 "channel") as [y|]; [| discriminate].
  destruct (subscript ch1 "instId") as [z|]; [| discriminate].
  destruct (subscript ch2 "instType") as [x'|]; [| discriminate].
  destruct (subscript ch2 "channel") as [y'|]; [| discriminate].
  destruct (subscript ch2 "instId") as [z'|]; [| discriminate].
  intros E1 E2 Ha Hb Ha' Hb' E. inversion E1; inversion E2; subst. inversion E as [E'].
  apply string_split_at_dot in E' as [-> E']; [| assumption ..].
  apply string_split_at_dot in E' as [-> ->]; [| assumption ..].
  reflexivity.
Qed.

(** C9 (amended).  After any sequence of subscribe and unsubscribe
    calls that all return, the registry is the one the sequence implies
    when a channel is identified by its dotted key
    [instType.channel.instId]: the callback map is the implied map and
    the recorded set is its set of keys, so there is one callback per
    recorded key; a subscribe that comes last binds each of its
    channels to its own callback, whatever was bound before.  The
    dotted key identifies the three fields whenever the first two hold
    no dot. *)
Theorem registry_follows_successful_calls (calls : list call) (s : state) :
  subscribed_channels s = dom (callbacks s) ->
  fst (run_calls calls s) = Ret tt ->
  let s' := snd (run_calls calls s) in
  callbacks s' = implied_registry calls (callbacks s) /\
  subscribed_channels s' = dom (implied_registry calls (callbacks s)) /\
  size (callbacks s') = size (subscribed_channels s') /\
  (forall earlier channels callback channel k,
     calls = (earlier ++ [Subscribe channels callback])%list ->
     In channel channels -> key_of channel = Some k ->
     callbacks s' !! k = Some callback) /\
  (forall ch1 ch2 a b c a' b' c',
     identity ch1 = Some (a, b, c) -> identity ch2 = Some (a', b', c') ->
     dot_free a -> dot_free b -> dot_free a' -> dot_free b' ->
     key_of ch1 = key_of ch2 -> (a, b, c) = (a', b', c')).
Proof.
  intros Hdom Hret. cbv zeta.
  destruct (run_calls_returns calls s Hret) as [Hcb Hsub]. specialize (Hsub Hdom).
  split; [exact Hcb |]. split; [now rewrite Hsub, Hcb |].
  split; [now rewrite Hsub, size_dom |].
  split; [| exact key_determines_identity].
  intros earlier channels callback channel k -> Hin Hkey.
  rewrite Hcb, implied_registry_app. unfold implied_registry at 1. simpl fold_left.
  now apply (implied_subscribe_binds callback k channel channels).
Qed.

(** *** Reconnecting *)

Lemma keeps_frames_sleep (d : Z) : keeps subscribe_frames (sleep d).
Proof. intros s. unfold sleep. destruct (oversleep (net s)); reflexivity. Qed.

Lemma keeps_frames_connect (url : string) : keeps subscribe_frames (websockets_connect url).
Proof.
  intros s. unfold websockets_connect. destruct (connects (net s)) as [|[|] rest]; reflexivity.
Qed.

Lemma keeps_frames_send (m : message) :
  is_subscribe m = false -> keeps subscribe_frames (ws_send m).
Proof.
  intros Hm s. unfold ws_send. destruct (ws s) as [sock|]; [| reflexivity].
  destruct (sock_open sock); [| reflexivity]. simpl.
  destruct (sends (net s)) as [|[|] rest]; try reflexivity.
  unfold subscribe_frames. simpl. rewrite List.filter_app. simpl. rewrite Hm.
  apply app_nil_r.
Qed.

Lemma keeps_frames_recv : keeps subscribe_frames ws_recv.
Proof.
  intros s. unfold ws_recv. destruct (ws s) as [sock|]; [| reflexivity].
  destruct (sock_open sock); [| reflexivity]. simpl.
  destruct (recvs (net s)) as [|[| | |j] rest]; reflexivity.
Qed.

Lemma keeps_frames_close : keeps subscribe_frames ws_close.
Proof. intros s. unfold ws_close, modify. simpl. destruct (ws s); reflexivity. Qed.

Lemma keeps_frames_log (lv : level) (msg : string) : keeps subscribe_frames (write_log lv msg).
Proof. intros s. reflexivity. Qed.

Ltac keeps_frames :=
  repeat first
    [ apply keeps_bind; [| intros ?]
    | apply keeps_try_except; [| intros ?]
    | apply keeps_if
    | apply keeps_ret | apply keeps_raise | apply keeps_lift | apply keeps_get_state
    | apply keeps_time_now | apply keeps_frames_sleep | apply keeps_frames_connect
    | apply keeps_frames_send; reflexivity | apply keeps_frames_recv
    | apply keeps_frames_close | apply keeps_frames_log
    | apply keeps_modify; intros ?; reflexivity
    | match goal with |- keeps _ (match ?x with _ => _ end) => destruct x end
    | assumption ].

Lemma keeps_frames_send_message (m : message) :
  is_subscribe m = false -> keeps subscribe_frames (_send_message m).
Proof.
  intros Hm. unfold _send_message.
  repeat first
    [ apply keeps_bind; [| intros ?]
    | apply keeps_if
    | apply keeps_ret | apply keeps_get_state | apply keeps_time_now
    | apply keeps_frames_sleep | apply keeps_frames_send; exact Hm
    | apply keeps_modify; intros ?; reflexivity ].
Qed.

Lemma keeps_frames_authenticate : keeps subscribe_frames _authenticate.
Proof.
  unfold _authenticate.
  apply keeps_bind; [apply keeps_time_now | intros now].
  apply keeps_bind; [unfold _generate_signature; keeps_frames | intros sign].
  apply keeps_bind; [apply keeps_get_state | intros s0].
  apply keeps_bind; [apply keeps_lift | intros api_key].
  apply keeps_bind; [apply keeps_lift | intros passphrase].
  apply keeps_bind; [apply keeps_frames_send_message; reflexivity | intros _].
  keeps_frames.
Qed.

Lemma keeps_frames_connect_method (is_private : bool) :
  keeps subscribe_frames (_connect is_private).
Proof.
  unfold _connect. pose proof keeps_frames_authenticate. keeps_frames.
Qed.

Lemma keeps_pair {A X Y} (f : state -> X) (g : state -> Y) (c : M state A) :
  keeps f c -> keeps g c -> keeps (fun s => (f s, g s)) c.
Proof. intros Hf Hg s. now rewrite Hf, Hg. Qed.

(** What an attempt leaves alone: the registry and the subscribe frames
    on the wire. *)
Lemma keeps_reconnect_attempt :
  keeps (fun s => (registry s, subscribe_frames s)) reconnect_attempt.
Proof.
  apply keeps_pair; unfold reconnect_attempt, call_subscribe.
  - pose proof keeps_registry_connect_method. keeps_registry.
  - pose proof keeps_frames_connect_method. keeps_frames.
Qed.

(** With a channel in the registry, an attempt never comes to its end:
    it raises on the way, at the latest at the call of [subscribe]
    that leaves the callback out. *)
Lemma reconnect_attempt_raises (s : state) :
  0 < len_channels s -> exists e s', reconnect_attempt s = (Raise e, s').
Proof.
  intros Hlen.
  destruct (reconnect_attempt s) as [[p|e] s'] eqn:E; [| eauto]. exfalso.
  assert (Hret : fst (reconnect_attempt s) = Ret p) by now rewrite E.
  unfold reconnect_attempt in Hret.
  apply bind_returns in Hret as (s0 & s1 & E0 & _ & Hret).
  inversion E0; subst s0 s1. clear E0.
  apply bind_returns in Hret as ([] & s1 & E1 & _ & Hret).
  apply bind_returns in Hret as (s1' & s1'' & E1' & _ & Hret).
  inversion E1'; subst s1' s1''. clear E1'.
  apply bind_returns in Hret as ([] & s2 & E2 & _ & Hret).
  apply bind_returns in Hret as (s2' & s2'' & E2' & _ & Hret).
  inversion E2'; subst s2' s2''. clear E2'.
  assert (Hr1 : registry s1 = registry s).
  { assert (K : keeps registry (match ws s with Some _ => ws_close | None => ret tt end))
      by (destruct (ws s); [apply keeps_registry_close | apply keeps_ret]).
    specialize (K s). now rewrite E1 in K. }
  assert (Hr2 : registry s2 = registry s1).
  { pose proof (keeps_registry_connect_method (0 <? len_channels s1) s1) as K.
    now rewrite E2 in K. }
  assert (Hlen2 : (0 <? len_channels s2) = true).
  { apply Z.ltb_lt. unfold len_channels in *.
    rewrite Hr1 in Hr2. apply registry_fields in Hr2 as [_ ->]. exact Hlen. }
  rewrite Hlen2 in Hret. discriminate.
Qed.

(** One attempt with a channel in the registry ends in the handler:
    the method is where it was, one call deeper. *)
Lemma reconnect_retries (attempts : nat) (s : state) :
  0 < len_channels s ->
  exists s3, _reconnect (S attempts) s = _reconnect attempts s3 /\
             registry s3 = registry s /\ subscribe_frames s3 = subscribe_frames s.
Proof.
  intros Hlen.
  change (_reconnect (S attempts) s) with
    ((let* _ := modify (set_is_connected false) in
      try_except reconnect_attempt
        (fun e =>
         let* _ := write_log ERROR "reconnect failed" in
         let* _ := sleep 5 in
         _reconnect attempts)) s).
  unfold bind at 1. unfold modify at 1. cbv iota beta.
  set (s0 := set_is_connected false s).
  assert (Hlen0 : 0 < len_channels s0) by exact Hlen.
  destruct (reconnect_attempt_raises s0 Hlen0) as (e & s1 & E).
  pose proof (keeps_reconnect_attempt s0) as K. rewrite E in K.
  assert (Hreg : registry s1 = registry s) by exact (f_equal fst K).
  assert (Hfr : subscribe_frames s1 = subscribe_frames s) by exact (f_equal snd K).
  unfold try_except. rewrite E.
  unfold bind at 1. unfold write_log at 1, modify at 1. cbv iota beta.
  unfold bind at 1.
  set (s2 := set_log (log s1 ++ [(ERROR, "reconnect failed")]) s1).
  pose proof (keeps_registry_sleep 5 s2) as Ksr.
  pose proof (keeps_frames_sleep 5 s2) as Ksf.
  assert (Hnever : forall e' s', sleep 5 s2 <> (Raise e', s')).
  { intros e' s' Es. unfold sleep in Es. destruct (oversleep (net s2)); discriminate. }
  destruct (sleep 5 s2) as [[[]|e'] s3] eqn:Es; [| now destruct (Hnever e' s3)].
  simpl in Ksr, Ksf.
  exists s3. split; [reflexivity |]. split.
  - rewrite Ksr. exact Hreg.
  - rewrite Ksf. exact Hfr.
Qed.

(** With a channel in the registry every attempt ends in the handler,
    down to the call the interpreter refuses. *)
Lemma reconnect_with_channels (attempts : nat) (s : state) :
  0 < len_channels s ->
  fst (_reconnect attempts s) = Raise RecursionError /\
  registry (snd (_reconnect attempts s)) = registry s /\
  subscribe_frames (snd (_reconnect attempts s)) = subscribe_frames s.
Proof.
  revert s. induction attempts as [|attempts IH]; intros s Hlen.
  - repeat split; reflexivity.
  - destruct (reconnect_retries attempts s Hlen) as (s3 & -> & Hreg & Hfr).
    assert (Hlen3 : 0 < len_channels s3).
    { unfold len_channels in *. apply registry_fields in Hreg as [_ ->]. exact Hlen. }
    destruct (IH s3 Hlen3) as (Hret & Hr & Hf).
    split; [exact Hret |]. split; [now rewrite Hr | now rewrite Hf].
Qed.

(** C1.  With a channel in the registry, [_reconnect] never returns:
    every attempt ends in its own exception handler, which sleeps five
    seconds and calls the method again, one frame deeper, until the
    interpreter refuses the call and the [RecursionError] reaches the
    caller.  No subscribe frame reaches the wire, and the registry
    stays as it was: the channels are never replayed. *)
Theorem reconnect_never_resubscribes (attempts : nat) (s : state) :
  0 < len_channels s ->
  fst (_reconnect attempts s) = Raise RecursionError /\
  registry (snd (_reconnect attempts s)) = registry s /\
  subscribe_frames (snd (_reconnect attempts s)) = subscribe_frames s.
Proof. apply reconnect_with_channels. Qed.

(** *** The rate limiter *)

Lemma send_message_steps (m : message) (s : state) :
  _send_message m s =
  match ws_send m (limit_wait (window_reset s)) with
  | (Ret _, s3) => (Ret tt, set_message_count (message_count s3 + 1) s3)
  | (Raise e, s3) => (Raise e, s3)
  end.
Proof.
  unfold _send_message, window_reset, limit_wait, bind, time_now, get_state, modify, ret.
  destruct (1000 <=? clock s - message_time s); cbv iota beta.
  - cbn [cfg message_count set_message_time set_message_count].
    destruct (message_rate_limit (cfg s) <=? 0); cbv iota beta.
    + destruct (sleep 1 _) as [[[]|e] s1] eqn:Es; cbn [snd].
      * destruct (ws_send m _) as [[[]|e] s3]; reflexivity.
      * unfold sleep in Es. destruct (oversleep _); discriminate.
    + destruct (ws_send m _) as [[[]|e] s3]; reflexivity.
  - destruct (message_rate_limit (cfg s) <=? message_count s); cbv iota beta.
    + destruct (sleep 1 s) as [[[]|e] s1] eqn:Es; cbn [snd].
      * destruct (ws_send m _) as [[[]|e] s3]; reflexivity.
      * unfold sleep in Es. destruct (oversleep _); discriminate.
    + destruct (ws_send m s) as [[[]|e] s3]; reflexivity.
Qed.

(** Counting frames. *)
Lemma count_le {A} (p q : A -> bool) (w : list A) :
  (forall e, p e = true -> q e = true) ->
  (length (List.filter p w) <= length (List.filter q w))%nat.
Proof.
  intros Hpq. induction w as [|e w IH]; simpl; [lia |].
  destruct (p e) eqn:Ep.
  - rewrite (Hpq e Ep). simpl. lia.
  - destruct (q e); simpl; lia.
Qed.

Lemma count_split {A} (p q r : A -> bool) (w : list A) :
  (forall e, p e = true -> q e = true \/ r e = true) ->
  (length (List.filter p w) <= length (List.filter q w) + length (List.filter r w))%nat.
Proof.
  intros Hpqr. induction w as [|e w IH]; simpl; [lia |].
  destruct (p e) eqn:Ep.
  - destruct (Hpqr e Ep) as [-> | ->]; simpl; destruct (q e), (r e); simpl; lia.
  - destruct (q e), (r e); simpl; lia.
Qed.

Lemma count_none {A} (p : A -> bool) (w : list A) :
  Forall (fun e => p e = false) w -> length (List.filter p w) = 0%nat.
Proof.
  induction 1 as [|e w He Hw IH]; simpl; [reflexivity |]. now rewrite He.
Qed.

Lemma sent_from_none (x : Z) (w : list (Z * message)) :
  Forall (fun e => fst e < x) w -> sent_from x w = 0%nat.
Proof.
  intros Hw. apply count_none. eapply Forall_impl; [exact Hw |].
  intros e He. simpl in *. apply Z.leb_gt. exact He.
Qed.

Lemma sent_between_none (lo hi : Z) (w : list (Z * message)) :
  Forall (fun e => fst e < lo) w -> sent_between lo hi w = 0%nat.
Proof.
  intros Hw. apply count_none. eapply Forall_impl; [exact Hw |].
  intros e He. simpl in *. apply andb_false_iff. left. apply Z.leb_gt. exact He.
Qed.

Lemma sent_from_snoc (x t : Z) (m : message) (w : list (Z * message)) :
  x <= t -> sent_from x (w ++ [(t, m)]) = S (sent_from x w).
Proof.
  intros Hx. unfold sent_from. rewrite List.filter_app, length_app. simpl.
  apply Z.leb_le in Hx. rewrite Hx. simpl. lia.
Qed.

Lemma sent_between_snoc (lo hi t : Z) (m : message) (w : list (Z * message)) :
  sent_between lo hi (w ++ [(t, m)])
  = (sent_between lo hi w + (if ((lo <=? t) && (t <? hi))%Z then 1 else 0))%nat.
Proof.
  unfold sent_between. rewrite List.filter_app, length_app. simpl.
  destruct ((lo <=? t) && (t <? hi)); reflexivity.
Qed.

(** What the primitives do to the fields the limiter reads. *)
Lemma sleep_effect (d : Z) (s : state) :
  exists late : N,
    sleep d s = (Ret tt, snd (sleep d s)) /\
    clock (snd (sleep d s)) = clock s + d * 1000 + Z.of_N late /\
    cfg (snd (sleep d s)) = cfg s /\ wire (snd (sleep d s)) = wire s /\
    message_count (snd (sleep d s)) = message_count s /\
    message_time (snd (sleep d s)) = message_time s.
Proof.
  unfold sleep. destruct (oversleep (net s)) as [|late rest].
  - exists 0%N. repeat split; reflexivity.
  - exists late. repeat split; reflexivity.
Qed.

Lemma ws_send_effect (m : message) (s : state) :
  let s3 := snd (ws_send m s) in
  cfg s3 = cfg s /\ clock s3 = clock s /\
  message_count s3 = message_count s /\ message_time s3 = message_time s /\
  match fst (ws_send m s) with
  | Ret _ => wire s3 = (wire s ++ [(clock s, m)])%list
  | Raise _ => wire s3 = wire s
  end.
Proof.
  unfold ws_send. destruct (ws s) as [sock|]; [| repeat split; reflexivity].
  destruct (sock_open sock); [| repeat split; reflexivity]. simpl.
  destruct (sends (net s)) as [|[|] rest]; repeat split; reflexivity.
Qed.

(** The limiter's invariant through time passing and through the
    three steps of a send. *)
Lemma limiter_ok_elapse (d : N) (s : state) :
  limiter_ok s -> limiter_ok (set_clock (clock s + Z.of_N d) s).
Proof.
  intros [I0 I1 I2 I3 I4 I5 I6 I7]. constructor; simpl; try assumption.
  - lia.
  - eapply Forall_impl; [exact I3 |]. simpl. intros e He. lia.
Qed.

Lemma limiter_ok_window_reset (s : state) :
  limiter_ok s ->
  limiter_ok (window_reset s) /\
  clock (window_reset s) < message_time (window_reset s) + 1000 /\
  cfg (window_reset s) = cfg s.
Proof.
  intros [I0 I1 I2 I3 I4 I5 I6 I7]. unfold window_reset.
  destruct (1000 <=? clock s - message_time s) eqn:Ew.
  - apply Z.leb_le in Ew. split; [| simpl; split; [lia | reflexivity]].
    assert (Hpast : Forall (fun e => fst e < clock s) (wire s)).
    { eapply Forall_impl; [exact I4 |]. simpl. intros e He.
      destruct (Z_lt_le_dec (fst e) (message_time s)); [lia |]. specialize (He l). lia. }
    constructor; simpl; try assumption.
    + lia.
    + lia.
    + eapply Forall_impl; [exact I3 |]. simpl. intros e He. lia.
    + now rewrite (sent_from_none _ _ Hpast).
    + etransitivity; [| exact (proj2 I1)]. rewrite <- I5. apply inj_le.
      apply count_le. intros e He. apply andb_true_iff in He as [He _].
      apply Z.leb_le in He. apply Z.leb_le. lia.
  - apply Z.leb_gt in Ew. split; [constructor; assumption |]. split; [lia | reflexivity].
Qed.

Lemma limiter_ok_limit_wait (s : state) :
  limiter_ok s -> clock s < message_time s + 1000 ->
  limiter_ok (limit_wait s) /\
  clock (limit_wait s) < message_time (limit_wait s) + 1000 /\
  message_count (limit_wait s) < message_rate_limit (cfg s) /\
  cfg (limit_wait s) = cfg s /\
  (message_rate_limit (cfg s) <= message_count s -> clock s + 1000 <= clock (limit_wait s)) /\
  clock s <= clock (limit_wait s).
Proof.
  intros [I0 I1 I2 I3 I4 I5 I6 I7] Hopen. unfold limit_wait.
  destruct (message_rate_limit (cfg s) <=? message_count s) eqn:El.
  - destruct (sleep_effect 1 s) as (late & _ & Hclock & Hcfg & Hwire & _ & _).
    set (s1 := snd (sleep 1 s)) in *.
    assert (Hlater : clock s < clock s1) by lia.
    assert (Hpast : Forall (fun e => fst e < clock s1) (wire s)).
    { eapply Forall_impl; [exact I3 |]. simpl. intros e He. lia. }
    cbv zeta. simpl.
    split; [| repeat split; try assumption; try lia].
    constructor; simpl; rewrite ?Hcfg, ?Hwire; try assumption.
    + lia.
    + lia.
    + eapply Forall_impl; [exact I3 |]. simpl. intros e He. lia.
    + eapply Forall_impl; [exact I3 |]. simpl. intros e He. lia.
    + now rewrite (sent_from_none _ _ Hpast).
    + rewrite sent_between_none; [lia |].
      eapply Forall_impl; [exact I3 |]. simpl. intros e He. lia.
  - apply Z.leb_gt in El.
    split; [constructor; assumption |]. repeat split; try lia.
Qed.

Lemma limiter_ok_sent (m : message) (s : state) :
  limiter_ok s -> clock s < message_time s + 1000 ->
  message_count s < message_rate_limit (cfg s) ->
  forall s3 : state,
    cfg s3 = cfg s -> clock s3 = clock s ->
    message_count s3 = message_count s -> message_time s3 = message_time s ->
    wire s3 = (wire s ++ [(clock s, m)])%list ->
    limiter_ok (set_message_count (message_count s3 + 1) s3).
Proof.
  intros [I0 I1 I2 I3 I4 I5 I6 I7] Hopen Hroom s3 Hcfg Hclock Hcount Htime Hwire.
  constructor; simpl; rewrite ?Hcfg, ?Hclock, ?Hcount, ?Htime, ?Hwire.
  - assumption.
  - lia.
  - assumption.
  - apply Forall_app. split; [assumption |]. constructor; [simpl; lia | constructor].
  - apply Forall_app. split; [assumption |]. constructor; [simpl; lia | constructor].
  - rewrite sent_from_snoc by assumption. lia.
  - rewrite sent_between_snoc.
    replace ((message_time s - 999 <=? clock s) && (clock s <? message_time s)) with false;
      [lia |].
    symmetry. apply andb_false_iff. right. apply Z.ltb_ge. assumption.
  - intros t. rewrite sent_between_snoc.
    destruct ((t <=? clock s) && (clock s <? t + 1000)) eqn:Ein; [| specialize (I7 t); lia].
    apply andb_true_iff in Ein as [E1 E2]. apply Z.leb_le in E1. apply Z.ltb_lt in E2.
    assert (Hsplit : (sent_between t (t + 1000) (wire s)
                      <= sent_between (message_time s - 999) (message_time s) (wire s)
                         + sent_from (message_time s) (wire s))%nat).
    { apply count_split. intros e He. apply andb_true_iff in He as [He1 He2].
      apply Z.leb_le in He1. apply Z.ltb_lt in He2.
      destruct (Z_lt_le_dec (fst e) (message_time s)).
      - left. apply andb_true_iff. split; [apply Z.leb_le | apply Z.ltb_lt]; lia.
      - right. apply Z.leb_le. lia. }
    lia.
Qed.

(** One call of [_send_message]: the invariant holds after it; a call
    that returns has put its frame last on the wire, stamped with the
    time it ended; a call that raises has put nothing on the wire. *)
Lemma send_message_effect (m : message) (s : state) :
  limiter_ok s ->
  let s' := snd (_send_message m s) in
  limiter_ok s' /\ cfg s' = cfg s /\ clock s <= clock s' /\
  match fst (_send_message m s) with
  | Ret _ => wire s' = (wire s ++ [(clock s', m)])%list
  | Raise _ => wire s' = wire s
  end.
Proof.
  intros Hok. cbv zeta. rewrite send_message_steps.
  destruct (limiter_ok_window_reset s Hok) as (Hok1 & Hopen1 & Hcfg1).
  assert (Hclock1 : clock (window_reset s) = clock s)
    by (unfold window_reset; destruct (_ <=? _); reflexivity).
  assert (Hwire1 : wire (window_reset s) = wire s)
    by (unfold window_reset; destruct (_ <=? _); reflexivity).
  set (s1 := window_reset s) in *.
  destruct (limiter_ok_limit_wait s1 Hok1 Hopen1) as (Hok2 & Hopen2 & Hroom2 & Hcfg2 & _ & Hclock2).
  assert (Hwire2 : wire (limit_wait s1) = wire s1).
  { unfold limit_wait. destruct (_ <=? _); [| reflexivity]. cbv zeta. simpl.
    now destruct (sleep_effect 1 s1) as (late & _ & _ & _ & -> & _). }
  set (s2 := limit_wait s1) in *.
  pose proof (ws_send_effect m s2) as Hsend. cbv zeta in Hsend.
  destruct Hsend as (Hcfg3 & Hclock3 & Hcount3 & Htime3 & Hwire3).
  destruct (ws_send m s2) as [[[]|e] s3]; simpl in *.
  - split; [| split; [congruence | split; [lia |]]].
    + apply (limiter_ok_sent m s2); try assumption. rewrite Hcfg2. exact Hroom2.
    + rewrite Hwire3, Hclock3, Hwire2, Hwire1. reflexivity.
  - split; [| split; [congruence | split; [lia | congruence]]].
    destruct Hok2 as [I0 I1 I2 I3 I4 I5 I6 I7].
    constructor; rewrite ?Hcfg3, ?Hclock3, ?Hcount3, ?Htime3, ?Hwire3; assumption.
Qed.

(** When the counter has reached the limit inside the window, the send
    ends at least a second after it began. *)
Lemma send_message_waits (m : message) (s : state) :
  message_rate_limit (cfg s) <= message_count s ->
  clock s - message_time s < 1000 ->
  clock s + 1000 <= clock (snd (_send_message m s)).
Proof.
  intros Hfull Hopen. rewrite send_message_steps.
  assert (Hreset : window_reset s = s).
  { unfold window_reset. destruct (1000 <=? clock s - message_time s) eqn:E; [| reflexivity].
    apply Z.leb_le in E. lia. }
  rewrite Hreset.
  assert (Hwait : clock s + 1000 <= clock (limit_wait s)).
  { unfold limit_wait. apply Z.leb_le in Hfull. rewrite Hfull. cbv zeta. simpl.
    destruct (sleep_effect 1 s) as (late & _ & -> & _). lia. }
  pose proof (ws_send_effect m (limit_wait s)) as Hsend. cbv zeta in Hsend.
  destruct Hsend as (_ & Hclock3 & _).
  destruct (ws_send m (limit_wait s)) as [[[]|e] s3]; simpl in *; lia.
Qed.

Lemma run_events_effect (events : list event) :
  forall s, limiter_ok s ->
    let s' := snd (run_events events s) in
    fst (run_events events s) = Ret tt /\
    limiter_ok s' /\ cfg s' = cfg s /\
    exists delivered,
      map snd (wire s') = (map snd (wire s) ++ delivered)%list /\
      sublist delivered (sends_of events).
Proof.
  unfold run_events.
  induction events as [|ev rest IH]; intros s Hok; cbv zeta.
  - simpl. split; [reflexivity |]. split; [assumption |]. split; [reflexivity |].
    exists []. rewrite app_nil_r. split; [reflexivity | constructor].
  - simpl for_each. unfold bind.
    assert (Hstep : exists s1 sent,
               do_event ev s = (Ret tt, s1) /\ limiter_ok s1 /\ cfg s1 = cfg s /\
               map snd (wire s1) = (map snd (wire s) ++ sent)%list /\
               sublist (sent ++ sends_of rest)%list (sends_of (ev :: rest))).
    { destruct ev as [d|m]; simpl do_event.
      - exists (set_clock (clock s + Z.of_N d) s), [].
        split; [reflexivity |]. split; [now apply limiter_ok_elapse |].
        split; [reflexivity |]. simpl. rewrite app_nil_r. split; reflexivity.
      - pose proof (send_message_effect m s Hok) as Heff. cbv zeta in Heff.
        destruct Heff as (Hok1 & Hcfg1 & _ & Hwire1).
        unfold try_except.
        destruct (_send_message m s) as [[[]|e] s1]; simpl in *.
        + exists s1, [m].
          split; [reflexivity |]. split; [assumption |]. split; [assumption |].
          split; [rewrite Hwire1, map_app; reflexivity | reflexivity].
        + exists s1, [].
          split; [reflexivity |]. split; [assumption |]. split; [assumption |].
          split; [rewrite Hwire1, app_nil_r; reflexivity |].
          simpl. now apply sublist_cons. }
    destruct Hstep as (s1 & sent & -> & Hok1 & Hcfg1 & Hwire1 & Hsub).
    destruct (IH s1 Hok1) as (Hret & Hok' & Hcfg' & delivered & Hwire' & Hsub').
    split; [exact Hret |]. split; [exact Hok' |]. split; [congruence |].
    exists (sent ++ delivered)%list. split.
    + rewrite Hwire', Hwire1, <- List.app_assoc. reflexivity.
    + etransitivity; [| exact Hsub]. apply sublist_app; [reflexivity | exact Hsub'].
Qed.

Lemma limiter_ok_start (s : state) :
  1 <= message_rate_limit (cfg s) ->
  wire s = [] -> message_count s = 0 -> message_time s <= clock s ->
  limiter_ok s.
Proof.
  intros Hn Hw Hc Ht. constructor; rewrite ?Hw, ?Hc; simpl; try assumption; try lia.
  all: try (unfold sent_from, sent_between; simpl; intros; lia).
  all: apply List.Forall_nil.
Qed.

(** [_send_message] is [send_begin], the sleep if the caller is
    suspended, and [send_resume]. *)
Lemma send_message_split (m : message) (s : state) :
  _send_message m s =
  (let* suspended := send_begin in
   let* _ := if suspended then sleep 1 else ret tt in
   send_resume suspended m) s.
Proof.
  unfold _send_message, send_begin, send_resume, bind, time_now, get_state, modify, ret.
  destruct (1000 <=? clock s - message_time s); cbv iota beta.
  - cbn [cfg message_count set_message_time set_message_count].
    destruct (message_rate_limit (cfg s) <=? 0); cbv iota beta; [| reflexivity].
    destruct (sleep 1 _) as [[[]|e] s1]; reflexivity.
  - destruct (message_rate_limit (cfg s) <=? message_count s); cbv iota beta; [| reflexivity].
    destruct (sleep 1 s) as [[[]|e] s1]; reflexivity.
Qed.

(** Over an open socket a send takes the next answer of the network:
    granted, it returns with its frame last on the wire; refused, or
    with no answer left, it raises and the wire is as it was. *)
Lemma send_message_granted (m : message) (s : state) (sock : socket) :
  ws s = Some sock -> sock_open sock = true ->
  let s' := snd (_send_message m s) in
  ws s' = ws s /\
  sends (net s') = tail (sends (net s)) /\
  match sends (net s) with
  | true :: _ =>
      fst (_send_message m s) = Ret tt /\ wire s' = (wire s ++ [(clock s', m)])%list
  | _ => fst (_send_message m s) = Raise TransportError /\ wire s' = wire s
  end.
Proof.
  intros Hws Hopen. cbv zeta. rewrite send_message_steps.
  set (s2 := limit_wait (window_reset s)).
  assert (H2 : ws s2 = ws s /\ sends (net s2) = sends (net s) /\ wire s2 = wire s).
  { subst s2. unfold limit_wait, window_reset.
    destruct (1000 <=? clock s - message_time s);
      match goal with |- context [if ?b then _ else _] => destruct b end;
      cbv zeta; unfold sleep; cbn -[Z.add Z.mul];
      try destruct (oversleep (net s)); repeat split; reflexivity. }
  destruct H2 as (Hw2 & Hn2 & Hi2).
  unfold ws_send. rewrite Hw2, Hws, Hopen. cbn [negb]. cbv iota zeta.
  rewrite Hn2. destruct (sends (net s)) as [|[|] rest]; cbn; rewrite ?Hi2, ?Hw2, ?Hws;
    repeat split; reflexivity.
Qed.

Lemma granted_nil (messages : list message) : granted messages [] = [].
Proof. destruct messages; reflexivity. Qed.

(** Sends made one after another over an open socket: the messages on
    the wire are those the network granted, in call order. *)
Lemma run_events_granted (events : list event) :
  forall (s : state) (sock : socket),
    ws s = Some sock -> sock_open sock = true ->
    let s' := snd (run_events events s) in
    ws s' = ws s /\
    map snd (wire s') = (map snd (wire s) ++ granted (sends_of events) (sends (net s)))%list.
Proof.
  unfold run_events.
  induction events as [|ev rest IH]; intros s sock Hws Hopen; cbv zeta.
  - simpl. split; [reflexivity |]. now rewrite app_nil_r.
  - cbn [for_each]. unfold bind. destruct ev as [d|m]; cbn [do_event sends_of].
    + unfold elapse, modify. cbv iota beta.
      destruct (IH (set_clock (clock s + Z.of_N d) s) sock Hws Hopen) as (Hw & Hwire).
      cbv zeta in Hw, Hwire. split; [exact Hw | exact Hwire].
    + pose proof (send_message_granted m s sock Hws Hopen) as Hsend. cbv zeta in Hsend.
      destruct Hsend as (Hw1 & Hn1 & Hcase).
      unfold try_except. destruct (_send_message m s) as [[[]|e] s1]; cbn [fst snd] in *.
      * assert (Hws1 : ws s1 = Some sock) by congruence.
        destruct (IH s1 sock Hws1 Hopen) as (Hw & Hwire). cbv zeta in Hw, Hwire.
        split; [congruence |]. rewrite Hwire, Hn1.
        destruct (sends (net s)) as [|[|] grants]; destruct Hcase as [Hret Hwire1];
          try discriminate.
        rewrite Hwire1, map_app, <- List.app_assoc. reflexivity.
      * unfold ret. assert (Hws1 : ws s1 = Some sock) by congruence.
        destruct (IH s1 sock Hws1 Hopen) as (Hw & Hwire). cbv zeta in Hw, Hwire.
        split; [congruence |]. rewrite Hwire, Hn1.
        destruct (sends (net s)) as [|[|] grants]; destruct Hcase as [Hret Hwire1];
          try discriminate; rewrite Hwire1; cbn [tail]; rewrite ?granted_nil; reflexivity.
Qed.

(** A send that finds room, or finds the window over, does not wait:
    it ends at the clock reading it began at. *)
Lemma send_message_at_once (m : message) (s : state) :
  1 <= message_rate_limit (cfg s) ->
  message_count s < message_rate_limit (cfg s) \/ 1000 <= clock s - message_time s ->
  clock (snd (_send_message m s)) = clock s.
Proof.
  intros Hn Hroom. rewrite send_message_steps.
  assert (H2 : limit_wait (window_reset s) = window_reset s).
  { unfold limit_wait, window_reset.
    destruct (1000 <=? clock s - message_time s) eqn:Ew.
    - cbn [cfg message_count set_message_time set_message_count].
      destruct (message_rate_limit (cfg s) <=? 0) eqn:E0; [| reflexivity].
      apply Z.leb_le in E0. lia.
    - destruct (message_rate_limit (cfg s) <=? message_count s) eqn:E0; [| reflexivity].
      apply Z.leb_le in E0. apply Z.leb_gt in Ew. lia. }
  rewrite H2.
  assert (H1 : clock (window_reset s) = clock s)
    by (unfold window_reset; destruct (_ <=? _); reflexivity).
  pose proof (ws_send_effect m (window_reset s)) as Hsend. cbv zeta in Hsend.
  destruct Hsend as (_ & Hclock & _).
  destruct (ws_send m (window_reset s)) as [[[]|e] s3]; simpl in *; congruence.
Qed.

(** *** Several callers at once *)

Lemma send_begin_run (s : state) :
  send_begin s
  = (Ret (message_rate_limit (cfg s) <=? message_count (window_reset s)), window_reset s).
Proof.
  unfold send_begin, window_reset, bind, time_now, get_state, modify, ret.
  destruct (1000 <=? clock s - message_time s); reflexivity.
Qed.

Lemma sleep_on_time (s : state) :
  oversleep (net s) = [] -> sleep 1 s = (Ret tt, set_clock (clock s + 1000) s).
Proof.
  intros Hov. unfold sleep. rewrite Hov. cbv zeta iota beta.
  destruct s as [c cb sc w ic lp lq mc mt cl n wi sp lg]. destruct n as [co se re ov].
  cbn in *. subst ov. unfold set_clock, set_net. cbn.
  do 2 f_equal. lia.
Qed.

Lemma bind_ret_run {S A B} (c : M S A) (k : A -> M S B) (s s1 : S) (a : A) :
  c s = (Ret a, s1) -> bind c k s = k a s1.
Proof. intros E. unfold bind. now rewrite E. Qed.

(** One caller alone: its turns, which are the call and, if it is
    suspended, the second of sleep and the wake, leave the client as
    [_send_message] does. *)
Lemma lone_caller (m : message) (s : state) :
  oversleep (net s) = [] ->
  run_turns (if message_rate_limit (cfg s) <=? message_count (window_reset s)
             then [Call m; Pause 1000; Wake] else [Call m]) [] s
  = (Ret [], snd (do_event (Send m) s)).
Proof.
  intros Hov. cbn [do_event]. unfold try_except at 1. rewrite send_message_split.
  rewrite (bind_ret_run _ _ _ _ _ (send_begin_run s)).
  assert (Hov1 : oversleep (net (window_reset s)) = []).
  { unfold window_reset. destruct (_ <=? _); exact Hov. }
  destruct (message_rate_limit (cfg s) <=? message_count (window_reset s)) eqn:Efull.
  - rewrite (bind_ret_run _ _ _ _ _ (sleep_on_time _ Hov1)).
    cbn [run_turns do_turn].
    rewrite (bind_ret_run _ _ s (window_reset s)
               [ {| due := clock (window_reset s) + 1000; pending := m |} ]).
    2: { rewrite (bind_ret_run _ _ _ _ _ (send_begin_run s)), Efull. reflexivity. }
    rewrite (bind_ret_run _ _ (window_reset s)
               (set_clock (clock (window_reset s) + 1000) (window_reset s))
               [ {| due := clock (window_reset s) + 1000; pending := m |} ]).
    2: { reflexivity. }
    rewrite (bind_ret_run _ _ _ (snd (try_except (send_resume true m) (fun _ => ret tt)
               (set_clock (clock (window_reset s) + 1000) (window_reset s)))) []).
    2: { unfold bind at 1. unfold time_now at 1. cbv iota beta. cbn [due pending].
         change (clock (set_clock (clock (window_reset s) + 1000) (window_reset s)))
           with (clock (window_reset s) + 1000).
         rewrite Z.leb_refl. unfold bind, try_except, ret.
         destruct (send_resume true m _) as [[[]|e] s3]; reflexivity. }
    unfold ret at 1. unfold try_except.
    destruct (send_resume true m _) as [[[]|e] s3]; reflexivity.
  - change ((let* _ := ret tt in send_resume false m) (window_reset s))
      with (send_resume false m (window_reset s)).
    cbn [run_turns do_turn].
    rewrite (bind_ret_run _ _ _ (snd (try_except (send_resume false m) (fun _ => ret tt)
               (window_reset s))) []).
    2: { rewrite (bind_ret_run _ _ _ _ _ (send_begin_run s)), Efull.
         unfold bind, try_except, ret.
         destruct (send_resume false m _) as [[[]|e] s3]; reflexivity. }
    unfold ret, try_except.
    destruct (send_resume false m _) as [[[]|e] s3]; reflexivity.
Qed.

(** C2 (amended).  The limiter counts frames per window, a window
    starting when the counter is reset.  From a client that has sent
    nothing yet, with a limit [N] of at least 1, and for every sequence
    of pauses and sends made one after another: the counter always
    equals the number of frames sent since the window started and never
    exceeds [N]; any rolling second holds at most [2 N] frames; the
    frames on the wire are the messages of the calls in call order (a
    call that raised has sent none); a call that returns has put its
    frame last on the wire; and a call that finds the counter at [N]
    inside the window ends at least a second after it began.  Every
    message is sent: over an open socket the wire holds exactly the
    messages the network granted, in call order, and the next send the
    network grants returns.  A send that finds room in the window, or
    the window over, goes out at the clock reading it was called at: a
    send is delayed only when the window is full. *)
Theorem rate_limiter_counts_per_window (events : list event) (s : state) :
  1 <= message_rate_limit (cfg s) ->
  wire s = [] -> message_count s = 0 -> message_time s <= clock s ->
  let limit := message_rate_limit (cfg s) in
  let s' := snd (run_events events s) in
  fst (run_events events s) = Ret tt /\
  Z.of_nat (sent_from (message_time s') (wire s')) = message_count s' /\
  message_count s' <= limit /\
  (forall t, Z.of_nat (sent_between t (t + 1000) (wire s')) <= 2 * limit) /\
  sublist (map snd (wire s')) (sends_of events) /\
  (forall m, match fst (_send_message m s') with
             | Ret _ => wire (snd (_send_message m s'))
                        = (wire s' ++ [(clock (snd (_send_message m s')), m)])%list
             | Raise _ => wire (snd (_send_message m s')) = wire s'
             end) /\
  (forall m, limit <= message_count s' -> clock s' - message_time s' < 1000 ->
             clock s' + 1000 <= clock (snd (_send_message m s'))) /\
  (forall sock, ws s = Some sock -> sock_open sock = true ->
                map snd (wire s') = granted (sends_of events) (sends (net s))) /\
  (forall m sock, ws s' = Some sock -> sock_open sock = true ->
                  head (sends (net s')) = Some true ->
                  fst (_send_message m s') = Ret tt) /\
  (forall m, message_count s' < limit \/ 1000 <= clock s' - message_time s' ->
             clock (snd (_send_message m s')) = clock s').
Proof.
  intros Hn Hw Hc Ht. cbv zeta.
  pose proof (run_events_effect events s (limiter_ok_start s Hn Hw Hc Ht)) as Hrun.
  cbv zeta in Hrun.
  destruct Hrun as (Hret & Hok & Hcfg & delivered & Hwire & Hsub).
  rewrite Hw in Hwire. simpl in Hwire.
  split; [exact Hret |].
  split; [exact (count_is_window _ Hok) |].
  split; [rewrite <- Hcfg; exact (proj2 (count_in_range _ Hok)) |].
  split; [intros t; rewrite <- Hcfg; exact (rolling_window _ Hok t) |].
  split; [now rewrite Hwire |].
  split.
  { intros m. pose proof (send_message_effect m _ Hok) as Heff. cbv zeta in Heff.
    now destruct Heff as (_ & _ & _ & Heff). }
  split.
  { intros m Hfull Hopen. apply send_message_waits; [now rewrite Hcfg | exact Hopen]. }
  split.
  { intros sock Hws Hopen.
    destruct (run_events_granted events s sock Hws Hopen) as (_ & Hgr). cbv zeta in Hgr.
    now rewrite Hgr, Hw. }
  split.
  { intros m sock Hws Hopen Hhead.
    pose proof (send_message_granted m _ sock Hws Hopen) as Hsend. cbv zeta in Hsend.
    destruct Hsend as (_ & _ & Hcase).
    destruct (sends (net (snd (run_events events s)))) as [|[|] grants];
      try discriminate. now destruct Hcase. }
  intros m Hroom. apply send_message_at_once; [now rewrite Hcfg | now rewrite Hcfg].
Qed.

End ClientFacts.

(** ** The background duties and the receive loop *)

Section TaskFacts.

Context `{PyRuntime}.

Import WS.

(** *** Relating the state after to the state before *)

Lemma follows_ret {A} (R : state -> state -> Prop) `{!Reflexive R} (a : A) :
  follows R (ret a).
Proof. intros s. reflexivity. Qed.

Lemma follows_raise {A} (R : state -> state -> Prop) `{!Reflexive R} (e : exn) :
  follows R (raise e : M state A).
Proof. intros s. reflexivity. Qed.

Lemma follows_lift {A} (R : state -> state -> Prop) `{!Reflexive R} (o : outcome A) :
  follows R (lift o).
Proof. intros s. reflexivity. Qed.

Lemma follows_get_state (R : state -> state -> Prop) `{!Reflexive R} : follows R get_state.
Proof. intros s. reflexivity. Qed.

Lemma follows_time_now (R : state -> state -> Prop) `{!Reflexive R} : follows R time_now.
Proof. intros s. reflexivity. Qed.

Lemma follows_bind {A B} (R : state -> state -> Prop) `{!Transitive R}
    (c : M state A) (k : A -> M state B) :
  follows R c -> (forall a, follows R (k a)) -> follows R (bind c k).
Proof.
  intros Hc Hk s. unfold bind. specialize (Hc s).
  destruct (c s) as [[a|e] s1]; simpl in *; [| exact Hc].
  etransitivity; [exact Hc | apply Hk].
Qed.

Lemma follows_try_except {A} (R : state -> state -> Prop) `{!Transitive R}
    (c : M state A) (h : exn -> M state A) :
  follows R c -> (forall e, follows R (h e)) -> follows R (try_except c h).
Proof.
  intros Hc Hh s. unfold try_except. specialize (Hc s).
  destruct (c s) as [[a|e] s1]; simpl in *; [exact Hc |].
  etransitivity; [exact Hc | apply Hh].
Qed.

Lemma follows_if {A} (R : state -> state -> Prop) (b : bool) (c1 c2 : M state A) :
  follows R c1 -> follows R c2 -> follows R (if b then c1 else c2).
Proof. now destruct b. Qed.

#[local] Instance undisturbed_refl : Reflexive undisturbed.
Proof. intros s. constructor; reflexivity. Qed.

#[local] Instance undisturbed_trans : Transitive undisturbed.
Proof.
  intros s1 s2 s3 [A1 A2 A3 A4 A5 A6 A7 A8] [B1 B2 B3 B4 B5 B6 B7 B8].
  constructor; try congruence; try lia; etransitivity; eassumption.
Qed.

Lemma undisturbed_sleep (d : Z) : 0 <= d -> follows undisturbed (sleep d).
Proof.
  intros Hd s. unfold sleep. destruct (oversleep (net s)) as [|late rest];
    constructor; simpl; try reflexivity; lia.
Qed.

Lemma undisturbed_connect (url : string) : follows undisturbed (websockets_connect url).
Proof.
  intros s. unfold websockets_connect.
  destruct (connects (net s)) as [|[|] rest]; constructor; simpl; reflexivity.
Qed.

Lemma ping_times_snoc (t : Z) (m : message) (w : list (Z * message)) :
  map fst (List.filter (fun e => is_ping (snd e)) (w ++ [(t, m)]))
  = (map fst (List.filter (fun e => is_ping (snd e)) w)
       ++ (if is_ping m then [t] else []))%list.
Proof.
  rewrite List.filter_app, map_app. simpl. now destruct (is_ping m).
Qed.

Lemma undisturbed_send (m : message) : is_ping m = false -> follows undisturbed (ws_send m).
Proof.
  intros Hm s. unfold ws_send. destruct (ws s) as [sock|]; [| reflexivity].
  destruct (sock_open sock); [| reflexivity]. simpl.
  destruct (sends (net s)) as [|[|] rest]; constructor; simpl; try reflexivity.
  unfold ping_times. simpl. rewrite ping_times_snoc, Hm. apply app_nil_r.
Qed.

Lemma undisturbed_recv : follows undisturbed ws_recv.
Proof.
  intros s. unfold ws_recv. destruct (ws s) as [sock|]; [| reflexivity].
  destruct (sock_open sock); [| reflexivity]. simpl.
  destruct (recvs (net s)) as [|[| | |j] rest]; constructor; simpl; reflexivity.
Qed.

Lemma undisturbed_close : follows undisturbed ws_close.
Proof.
  intros s. unfold ws_close, modify. simpl. destruct (ws s); constructor; reflexivity.
Qed.

Lemma undisturbed_log (lv : level) (msg : string) : follows undisturbed (write_log lv msg).
Proof.
  intros s. constructor; simpl; try reflexivity. now apply prefix_app_r.
Qed.

Lemma undisturbed_spawn (tasks : list string) :
  follows undisturbed (modify (fun s => set_spawned (spawned s ++ tasks) s)).
Proof.
  intros s. constructor; simpl; try reflexivity. now apply prefix_app_r.
Qed.

Lemma undisturbed_modify (g : state -> state) :
  (forall s, undisturbed s (g s)) -> follows undisturbed (modify g).
Proof. intros Hg s. apply Hg. Qed.

Ltac undisturbed :=
  repeat first
    [ assumption
    | match goal with K : forall _, follows undisturbed _ |- _ => apply K end
    | apply follows_bind; [apply undisturbed_trans | | intros ?]
    | apply follows_try_except; [apply undisturbed_trans | | intros ?]
    | apply follows_if
    | apply follows_ret, undisturbed_refl
    | apply follows_raise, undisturbed_refl
    | apply follows_lift, undisturbed_refl
    | apply follows_get_state, undisturbed_refl
    | apply follows_time_now, undisturbed_refl
    | apply undisturbed_sleep; lia
    | apply undisturbed_connect | apply undisturbed_recv | apply undisturbed_close
    | apply undisturbed_log | apply undisturbed_spawn
    | apply undisturbed_send; assumption
    | apply undisturbed_modify; intros ?; constructor; reflexivity
    | match goal with |- follows _ (match ?x with _ => _ end) => destruct x end ].





(** *** [_reconnect] raises nothing but [RecursionError], and returns
    connected *)

Lemma raises_reconnect (attempts : nat) : raises stack_full (_reconnect attempts).
Proof.
  induction attempts as [|attempts IH]; intros s e s'; cbn [_reconnect].
  - intros E. now inversion E.
  - unfold bind at 1. unfold modify at 1. cbv iota beta. unfold try_except.
    match goal with |- context [match ?c ?x with _ => _ end] =>
      destruct (c x) as [[p|e0] s1]
    end.
    + discriminate.
    + unfold bind at 1. unfold write_log at 1, modify at 1. cbv iota beta.
      unfold bind at 1. unfold sleep at 1.
      destruct (oversleep _); apply IH.
Qed.

Lemma keeps_connected_send_message (m : message) : keeps is_connected (_send_message m).
Proof.
  unfold _send_message.
  repeat first
    [ apply keeps_bind; [| intros ?]
    | apply keeps_if
    | apply keeps_ret | apply keeps_get_state | apply keeps_time_now
    | apply keeps_modify; intros ?; reflexivity ].
  - intros s. unfold sleep. destruct (oversleep (net s)); reflexivity.
  - intros s. unfold ws_send. destruct (ws s) as [sock|]; [| reflexivity].
    destruct (sock_open sock); [| reflexivity]. simpl.
    destruct (sends (net s)) as [|[|] rest]; reflexivity.
Qed.

Lemma keeps_connected_authenticate : keeps is_connected _authenticate.
Proof.
  unfold _authenticate, _generate_signature.
  pose proof keeps_connected_send_message as Hs.
  repeat first
    [ apply Hs
    | apply keeps_bind; [| intros ?]
    | apply keeps_if
    | apply keeps_ret | apply keeps_raise | apply keeps_lift | apply keeps_get_state
    | apply keeps_time_now
    | apply keeps_modify; intros ?; reflexivity
    | match goal with |- keeps _ (match ?x with _ => _ end) => destruct x end ].
  intros s. unfold ws_recv. destruct (ws s) as [sock|]; [| reflexivity].
  destruct (sock_open sock); [| reflexivity]. simpl.
  destruct (recvs (net s)) as [|[| | |j] rest]; reflexivity.
Qed.

Lemma keeps_spawned_authenticate : keeps spawned _authenticate.
Proof.
  unfold _authenticate, _generate_signature, _send_message.
  repeat first
    [ apply keeps_bind; [| intros ?]
    | apply keeps_if
    | apply keeps_ret | apply keeps_raise | apply keeps_lift | apply keeps_get_state
    | apply keeps_time_now
    | apply keeps_modify; intros ?; reflexivity
    | match goal with |- keeps _ (match ?x with _ => _ end) => destruct x end ].
  - intros s0. unfold sleep. destruct (oversleep (net s0)); reflexivity.
  - intros s0. unfold ws_send. destruct (ws s0) as [sock|]; [| reflexivity].
    destruct (sock_open sock); [| reflexivity]. simpl.
    destruct (sends (net s0)) as [|[|] rest']; reflexivity.
  - intros s0. unfold ws_recv. destruct (ws s0) as [sock|]; [| reflexivity].
    destruct (sock_open sock); [| reflexivity]. simpl.
    destruct (recvs (net s0)) as [|[| | |j] rest']; reflexivity.
Qed.

(** [_connect], step by step. *)
Lemma connect_run (is_private : bool) (s : state) :
  _connect is_private s =
  let url := if is_private then ws_private_url (cfg s) else ws_public_url (cfg s) in
  let used := set_net {| connects := tail (connects (net s)); sends := sends (net s);
                         recvs := recvs (net s); oversleep := oversleep (net s) |} s in
  match connects (net s) with
  | true :: _ =>
      let s1 := set_log (log s ++ [(INFO, "WebSocket connected")])
                  (set_is_connected true
                     (set_ws (Some {| sock_url := url; sock_open := true |}) used)) in
      match (if is_private then _authenticate else ret tt) s1 with
      | (Ret _, s2) =>
          (Ret tt, set_spawned (spawned s2 ++ ["_keep_alive"; "_monitor_connection"]) s2)
      | (Raise e, s2) =>
          (Raise e, set_log (log s2 ++ [(ERROR, "WebSocket connection failed")])
                      (set_is_connected false s2))
      end
  | _ =>
      (Raise TransportError,
       set_log (log s ++ [(ERROR, "WebSocket connection failed")])
         (set_is_connected false used))
  end.
Proof.
  unfold _connect, bind at 1, get_state at 1, try_except. cbv iota beta zeta.
  unfold bind at 1. unfold websockets_connect at 1.
  destruct (connects (net s)) as [|[|] rest]; cbv iota beta zeta; try reflexivity.
  unfold bind at 1. unfold modify at 1. cbv iota beta.
  unfold bind at 1. unfold modify at 1. cbv iota beta.
  unfold bind at 1. unfold write_log at 1, modify at 1. cbv iota beta.
  unfold bind at 1.
  match goal with |- context [(if is_private then _authenticate else ret tt) ?x] =>
    set (s1 := x)
  end.
  repeat match goal with |- context [(if is_private then _authenticate else ret tt) ?y] =>
    lazymatch y with s1 => fail | _ => change y with s1 end
  end.
  destruct ((if is_private then _authenticate else ret tt) s1) as [[[]|e] s2]; reflexivity.
Qed.

(** [_connect] when it returns: the client is connected and two more
    tasks have been started; when it raises: the client is not
    connected and no task has been started. *)
Lemma connect_outcome (is_private : bool) (s : state) :
  match fst (_connect is_private s) with
  | Ret _ =>
      is_connected (snd (_connect is_private s)) = true /\
      spawned (snd (_connect is_private s))
      = (spawned s ++ ["_keep_alive"; "_monitor_connection"])%list
  | Raise _ =>
      is_connected (snd (_connect is_private s)) = false /\
      spawned (snd (_connect is_private s)) = spawned s
  end.
Proof.
  rewrite connect_run. cbv zeta.
  destruct (connects (net s)) as [|[|] rest]; try (split; reflexivity).
  match goal with |- context [(if is_private then _authenticate else ret tt) ?x] =>
    set (s1 := x);
    assert (Ha : is_connected (snd ((if is_private then _authenticate else ret tt) s1)) = true
                 /\ spawned (snd ((if is_private then _authenticate else ret tt) s1))
                    = spawned s)
  end.
  { destruct is_private; [| split; reflexivity]. split.
    - now rewrite keeps_connected_authenticate.
    - now rewrite keeps_spawned_authenticate. }
  destruct ((if is_private then _authenticate else ret tt) s1) as [[[]|e] s2];
    simpl in Ha |- *; destruct Ha as [Hc2 Hsp2].
  - split; [exact Hc2 | now rewrite Hsp2].
  - split; [reflexivity | exact Hsp2].
Qed.


(** *** The connection monitor *)





(** *** The keep-alive *)







(** *** Connecting and closing *)

Lemma keeps_ws_authenticate : keeps ws _authenticate.
Proof.
  unfold _authenticate, _generate_signature, _send_message.
  repeat first
    [ apply keeps_bind; [| intros ?]
    | apply keeps_if
    | apply keeps_ret | apply keeps_raise | apply keeps_lift | apply keeps_get_state
    | apply keeps_time_now
    | apply keeps_modify; intros ?; reflexivity
    | match goal with |- keeps _ (match ?x with _ => _ end) => destruct x end ].
  - intros s0. unfold sleep. destruct (oversleep (net s0)); reflexivity.
  - intros s0. unfold ws_send. destruct (ws s0) as [sock|] eqn:Ew; [| simpl; exact Ew].
    destruct (sock_open sock); [| simpl; exact Ew]. simpl.
    destruct (sends (net s0)) as [|[|] rest']; simpl; exact Ew.
  - intros s0. unfold ws_recv. destruct (ws s0) as [sock|] eqn:Ew; [| simpl; exact Ew].
    destruct (sock_open sock); [| simpl; exact Ew]. simpl.
    destruct (recvs (net s0)) as [|[| | |j] rest']; simpl; exact Ew.
Qed.

(** Without a passphrase in the settings the login stops at the
    subscript, with nothing sent. *)
Lemma authenticate_without_passphrase (s : state) (k : string) (v : pyval) (e : exn) :
  item (api_config (cfg s)) "secret_key" = Ret (Json (JStr k)) ->
  item (api_config (cfg s)) "api_key" = Ret v ->
  item (api_config (cfg s)) "passphrase" = Raise e ->
  _authenticate s = (Raise e, s).
Proof.
  intros Hs Ha Hp. unfold _authenticate. unfold bind at 1. unfold time_now at 1.
  cbv iota beta zeta. unfold bind at 1. rewrite ws_signature_run, Hs.
  cbn [and_then encode]. cbv iota beta.
  unfold bind at 1. unfold get_state at 1. cbv iota beta.
  unfold bind at 1. unfold lift at 1. rewrite Ha. cbv iota beta.
  unfold bind at 1. unfold lift at 1. rewrite Hp. reflexivity.
Qed.

(** [_connect] ends in one of two ways.  It returns: the client is
    connected over an open socket to the URL asked for, and two more
    background tasks have been started (none is ever stopped).  Or it
    raises: the client is marked as not connected and no task has been
    started; when the failure came after the socket was opened (a
    login that was refused or went unanswered) the socket is left as it
    is, open.  A private connection needs a passphrase in the settings:
    without one the login raises the [KeyError] of the subscript before
    any frame is sent, and the "bybit" section of a [Config], which is
    what a client is given, has none. *)
Theorem connect_starts_tasks_or_leaves_socket_open (is_private : bool) (s : state) :
  let s' := snd (_connect is_private s) in
  let url := if is_private then ws_private_url (cfg s) else ws_public_url (cfg s) in
  match fst (_connect is_private s) with
  | Ret _ =>
      is_connected s' = true /\
      ws s' = Some {| sock_url := url; sock_open := true |} /\
      spawned s' = (spawned s ++ ["_keep_alive"; "_monitor_connection"])%list
  | Raise _ =>
      is_connected s' = false /\
      spawned s' = spawned s /\
      ws s' = match connects (net s) with
              | true :: _ => Some {| sock_url := url; sock_open := true |}
              | _ => ws s
              end
  end /\
  registry s' = registry s /\
  (forall k v e,
     is_private = true ->
     head (connects (net s)) = Some true ->
     item (api_config (cfg s)) "secret_key" = Ret (Json (JStr k)) ->
     item (api_config (cfg s)) "api_key" = Ret v ->
     item (api_config (cfg s)) "passphrase" = Raise e ->
     fst (_connect is_private s) = Raise e /\ wire s' = wire s) /\
  (forall env c,
     Settings.__init__ env = Ret c ->
     api_config (cfg s) = Settings.get_config c "bybit" ->
     is_private = true ->
     head (connects (net s)) = Some true ->
     fst (_connect is_private s) = Raise (KeyError "passphrase") /\ wire s' = wire s).
Proof.
  cbv zeta.
  assert (Hkey : forall k v e,
            is_private = true ->
            head (connects (net s)) = Some true ->
            item (api_config (cfg s)) "secret_key" = Ret (Json (JStr k)) ->
            item (api_config (cfg s)) "api_key" = Ret v ->
            item (api_config (cfg s)) "passphrase" = Raise e ->
            fst (_connect is_private s) = Raise e /\
            wire (snd (_connect is_private s)) = wire s).
  { intros k v e -> Hc Hs Ha Hp. rewrite connect_run. cbv zeta.
    destruct (connects (net s)) as [|[|] rest]; try discriminate.
    match goal with |- context [_authenticate ?x] =>
      rewrite (authenticate_without_passphrase x k v e Hs Ha Hp)
    end.
    split; reflexivity. }
  split; [| split; [apply keeps_registry_connect_method | split; [exact Hkey |]]].
  2: { intros env c Hinit Hcfg Hpriv Hc.
       destruct (bybit_section_credentials env c Hinit) as ((k & Hk) & (sk & Hsk) & Hp).
       rewrite <- Hcfg in Hk, Hsk, Hp.
       exact (Hkey sk (Json (JStr k)) (KeyError "passphrase") Hpriv Hc Hsk Hk Hp). }
  pose proof (connect_outcome is_private s) as Ho.
  rewrite connect_run in *. cbv zeta in *.
  destruct (connects (net s)) as [|[|] rest]; try (repeat split; reflexivity).
  match goal with |- context [(if is_private then _authenticate else ret tt) ?x] =>
    set (s1 := x) in *;
    assert (Hw : ws (snd ((if is_private then _authenticate else ret tt) s1)) = ws s1)
  end.
  { destruct is_private; [apply keeps_ws_authenticate | reflexivity]. }
  destruct ((if is_private then _authenticate else ret tt) s1) as [[[]|e] s2];
    simpl in Ho, Hw |- *; destruct Ho as [Hc Hsp].
  - split; [exact Hc |]. split; [rewrite Hw; reflexivity | exact Hsp].
  - split; [exact Hc |]. split; [exact Hsp | rewrite Hw; reflexivity].
Qed.

(** [close] marks the client as not connected and closes the socket; it
    leaves the registry as it is.  After it the keep-alive and the
    monitor end at their next check, and closing again changes
    nothing. *)
Theorem close_stops_the_background_tasks (passes attempts : nat) (s : state) :
  let s' := snd (close s) in
  fst (close s) = Ret tt /\
  is_connected s' = false /\
  registry s' = registry s /\
  ws s' = option_map (fun sock => {| sock_url := sock_url sock; sock_open := false |}) (ws s) /\
  _keep_alive passes attempts s' = (Ret Returned, s') /\
  _monitor_connection passes attempts s' = (Ret Returned, s') /\
  close s' = (Ret tt, s').
Proof.
  assert (E : close s
              = (Ret tt,
                 match ws s with
                 | Some sock =>
                     set_ws (Some {| sock_url := sock_url sock; sock_open := false |})
                       (set_is_connected false s)
                 | None => set_is_connected false s
                 end)).
  { unfold close, ws_close, bind, modify, get_state. cbv beta iota.
    change (ws (set_is_connected false s)) with (ws s).
    destruct (ws s) eqn:Hw; cbv beta iota; [| reflexivity].
    change (ws (set_is_connected false s)) with (ws s). now rewrite Hw. }
  cbv zeta. rewrite E. simpl fst. simpl snd. clear E.
  destruct (ws s) as [sock|] eqn:Hws.
  - repeat split; try reflexivity.
    + destruct passes; reflexivity.
    + destruct passes; reflexivity.
  - repeat split; try reflexivity.
    + simpl. now rewrite Hws.
    + destruct passes; reflexivity.
    + destruct passes; reflexivity.
    + unfold close, ws_close, bind, modify, get_state. cbn. now rewrite Hws.
Qed.

(** *** Calls that fail and the registry *)

Lemma for_each_app {A} (xs ys : list A) (body : A -> M state unit) (s : state) :
  for_each (xs ++ ys) body s
  = match for_each xs body s with
    | (Ret _, s1) => for_each ys body s1
    | (Raise e, s1) => (Raise e, s1)
    end.
Proof.
  revert s. induction xs as [|x xs IH]; intros s; [reflexivity |].
  cbn [app for_each]. unfold bind.
  destruct (body x s) as [[[]|e] s1]; [apply IH | reflexivity].
Qed.

Lemma subscribe_loop_good (good : list channel_arg) (callback : Callable) :
  Forall (fun ch => exists k, channel_key ch = Ret k) good ->
  forall s, fst (subscribe_loop good callback s) = Ret tt.
Proof.
  induction 1 as [|ch rest [k Hk] _ IH]; intros s; [reflexivity |].
  rewrite subscribe_loop_cons, Hk. apply IH.
Qed.

(** A call that fails may leave the registry half-way.  When the frame
    cannot be sent, [subscribe] and [unsubscribe] raise with the
    registry as it was.  When the frame was sent and one of the channels
    lacks a field, [subscribe] raises with the frame on the wire and
    the channels listed before the faulty one registered; the ones
    after it are not. *)
Theorem failing_subscribe_registers_part (good rest : list channel_arg) (bad : channel_arg)
    (callback : Callable) (s : state) (e : exn) :
  is_connected s = true ->
  max_channels_per_conn (cfg s)
    >= len_channels s + Z.of_nat (length (good ++ bad :: rest)) ->
  Forall (fun ch => exists k, channel_key ch = Ret k) good ->
  channel_key bad = Raise e ->
  let channels := (good ++ bad :: rest)%list in
  let sent := snd (_send_message (Op "subscribe" channels) s) in
  (forall e', fst (_send_message (Op "subscribe" channels) s) = Raise e' ->
     fst (subscribe channels callback s) = Raise e' /\
     registry (snd (subscribe channels callback s)) = registry s) /\
  (fst (_send_message (Op "subscribe" channels) s) = Ret tt ->
     fst (subscribe channels callback s) = Raise e /\
     callbacks (snd (subscribe channels callback s))
     = implied_step (callbacks s) (Subscribe good callback) /\
     wire (snd (subscribe channels callback s)) = wire sent /\
     exists t, last (wire sent) = Some (t, Op "subscribe" channels)).
Proof.
  intros Hconn Hcap Hgood Hbad channels sent.
  assert (E : subscribe channels callback s
              = (let* _ := _send_message (Op "subscribe" channels) in
                 subscribe_loop channels callback) s).
  { rewrite subscribe_unfold.
    assert ((max_channels_per_conn (cfg s) <? len_channels s + Z.of_nat (length channels))
            = false) as -> by (apply Z.ltb_ge; subst channels; lia).
    rewrite Hconn. reflexivity. }
  rewrite E. unfold bind. subst sent.
  pose proof (keeps_registry_send_message (Op "subscribe" channels) s) as Hreg.
  split.
  - intros e' He'. destruct (_send_message (Op "subscribe" channels) s) as [[[]|e0] s1];
      simpl in *; [discriminate |]. inversion He'; subst. auto.
  - intros Hsent.
    assert (Hwire : exists t, last (wire (snd (_send_message (Op "subscribe" channels) s)))
                              = Some (t, Op "subscribe" channels)).
    { rewrite send_message_steps in *.
      pose proof (ws_send_effect (Op "subscribe" channels) (limit_wait (window_reset s)))
        as Heff. cbv zeta in Heff. destruct Heff as (_ & _ & _ & _ & Hw).
      destruct (ws_send (Op "subscribe" channels) (limit_wait (window_reset s)))
        as [[[]|e0] s3]; simpl in *; [| discriminate].
      rewrite Hw. rewrite last_snoc. eauto. }
    destruct (_send_message (Op "subscribe" channels) s) as [[[]|e0] s1];
      simpl in *; [| discriminate].
    apply registry_fields in Hreg as [Hcb _].
    unfold subscribe_loop at 1 2 3. subst channels.
    rewrite !for_each_app. fold (subscribe_loop good callback).
    pose proof (subscribe_loop_good good callback Hgood s1) as Hg.
    destruct (subscribe_loop_returns good callback s1 Hg) as [Hcbs _].
    assert (Hw : wire (snd (subscribe_loop good callback s1)) = wire s1).
    { assert (K : keeps wire (subscribe_loop good callback)).
      { unfold subscribe_loop. apply keeps_for_each. intros ch.
        repeat first [ apply keeps_bind; [| intros ?] | apply keeps_lift
                     | apply keeps_modify; intros ?; reflexivity ]. }
      apply K. }
    destruct (subscribe_loop good callback s1) as [[[]|e0] s2]; simpl in *;
      [| discriminate].
    cbn [for_each]. unfold bind, lift. rewrite Hbad. simpl.
    split; [reflexivity |]. split; [now rewrite Hcbs, Hcb |].
    split; [exact Hw | exact Hwire].
Qed.

(** *** The receive loop *)

Section Receiving.

Variable py_str : json -> string.
Variable callback_fails : Callable -> json -> bool.

Lemma message_key_raises (channel_info : json) (e : exn) :
  message_key py_str channel_info = Raise e -> e <> TransportError.
Proof.
  unfold message_key, json_item, item, and_then.
  destruct channel_info as [| b | q | t | l | d]; try (intros E; inversion E; discriminate).
  repeat match goal with
         | |- context [assoc ?k d] => destruct (assoc k d)
         end; intros E; inversion E; discriminate.
Qed.

Lemma receive_body_run (ss : session) (sock : socket) (m : incoming) (rest : list incoming) :
  ws (client ss) = Some sock -> sock_open sock = true ->
  recvs (net (client ss)) = m :: rest -> m <> Dropped ->
  exists o ss',
    receive_body py_str callback_fails ss = (o, ss') /\
    o <> Raise TransportError /\
    delivered ss'
    = (delivered ss ++ match addressee py_str (callbacks (client ss)) m with
                       | Some x => [x]
                       | None => []
                       end)%list /\
    after_message (client ss) (client ss') m rest.
Proof.
  intros Hws Hopen Hrecv Hm. destruct ss as [s dl]. simpl in *.
  unfold receive_body, bind at 1, on_client at 1, ws_recv. simpl.
  rewrite Hws, Hopen, Hrecv. simpl.
  unfold after_message.
  destruct m as [| | | data]; [contradiction | | |]; simpl.
  - eexists _, _. split; [reflexivity |]. split; [discriminate |].
    split; [now rewrite app_nil_r |]. repeat split; reflexivity.
  - eexists _, _. split; [reflexivity |]. split; [discriminate |].
    split; [now rewrite app_nil_r |]. repeat split; reflexivity.
  - destruct data as [| b | q | t | l | d];
      try (eexists _, _; split; [reflexivity |]; split; [discriminate |];
           split; [now rewrite app_nil_r |]; repeat split; reflexivity).
    unfold bind at 1, lift at 1. cbn [dict_get].
    destruct (eq_str _ "error").
    { eexists _, _. split; [reflexivity |]. split; [discriminate |].
      split; [now rewrite app_nil_r |]. repeat split; reflexivity. }
    destruct (has_key "arg" d && has_key "data" d).
    2:{ eexists _, _. split; [reflexivity |]. split; [discriminate |].
        split; [now rewrite app_nil_r |]. repeat split; reflexivity. }
    unfold bind at 1, lift at 1.
    destruct (item d "arg") as [channel_info|e] eqn:Ei.
    2:{ eexists _, _. split; [reflexivity |]. split.
        - unfold item in Ei. destruct (assoc "arg" d); inversion Ei. discriminate.
        - split; [now rewrite app_nil_r |]. repeat split; reflexivity. }
    unfold bind at 1, lift at 1.
    destruct (message_key py_str channel_info) as [k|e] eqn:Ek.
    2:{ eexists _, _. split; [reflexivity |]. split.
        - intros E. inversion E; subst. now apply message_key_raises in Ek.
        - split; [now rewrite app_nil_r |]. repeat split; reflexivity. }
    unfold bind at 1, get_state at 1. simpl.
    destruct (callbacks s !! k) as [cb|]; simpl.
    + unfold invoke. simpl. eexists _, _. split; [reflexivity |]. split.
      * destruct (callback_fails cb (JDict d)); discriminate.
      * split; [reflexivity |]. repeat split; reflexivity.
    + eexists _, _. split; [reflexivity |]. split; [discriminate |].
      split; [now rewrite app_nil_r |]. repeat split; reflexivity.
Qed.

Lemma receive_pass_run (attempts : nat) (ss : session) (sock : socket) (m : incoming)
    (rest : list incoming) :
  ws (client ss) = Some sock -> sock_open sock = true ->
  recvs (net (client ss)) = m :: rest -> m <> Dropped ->
  exists ss',
    receive_pass py_str callback_fails attempts ss = (Ret tt, ss') /\
    delivered ss'
    = (delivered ss ++ match addressee py_str (callbacks (client ss)) m with
                       | Some x => [x]
                       | None => []
                       end)%list /\
    after_message (client ss) (client ss') m rest.
Proof.
  intros Hws Hopen Hrecv Hm.
  destruct (receive_body_run ss sock m rest Hws Hopen Hrecv Hm)
    as (o & ss1 & E & Ho & Hd & Ha).
  unfold receive_pass. rewrite E.
  destruct o as [[]|e].
  - exists ss1. auto.
  - assert (Hlog : exists ss2,
              on_client (write_log ERROR "message handling failed") ss1 = (Ret tt, ss2) /\
              delivered ss2 = delivered ss1 /\
              after_message (client ss) (client ss2) m rest).
    { eexists. split; [reflexivity |]. split; [reflexivity |]. exact Ha. }
    destruct Hlog as (ss2 & E2 & Hd2 & Ha2).
    destruct e; try (exists ss2; rewrite E2, Hd2; auto).
    now destruct Ho.
Qed.

Lemma receive_pass_raises (attempts : nat) (ss : session) (e : exn) (ss' : session) :
  receive_pass py_str callback_fails attempts ss = (Raise e, ss') -> e = RecursionError.
Proof.
  unfold receive_pass.
  destruct (receive_body py_str callback_fails ss) as [[[]|e0] ss1]; [discriminate |].
  destruct e0; try discriminate.
  unfold on_client, bind, write_log, modify. simpl.
  pose proof (raises_reconnect attempts
                (set_log (log (client ss1) ++ [(WARNING, "connection closed")]) (client ss1)))
    as Hr.
  destruct (_reconnect attempts _) as [o s1]. simpl. intros E. inversion E; subst.
  exact (Hr e s1 eq_refl).
Qed.

(** [start] catches whatever the receive loop raises. *)
Lemma returns_start (restarts passes attempts : nat) :
  returns (start py_str callback_fails restarts passes attempts).
Proof.
  induction restarts as [|restarts IH]; intros ss; cbn [start]; [now exists Retrying |].
  unfold try_except, bind at 1.
  destruct (_handle_messages py_str callback_fails passes attempts ss) as [[[|]|e] ss1].
  - destruct (IH ss1) as [p Hp].
    destruct (start py_str callback_fails restarts passes attempts ss1) as [o ss2].
    simpl in Hp. subst o. now exists p.
  - now exists Retrying.
  - unfold bind, on_client, write_log, modify. simpl.
    unfold sleep. destruct (oversleep _); apply IH.
Qed.

(** When the socket yields a message, a pass of the receive loop hands
    it to the callback registered under the message's channel key,
    whole and once, and to nobody when the key is not registered or
    the message is a pong, an error event, unreadable or incomplete; a
    callback that raises is logged and the loop goes on.  A pong renews
    the time of the last pong; nothing else does.  The one exception
    that leaves a pass is the [RecursionError] of the reconnect after a
    closed connection, and [start] catches it: [start] never raises. *)
Theorem receive_pass_hands_message_to_its_addressee (attempts : nat) (ss : session) :
  (forall e ss', receive_pass py_str callback_fails attempts ss = (Raise e, ss') ->
     e = RecursionError) /\
  (forall restarts passes,
     exists p ss', start py_str callback_fails restarts passes attempts ss = (Ret p, ss')) /\
  (forall sock m rest,
     ws (client ss) = Some sock -> sock_open sock = true ->
     recvs (net (client ss)) = m :: rest -> m <> Dropped ->
     exists ss',
       receive_pass py_str callback_fails attempts ss = (Ret tt, ss') /\
       delivered ss'
       = (delivered ss ++ match addressee py_str (callbacks (client ss)) m with
                          | Some x => [x]
                          | None => []
                          end)%list /\
       after_message (client ss) (client ss') m rest) /\
  (forall m callback data,
     addressee py_str (callbacks (client ss)) m = Some (callback, data) ->
     m = Payload data /\ exists k, callbacks (client ss) !! k = Some callback) /\
  addressee py_str (callbacks (client ss)) Pong = None /\
  addressee py_str (callbacks (client ss)) Malformed = None.
Proof.
  split; [intros e ss'; apply receive_pass_raises |].
  split.
  { intros restarts passes.
    destruct (returns_start restarts passes attempts ss) as [p Hp].
    destruct (start py_str callback_fails restarts passes attempts ss) as [o ss'].
    simpl in Hp. subst o. eauto. }
  split; [intros sock m rest; apply receive_pass_run |].
  split; [| split; reflexivity].
  intros m callback data. unfold addressee.
  destruct m as [| | | [| b | q | t | l | d]]; try discriminate.
  destruct (eq_str _ "error"); [discriminate |].
  destruct (has_key "arg" d && has_key "data" d); [| discriminate].
  destruct (item d "arg") as [channel_info|e]; [| discriminate].
  destruct (message_key py_str channel_info) as [k|e]; [| discriminate].
  destruct (callbacks (client ss) !! k) as [cb|] eqn:Ek; [| discriminate].
  simpl. intros E. inversion E; subst. eauto.
Qed.

Hypothesis py_str_text : forall t, py_str (JStr t) = t.

(** The key of a message that names a channel by three texts is the
    key [subscribe] files the channel under. *)
Lemma message_key_fields (ad : list (string * json)) (a b c : string) :
  assoc "instType" ad = Some (JStr a) -> assoc "channel" ad = Some (JStr b) ->
  assoc "instId" ad = Some (JStr c) ->
  message_key py_str (JDict ad) = Ret (a ++ "." ++ b ++ "." ++ c).
Proof.
  intros Ha Hb Hc. unfold message_key, json_item, item, and_then.
  now rewrite Ha, Hb, Hc, !py_str_text.
Qed.

Lemma addressee_of_channel (cbs : gmap string Callable) (d ad : list (string * json))
    (a b c : string) :
  assoc "arg" d = Some (JDict ad) ->
  assoc "instType" ad = Some (JStr a) -> assoc "channel" ad = Some (JStr b) ->
  assoc "instId" ad = Some (JStr c) ->
  has_key "data" d = true ->
  eq_str (match assoc "event" d with Some e => e | None => JNull end) "error" = false ->
  addressee py_str cbs (Payload (JDict d))
  = option_map (fun cb => (cb, JDict d)) (cbs !! (a ++ "." ++ b ++ "." ++ c)).
Proof.
  intros Harg Ha Hb Hc Hdata Hev. unfold addressee. rewrite Hev.
  unfold has_key at 1. rewrite Harg, Hdata. simpl. unfold item. rewrite Harg.
  now rewrite (message_key_fields ad a b c).
Qed.

(** Subscribing decides who gets a channel's messages.  After a
    [subscribe] that returned, a message that names the channel by its
    three fields is handed to the callback of that call; after an
    [unsubscribe] that returned, it is handed to nobody. *)
Theorem subscription_decides_delivery (attempts : nat) (channel : channel_arg)
    (callback : Callable) (s : state) (handed : list (Callable * json))
    (a b c : string) (d ad : list (string * json)) :
  channel_key channel = Ret (a ++ "." ++ b ++ "." ++ c) ->
  assoc "arg" d = Some (JDict ad) ->
  assoc "instType" ad = Some (JStr a) -> assoc "channel" ad = Some (JStr b) ->
  assoc "instId" ad = Some (JStr c) ->
  has_key "data" d = true ->
  eq_str (match assoc "event" d with Some e => e | None => JNull end) "error" = false ->
  (fst (subscribe [channel] callback s) = Ret tt ->
   forall sock rest,
     let s1 := snd (subscribe [channel] callback s) in
     ws s1 = Some sock -> sock_open sock = true ->
     recvs (net s1) = Payload (JDict d) :: rest ->
     exists ss',
       receive_pass py_str callback_fails attempts {| client := s1; delivered := handed |}
       = (Ret tt, ss') /\
       delivered ss' = (handed ++ [(callback, JDict d)])%list) /\
  (fst (unsubscribe [channel] s) = Ret tt ->
   forall sock rest,
     let s1 := snd (unsubscribe [channel] s) in
     ws s1 = Some sock -> sock_open sock = true ->
     recvs (net s1) = Payload (JDict d) :: rest ->
     exists ss',
       receive_pass py_str callback_fails attempts {| client := s1; delivered := handed |}
       = (Ret tt, ss') /\
       delivered ss' = handed).
Proof.
  intros Hkey Harg Ha Hb Hc Hdata Hev. split.
  - intros Hret sock rest s1 Hws Hopen Hrecv.
    destruct (subscribe_returns [channel] callback s Hret) as [Hcb _].
    fold s1 in Hcb. simpl in Hcb. unfold key_of in Hcb. rewrite Hkey in Hcb.
    destruct (receive_pass_run attempts {| client := s1; delivered := handed |}
                sock (Payload (JDict d)) rest Hws Hopen Hrecv ltac:(discriminate))
      as (ss' & E & Hd & _).
    exists ss'. split; [exact E |]. rewrite Hd. cbn [client delivered].
    rewrite (addressee_of_channel _ d ad a b c) by assumption.
    rewrite Hcb, lookup_insert_eq. reflexivity.
  - intros Hret sock rest s1 Hws Hopen Hrecv.
    destruct (unsubscribe_returns [channel] s Hret) as [Hcb _].
    fold s1 in Hcb. simpl in Hcb. unfold key_of in Hcb. rewrite Hkey in Hcb.
    destruct (receive_pass_run attempts {| client := s1; delivered := handed |}
                sock (Payload (JDict d)) rest Hws Hopen Hrecv ltac:(discriminate))
      as (ss' & E & Hd & _).
    exists ss'. split; [exact E |]. rewrite Hd. cbn [client delivered].
    rewrite (addressee_of_channel _ d ad a b c) by assumption.
    rewrite Hcb, lookup_delete_eq. simpl. apply app_nil_r.
Qed.

(** [start] never connects.  On a client that is not connected the
    receive loop returns at once, and [start] calls it again at once:
    however long it is observed, it has not returned, and the client,
    the socket, the clock and the log are as they were. *)
Theorem start_spins_while_disconnected (restarts passes attempts : nat) (ss : session) :
  is_connected (client ss) = false ->
  _handle_messages py_str callback_fails passes attempts ss = (Ret Returned, ss) /\
  start py_str callback_fails restarts passes attempts ss = (Ret Retrying, ss).
Proof.
  intros Hc.
  assert (Hh : _handle_messages py_str callback_fails passes attempts ss = (Ret Returned, ss)).
  { destruct passes; cbn [_handle_messages]; now rewrite Hc. }
  split; [exact Hh |].
  induction restarts as [|restarts IH]; cbn [start]; [reflexivity |].
  unfold try_except, bind. rewrite Hh. rewrite IH. reflexivity.
Qed.

End Receiving.

End TaskFacts.

(** ** Reconnecting and subscribing on a client that is not connected *)

Section ReconnectFacts.

Context `{PyRuntime}.

Import WS.

Lemma reconnect_attempt_unregistered (s : state) :
  len_channels s = 0 ->
  let closed := snd ((match ws s with Some _ => ws_close | None => ret tt end) s) in
  reconnect_attempt s
  = match _connect false closed with
    | (Ret _, s2) => (Ret tt, s2)
    | (Raise e, s2) => (Raise e, s2)
    end /\
  spawned closed = spawned s /\ clock closed = clock s /\ registry closed = registry s /\
  net closed = net s.
Proof.
  intros Hlen. cbv zeta.
  assert (Hclosed : exists s1,
            (match ws s with Some _ => ws_close | None => ret tt end) s = (Ret tt, s1) /\
            spawned s1 = spawned s /\ clock s1 = clock s /\ registry s1 = registry s /\
            net s1 = net s).
  { destruct (ws s); eexists; (split; [reflexivity |]); repeat split;
      unfold ws_close, modify; simpl; destruct (ws s); reflexivity. }
  destruct Hclosed as (s1 & E1 & Hsp & Hclk & Hreg & Hnet).
  rewrite E1. simpl snd. split; [| auto].
  unfold reconnect_attempt, bind at 1, get_state at 1. cbv iota beta.
  unfold bind at 1. rewrite E1. cbv iota beta.
  unfold bind at 1, get_state at 1. cbv iota beta.
  assert (Hlen1 : len_channels s1 = 0).
  { unfold len_channels in *. apply registry_fields in Hreg as [_ ->]. exact Hlen. }
  rewrite Hlen1. change (0 <? 0) with false.
  unfold bind at 1.
  pose proof (keeps_registry_connect_method false s1) as Hreg2.
  destruct (_connect false s1) as [[[]|e] s2]; [| reflexivity].
  simpl in Hreg2. unfold bind at 1, get_state at 1. cbv iota beta.
  assert (Hlen2 : len_channels s2 = 0).
  { unfold len_channels in *. apply registry_fields in Hreg2 as [_ ->]. exact Hlen1. }
  rewrite Hlen2. reflexivity.
Qed.

(** One attempt of [_reconnect] with nothing in the registry: it
    returns when the connection goes through, and otherwise is one
    attempt further, five seconds later at the least. *)
Lemma reconnect_round (attempts : nat) (s : state) :
  len_channels s = 0 ->
  match connects (net s) with
  | true :: _ =>
      exists s', _reconnect (S attempts) s = (Ret tt, s') /\
                 is_connected s' = true /\
                 spawned s' = (spawned s ++ ["_keep_alive"; "_monitor_connection"])%list /\
                 registry s' = registry s /\ clock s' = clock s
  | _ =>
      exists s3, _reconnect (S attempts) s = _reconnect attempts s3 /\
                 is_connected s3 = false /\ spawned s3 = spawned s /\
                 registry s3 = registry s /\ clock s + 5000 <= clock s3 /\
                 connects (net s3) = tail (connects (net s))
  end.
Proof.
  intros Hlen.
  set (s0 := set_is_connected false s).
  assert (Hlen0 : len_channels s0 = 0) by exact Hlen.
  pose proof (reconnect_attempt_unregistered s0 Hlen0) as Hattempt. cbv zeta in Hattempt.
  remember (snd ((match ws s0 with Some _ => ws_close | None => ret tt end) s0)) as s1
    eqn:Es1.
  clear Es1. destruct Hattempt as (Ea & Hsp & Hclk & Hreg & Hnet).
  change (net s0) with (net s) in Hnet.
  assert (E : _reconnect (S attempts) s
              = match _connect false s1 with
                | (Ret _, s2) => (Ret tt, s2)
                | (Raise _, s2) =>
                    (let* _ := write_log ERROR "reconnect failed" in
                     let* _ := sleep 5 in
                     _reconnect attempts) s2
                end).
  { change (_reconnect (S attempts) s) with
      ((let* _ := modify (set_is_connected false) in
        try_except reconnect_attempt
          (fun e =>
           let* _ := write_log ERROR "reconnect failed" in
           let* _ := sleep 5 in
           _reconnect attempts)) s).
    unfold bind at 1. unfold modify at 1. cbv iota beta. fold s0.
    unfold try_except. rewrite Ea.
    destruct (_connect false s1) as [[[]|e] s2]; reflexivity. }
  rewrite E. clear E Ea. rewrite connect_run. cbv zeta. rewrite Hnet.
  assert (Hpause : forall x : state,
            exists s3, (let* _ := write_log ERROR "reconnect failed" in
                        let* _ := sleep 5 in
                        _reconnect attempts) x = _reconnect attempts s3 /\
                       is_connected s3 = is_connected x /\ spawned s3 = spawned x /\
                       registry s3 = registry x /\ clock x + 5000 <= clock s3 /\
                       connects (net s3) = connects (net x)).
  { intros x. unfold bind at 1. unfold write_log at 1, modify at 1. cbv iota beta.
    unfold bind at 1. unfold sleep.
    destruct (oversleep (net (set_log (log x ++ [(ERROR, "reconnect failed")]) x)))
      as [|late more]; eexists; (split; [reflexivity |]); simpl; repeat split; lia. }
  destruct (connects (net s)) as [|[|] rest].
  - match goal with |- context [(let* _ := write_log _ _ in _) ?x] =>
      destruct (Hpause x) as (s3 & E3 & Hc3 & Hsp3 & Hr3 & Hk3 & Hn3)
    end.
    exists s3. split; [exact E3 |].
    assert (Hr3' : registry s3 = registry s1) by exact Hr3.
    simpl in Hc3, Hsp3, Hk3, Hn3.
    split; [exact Hc3 |]. split; [now rewrite Hsp3, Hsp |].
    split; [now rewrite Hr3', Hreg |]. split; [rewrite Hclk in Hk3; exact Hk3 | exact Hn3].
  - cbv iota beta. unfold ret at 1. cbv iota beta.
    eexists. split; [reflexivity |]. simpl.
    split; [reflexivity |]. split; [now rewrite Hsp |]. split; [exact Hreg | exact Hclk].
  - match goal with |- context [(let* _ := write_log _ _ in _) ?x] =>
      destruct (Hpause x) as (s3 & E3 & Hc3 & Hsp3 & Hr3 & Hk3 & Hn3)
    end.
    exists s3. split; [exact E3 |].
    assert (Hr3' : registry s3 = registry s1) by exact Hr3.
    simpl in Hc3, Hsp3, Hk3, Hn3.
    split; [exact Hc3 |]. split; [now rewrite Hsp3, Hsp |].
    split; [now rewrite Hr3', Hreg |]. split; [rewrite Hclk in Hk3; exact Hk3 | exact Hn3].
Qed.

(** With nothing in the registry, [_reconnect] returns as soon as a
    connection goes through, if the stack lasts that long: after [k]
    refused connections it returns at attempt [k + 1], connected, with
    two more background tasks started, no sooner than [5 k] seconds
    after it began (the pause between attempts is five seconds each
    time; it does not grow).  With room for no more than [k] attempts
    it ends by [RecursionError] instead, five seconds at the least for
    each attempt made, with no task started.  The registry is as it
    was either way. *)
Theorem reconnect_returns_once_connected (attempts k : nat) (rest : list bool) (s : state) :
  len_channels s = 0 ->
  connects (net s) = (repeat false k ++ true :: rest)%list ->
  let s' := snd (_reconnect attempts s) in
  registry s' = registry s /\
  ((k < attempts)%nat ->
   fst (_reconnect attempts s) = Ret tt /\
   is_connected s' = true /\
   spawned s' = (spawned s ++ ["_keep_alive"; "_monitor_connection"])%list /\
   clock s + 5000 * Z.of_nat k <= clock s') /\
  ((attempts <= k)%nat ->
   fst (_reconnect attempts s) = Raise RecursionError /\
   spawned s' = spawned s /\
   clock s + 5000 * Z.of_nat attempts <= clock s').
Proof.
  revert k s. induction attempts as [|attempts IH]; intros k s Hlen Hnet; cbv zeta.
  - cbn [_reconnect]. simpl. split; [reflexivity |]. split; [lia |].
    intros _. repeat split; try reflexivity. lia.
  - pose proof (reconnect_round attempts s Hlen) as Hround. rewrite Hnet in Hround.
    destruct k as [|k]; cbn [repeat app] in Hround.
    + destruct Hround as (s1 & E & Hc & Hsp & Hreg & Hclk). rewrite E. simpl.
      split; [exact Hreg |]. split; [| lia].
      intros _. repeat split; try assumption. lia.
    + destruct Hround as (s3 & E & Hc & Hsp & Hreg & Hclk & Hn3). rewrite E.
      cbn [tail] in Hn3.
      assert (Hlen3 : len_channels s3 = 0).
      { unfold len_channels in *. apply registry_fields in Hreg as [_ ->]. exact Hlen. }
      destruct (IH k s3 Hlen3 Hn3) as (Hr & Hdone & Hnot).
      split; [now rewrite Hr |]. split.
      * intros Hlt. destruct Hdone as (H1 & H2 & H3 & H4); [lia |].
        split; [exact H1 |]. split; [exact H2 |]. split; [now rewrite H3, Hsp | lia].
      * intros Hle. destruct Hnot as (H1 & H2 & H3); [lia |].
        split; [exact H1 |]. split; [now rewrite H2, Hsp | lia].
Qed.

(** *** Subscribing on a client that is not connected *)

Lemma send_message_wire (m : message) (s : state) :
  let s' := snd (_send_message m s) in
  ws s' = ws s /\ spawned s' = spawned s /\
  match fst (_send_message m s) with
  | Ret _ => exists t, wire s' = (wire s ++ [(t, m)])%list
  | Raise _ => wire s' = wire s
  end.
Proof.
  cbv zeta. rewrite send_message_steps.
  set (s1 := window_reset s).
  assert (H1 : ws s1 = ws s /\ spawned s1 = spawned s /\ wire s1 = wire s).
  { subst s1. unfold window_reset. destruct (_ <=? _); repeat split; reflexivity. }
  destruct H1 as (Hw1 & Hs1 & Hi1).
  set (s2 := limit_wait s1).
  assert (H2 : ws s2 = ws s1 /\ spawned s2 = spawned s1 /\ wire s2 = wire s1).
  { subst s2. unfold limit_wait. destruct (_ <=? _); [| repeat split; reflexivity].
    cbv zeta. unfold sleep. destruct (oversleep (net s1)); repeat split; reflexivity. }
  destruct H2 as (Hw2 & Hs2 & Hi2).
  assert (H3 : let s3 := snd (ws_send m s2) in
               ws s3 = ws s2 /\ spawned s3 = spawned s2 /\
               match fst (ws_send m s2) with
               | Ret _ => wire s3 = (wire s2 ++ [(clock s2, m)])%list
               | Raise _ => wire s3 = wire s2
               end).
  { unfold ws_send. destruct (ws s2) as [sock|] eqn:Ew; [| repeat split; simpl; auto].
    destruct (sock_open sock); [| repeat split; simpl; auto]. simpl.
    destruct (sends (net s2)) as [|[|] rest]; repeat split; simpl; auto. }
  cbv zeta in H3. destruct H3 as (Hw3 & Hs3 & Hi3).
  destruct (ws_send m s2) as [[[]|e] s3]; simpl in *.
  - split; [congruence |]. split; [congruence |]. exists (clock s2). congruence.
  - split; [congruence |]. split; congruence.
Qed.

Lemma keeps_loop_fields (channels : list channel_arg) (callback : Callable) :
  keeps (fun s => (ws s, spawned s, wire s)) (subscribe_loop channels callback).
Proof.
  unfold subscribe_loop. apply keeps_for_each. intros ch.
  repeat first [ apply keeps_bind; [| intros ?] | apply keeps_lift
               | apply keeps_modify; intros ?; reflexivity ].
Qed.

(** [subscribe] on a client that is not connected connects first, and
    always to the public URL: it never logs in.  When the connection is
    refused the call raises with the registry and the wire as they
    were.  When it is granted, the two background tasks are started and
    the only frame the call can add to the wire is its subscribe
    frame. *)
Theorem subscribe_connects_to_the_public_url (channels : list channel_arg)
    (callback : Callable) (s : state) :
  is_connected s = false ->
  len_channels s + Z.of_nat (length channels) <= max_channels_per_conn (cfg s) ->
  let s' := snd (subscribe channels callback s) in
  match connects (net s) with
  | true :: _ =>
      ws s' = Some {| sock_url := ws_public_url (cfg s); sock_open := true |} /\
      spawned s' = (spawned s ++ ["_keep_alive"; "_monitor_connection"])%list /\
      (wire s' = wire s \/ exists t, wire s' = (wire s ++ [(t, Op "subscribe" channels)])%list)
  | _ =>
      fst (subscribe channels callback s) = Raise TransportError /\
      registry s' = registry s /\ wire s' = wire s /\
      is_connected s' = false /\ spawned s' = spawned s
  end.
Proof.
  intros Hconn Hcap. cbv zeta.
  assert (E : subscribe channels callback s
              = match _connect false s with
                | (Ret _, s1) =>
                    match _send_message (Op "subscribe" channels) s1 with
                    | (Ret _, s2) => subscribe_loop channels callback s2
                    | (Raise e, s2) => (Raise e, s2)
                    end
                | (Raise e, s1) => (Raise e, s1)
                end).
  { rewrite subscribe_unfold.
    assert ((max_channels_per_conn (cfg s) <? len_channels s + Z.of_nat (length channels))
            = false) as -> by (apply Z.ltb_ge; lia).
    rewrite Hconn. cbn [negb]. unfold bind.
    destruct (_connect false s) as [[[]|e] s1]; reflexivity. }
  rewrite E. clear E. rewrite connect_run. cbv zeta.
  destruct (connects (net s)) as [|[|] rest]; try (repeat split; reflexivity).
  cbv iota beta. unfold ret. cbv iota beta.
  match goal with |- context [_send_message _ ?x] => set (s1 := x) end.
  pose proof (send_message_wire (Op "subscribe" channels) s1) as Hsend. cbv zeta in Hsend.
  destruct Hsend as (Hw & Hsp & Hwire).
  destruct (_send_message (Op "subscribe" channels) s1) as [[[]|e] s2]; simpl in Hw, Hsp, Hwire.
  - pose proof (keeps_loop_fields channels callback s2) as K.
    destruct (subscribe_loop channels callback s2) as [o s3]. simpl in K |- *.
    inversion K as [[K1 K2 K3]]. rewrite K1, K2, K3, Hw, Hsp.
    split; [reflexivity |]. split; [reflexivity |]. right. exact Hwire.
  - simpl. rewrite Hw, Hsp, Hwire. split; [reflexivity |]. split; [reflexivity |]. now left.
Qed.

End ReconnectFacts.

(** ** The operations run on concrete inputs *)

Section Runs.

#[local] Existing Instance decimal_runtime.

Import Inputs.

(** C3, as first stated, fails, in three ways.  An order 45 seconds
    old that carries no order id is past the threshold, and the sweep
    leaves it alone, its only request being the fetch.  With an order
    whose creation time is no number in second place, the sweep cancels
    the first order and raises [ValueError]: it returns no list, and
    the order in third place, 31 seconds old, is not cancelled.  And
    when the answer to a cancellation is a list, the sweep raises
    [AttributeError] once that cancellation is sent. *)
Lemma stale_sweep_skips_order_without_id :
  Bitget.aged sweep_time anonymous_order = true /\
  fst (Bitget.cancel_all_pending_orders "BTCUSDT"
         (gateway sweep_time
            [ Bitget.Answer 90 200
                (success (JDict [ ("entrustedList", JList [anonymous_order]) ])) ]))
  = Ret [] /\
  map Bitget.req_method
    (Bitget.calls
       (snd (Bitget.cancel_all_pending_orders "BTCUSDT"
               (gateway sweep_time
                  [ Bitget.Answer 90 200
                      (success (JDict [ ("entrustedList", JList [anonymous_order]) ])) ]))))
  = ["GET"] /\
  Bitget.order_time (JDict undated_order) = Raise ValueError /\
  Bitget.aged sweep_time (pending_order "1002" "1700000014000") = true /\
  fst (Bitget.cancel_all_pending_orders "BTCUSDT"
         (gateway sweep_time (Bitget.Answer 90 200 (JDict pending_with_undated) :: cancel_replies)))
  = Raise ValueError /\
  map Bitget.req_json
    (Bitget.calls
       (snd (Bitget.cancel_all_pending_orders "BTCUSDT"
               (gateway sweep_time
                  (Bitget.Answer 90 200 (JDict pending_with_undated) :: cancel_replies)))))
  = [ None; Some (JDict [ ("symbol", JStr "BTCUSDT"); ("orderId", JStr "1003") ]) ] /\
  fst (Bitget.cancel_all_pending_orders "BTCUSDT"
         (gateway sweep_time [ Bitget.Answer 90 200 (JDict three_pending); answer_in_a_list ]))
  = Raise AttributeError /\
  map Bitget.req_json
    (Bitget.calls
       (snd (Bitget.cancel_all_pending_orders "BTCUSDT"
               (gateway sweep_time
                  [ Bitget.Answer 90 200 (JDict three_pending); answer_in_a_list ]))))
  = [ None; Some (JDict [ ("symbol", JStr "BTCUSDT"); ("orderId", JStr "1002") ]) ].
Proof. vm_compute. repeat split. Qed.

(** The sweep on orders aged 10, 31 and 45 seconds: two of the three
    are cancelled, the youngest is not, and the failed cancellation is
    in the results. *)
Lemma stale_sweep_three_orders :
  exists (s' : Bitget.state) (fetch : Bitget.request) (cancels : list Bitget.request),
    Bitget.cancel_all_pending_orders "BTCUSDT"
      (gateway sweep_time (Bitget.Answer 90 200 (JDict three_pending) :: cancel_replies))
    = (Ret [ Some (JDict [ ("code", JStr "00000") ]); None ], s') /\
    Bitget.calls s' = fetch :: cancels /\
    map Bitget.req_json cancels
    = [ Some (JDict [ ("symbol", JStr "BTCUSDT"); ("orderId", JStr "1002") ]);
        Some (JDict [ ("symbol", JStr "BTCUSDT"); ("orderId", JStr "1003") ]) ].
Proof.
  destruct (stale_sweep_cancels_identified_aged_orders (H := decimal_runtime) "BTCUSDT"
              (gateway sweep_time (Bitget.Answer 90 200 (JDict three_pending) :: cancel_replies))
              90 200 three_pending
              [ ("entrustedList", JList three_orders); ("endId", JStr "1003") ]
              three_orders cancel_replies eq_refl eq_refl eq_refl)
    as [_ Hsweep].
  destruct Hsweep as (s' & fetch & cancels & E & Hcalls & _ & _ & Hmap & _).
  - reflexivity.
  - repeat constructor; try (eexists; reflexivity).
  - repeat constructor. intros _. eexists; reflexivity.
  - exists s', fetch, cancels. split; [exact E |]. split; [exact Hcalls | exact Hmap].
Defined.



(** C2, as first stated, fails.  With the limit at 10, one caller
    sending ten frames at 999 ms and fifteen more a millisecond later
    puts twenty frames on the wire within the second that starts at
    999 ms.  With several callers it fails further.  Ten tasks send at
    clock 0 and twenty-one more call half a second later: each of them
    finds the counter at 10 and is suspended, and each, when resumed at
    1500 ms, resets the counter and sends, so twenty-one frames leave
    at one instant and the counter says 1.  And a task that calls at
    500 ms and is suspended until 1500 ms is overtaken by a task that
    calls at 1000 ms, when the window is over: the twelfth message is
    on the wire before the eleventh.  Last, with the limit set to 0 a
    single send puts one frame on the wire, which is more than twice
    the limit. *)
Lemma burst_puts_twenty_frames_in_one_second :
  WS.message_rate_limit (WS.cfg (connected_client 25)) = 10 /\
  map fst (WS.wire (run_on (WS.run_events burst) (connected_client 25)))
  = (repeat 999 10 ++ repeat 1000 10 ++ repeat 2000 5)%list /\
  WS.sent_between 999 (999 + 1000)
    (WS.wire (run_on (WS.run_events burst) (connected_client 25))) = 20%nat /\
  WS.calls_of crowd = map numbered (seq 1 31) /\
  fst (WS.run_turns crowd [] (connected_client 31)) = Ret [] /\
  map fst (WS.wire (run_on (WS.run_turns crowd []) (connected_client 31)))
  = (repeat 0 10 ++ repeat 1500 21)%list /\
  WS.sent_between 1500 (1500 + 1000)
    (WS.wire (run_on (WS.run_turns crowd []) (connected_client 31))) = 21%nat /\
  WS.message_count (run_on (WS.run_turns crowd []) (connected_client 31)) = 1 /\
  WS.calls_of overtaking = map numbered (seq 1 12) /\
  fst (WS.run_turns overtaking [] (connected_client 12)) = Ret [] /\
  WS.wire (run_on (WS.run_turns overtaking []) (connected_client 12))
  = (map (fun i => (0, numbered i)) (seq 1 10)
       ++ [ (1000, numbered 12); (1500, numbered 11) ])%list /\
  WS.message_rate_limit (WS.cfg zero_limit_client) = 0 /\
  WS.wire (run_on (WS.run_events [ WS.Send (numbered 1) ]) zero_limit_client)
  = [ (1000, numbered 1) ].
Proof. vm_compute. repeat split. Qed.

(** The same burst within the limiter's own terms: the window that
    started at 2000 ms holds five frames, every rolling second holds
    at most twenty, and the frames left in call order. *)
Lemma burst_within_fixed_windows :
  WS.message_count (run_on (WS.run_events burst) (connected_client 25)) = 5 /\
  (forall t, Z.of_nat (WS.sent_between t (t + 1000)
                         (WS.wire (run_on (WS.run_events burst) (connected_client 25))))
             <= 2 * 10) /\
  map snd (WS.wire (run_on (WS.run_events burst) (connected_client 25)))
  = map numbered (seq 1 25).
Proof.
  destruct (rate_limiter_counts_per_window burst (connected_client 25))
    as (_ & _ & _ & Hroll & _); [vm_compute; discriminate | reflexivity ..| vm_compute; discriminate |].
  split; [reflexivity |]. split; [exact Hroll | reflexivity].
Defined.

(** C4, as first stated, fails: with fifty channels subscribed, a
    subscribe to one of them would leave fifty channels subscribed, and
    it is refused with the capacity error. *)
Lemma resubscribe_at_capacity_is_refused :
  size (WS.subscribed_channels full_client) = 50%nat /\
  WS.key_of (ticker "SYM0") = Some "USDT-FUTURES.ticker.SYM0" /\
  WS.callbacks full_client !! "USDT-FUTURES.ticker.SYM0" = Some (WS.Handler 0) /\
  size ({["USDT-FUTURES.ticker.SYM0"]} ∪ WS.subscribed_channels full_client) = 50%nat /\
  WS.max_channels_per_conn (WS.cfg full_client) = 50 /\
  fst (WS.subscribe [ticker "SYM0"] (WS.Handler 1) full_client)
  = Raise (WS.capacity_error 50).
Proof. vm_compute. repeat split. Qed.

(** C9, as first stated, fails: two channels with different fields
    share the key SPOT.USDT.ticker.BTC.  Subscribing to both leaves one
    entry, and unsubscribing from the first removes the entry of the
    second, which no call unsubscribed. *)
Lemma colliding_keys_share_one_entry :
  WS.identity spot_usdt_ticker = Some ("SPOT.USDT", "ticker", "BTC") /\
  WS.identity spot_usdt_dot_ticker = Some ("SPOT", "USDT.ticker", "BTC") /\
  WS.key_of spot_usdt_ticker = WS.key_of spot_usdt_dot_ticker /\
  fst (WS.run_calls [ WS.Subscribe [spot_usdt_ticker] (WS.Handler 1);
                      WS.Subscribe [spot_usdt_dot_ticker] (WS.Handler 2) ]
         (fresh_client (granting 1 3 []))) = Ret tt /\
  size (WS.subscribed_channels
          (run_on (WS.run_calls [ WS.Subscribe [spot_usdt_ticker] (WS.Handler 1);
                                  WS.Subscribe [spot_usdt_dot_ticker] (WS.Handler 2) ])
             (fresh_client (granting 1 3 [])))) = 1%nat /\
  fst (WS.run_calls [ WS.Subscribe [spot_usdt_ticker] (WS.Handler 1);
                      WS.Subscribe [spot_usdt_dot_ticker] (WS.Handler 2);
                      WS.Unsubscribe [spot_usdt_ticker] ]
         (fresh_client (granting 1 3 []))) = Ret tt /\
  size (WS.subscribed_channels
          (run_on (WS.run_calls [ WS.Subscribe [spot_usdt_ticker] (WS.Handler 1);
                                  WS.Subscribe [spot_usdt_dot_ticker] (WS.Handler 2);
                                  WS.Unsubscribe [spot_usdt_ticker] ])
             (fresh_client (granting 1 3 [])))) = 0%nat.
Proof. vm_compute. repeat split. Qed.

(** Two subscribes and an unsubscribe on ordinary channels: the
    registry is the implied one, and the second subscribe to BTCUSDT
    has replaced its callback. *)
Lemma registry_after_three_calls :
  WS.callbacks
    (run_on (WS.run_calls [ WS.Subscribe [ticker "BTCUSDT"; ticker "ETHUSDT"] (WS.Handler 1);
                            WS.Unsubscribe [ticker "ETHUSDT"];
                            WS.Subscribe [ticker "BTCUSDT"] (WS.Handler 2) ])
       (fresh_client (granting 1 3 [])))
    !! "USDT-FUTURES.ticker.BTCUSDT" = Some (WS.Handler 2) /\
  size (WS.subscribed_channels
          (run_on (WS.run_calls [ WS.Subscribe [ticker "BTCUSDT"; ticker "ETHUSDT"] (WS.Handler 1);
                                  WS.Unsubscribe [ticker "ETHUSDT"];
                                  WS.Subscribe [ticker "BTCUSDT"] (WS.Handler 2) ])
             (fresh_client (granting 1 3 [])))) = 1%nat.
Proof.
  destruct (registry_follows_successful_calls (H := decimal_runtime)
              [ WS.Subscribe [ticker "BTCUSDT"; ticker "ETHUSDT"] (WS.Handler 1);
                WS.Unsubscribe [ticker "ETHUSDT"];
                WS.Subscribe [ticker "BTCUSDT"] (WS.Handler 2) ]
              (fresh_client (granting 1 3 [])))
    as (_ & _ & _ & Hlast & _); [reflexivity | reflexivity |].
  split; [| reflexivity].
  apply (Hlast [ WS.Subscribe [ticker "BTCUSDT"; ticker "ETHUSDT"] (WS.Handler 1);
                 WS.Unsubscribe [ticker "ETHUSDT"] ]
               [ticker "BTCUSDT"] (WS.Handler 2) (ticker "BTCUSDT"));
    [reflexivity | now left | reflexivity].
Defined.

(** A client subscribed to one channel reconnects, with room on the
    stack for three nested attempts.  With the settings of [Config],
    which hold no passphrase, each attempt connects and fails at the
    login; with settings that hold one, each attempt is logged in and
    fails at the call of [subscribe].  Either way the third attempt is
    the last the stack has room for, and the one subscribe frame on the
    wire is the one sent before the reconnect. *)
Lemma reconnect_three_attempts :
  (fst (WS._reconnect 3 subscribed_client) = Raise RecursionError /\
   WS.registry (snd (WS._reconnect 3 subscribed_client)) = WS.registry subscribed_client /\
   WS.subscribe_frames (snd (WS._reconnect 3 subscribed_client))
   = WS.subscribe_frames subscribed_client) /\
  (fst (WS._reconnect 3 keyed_client) = Raise RecursionError /\
   WS.registry (snd (WS._reconnect 3 keyed_client)) = WS.registry keyed_client /\
   WS.subscribe_frames (snd (WS._reconnect 3 keyed_client))
   = WS.subscribe_frames keyed_client).
Proof.
  split.
  - apply (reconnect_never_resubscribes (H := decimal_runtime) 3 subscribed_client).
    vm_compute. reflexivity.
  - apply (reconnect_never_resubscribes (H := decimal_runtime) 3 keyed_client).
    vm_compute. reflexivity.
Defined.





(** A limit order at 65000.26 is submitted at 65000.3; an order type
    the table does not know is submitted as a limit order. *)
Lemma place_order_rounds_price :
  exists (r : Bitget.request) (s' : Bitget.state) (body : list (string * json)),
    Bitget.place_order "BTCUSDT" "buy" "open" "0.01" "USDT" "limit" (JStr "65000.26") JNull
      (gateway 5 [ Bitget.Answer 120 200 (success JNull) ])
    = (Ret (Some (success JNull)), s') /\
    Bitget.calls s' = [r] /\
    Bitget.req_json r = Some (JDict body) /\
    assoc "orderType" body = Some (JStr "limit") /\
    assoc "price" body = Some (JStr "65000.3") /\
    Bitget.mapped_order_type "iceberg" = "limit".
Proof.
  destruct (place_order_normalises_and_maps (H := decimal_runtime)
              "BTCUSDT" "buy" "open" "0.01" "USDT" "limit" (JStr "65000.26") JNull
              (gateway 5 [ Bitget.Answer 120 200 (success JNull) ]))
    as (_ & _ & r & s' & body & E & Hcalls & _ & Hjson & Htype & Hprice & _).
  exists r, s', body. repeat split; assumption || reflexivity.
Defined.

(** A flat position and a query that timed out: the same return
    value. *)
Lemma flat_and_failed_look_alike :
  fst (Bitget.get_position "BTCUSDT"
         (gateway 5 [ Bitget.Answer 80 200 (success (JList [flat])) ]))
  = fst (Bitget.get_position "BTCUSDT" (gateway 5 [ Bitget.NoAnswer 5000 ])).
Proof.
  destruct (get_position_null_is_ambiguous (H := decimal_runtime) "BTCUSDT")
    as (_ & _ & _ & _ & Hsame).
  apply (Hsame _ _ 80 200 (success (JList [flat])) [] flat 0%Q); reflexivity.
Defined.

(** A client at capacity asked for a fifty-first channel. *)
Lemma subscribe_past_capacity :
  WS.subscribe [ticker "NEW"] (WS.Handler 1) full_client
  = (Raise (WS.capacity_error 50), full_client).
Proof.
  destruct (subscribe_capacity_counts_requested_channels (H := decimal_runtime)
              [ticker "NEW"] (WS.Handler 1) full_client) as [_ Hfail].
  apply Hfail. vm_compute. reflexivity.
Defined.

End Runs.

(** ** More runs on concrete inputs *)

Section MoreRuns.

#[local] Existing Instance decimal_runtime.

Import Inputs.

#[local] Arguments Ret {A} & a.

Lemma environment_numbers :
  Settings.numeric_settings environment 3306 (JNum 10) (JNum (2 # 100)) (JNum (2 # 100)).
Proof. repeat split; vm_compute; reflexivity. Defined.

Lemma environment_config : Settings.__init__ environment = Ret main_config.
Proof. vm_compute. reflexivity. Defined.

(** The settings of [environment] make a [Config]; without the
    database password they do not; with [RISK_PERCENTAGE=nan] they do,
    and the risk percentage of the trading section is [nan]. *)
Lemma config_from_environment :
  (exists c, Settings.__init__ environment = Ret c) /\
  Settings.__init__ (delete "DB_PASSWORD" environment) = Raise ValueError /\
  (exists c, Settings.__init__ (<["RISK_PERCENTAGE" := "nan"]> environment) = Ret c /\
             item (Settings.get_config c "trading") "risk_percentage" = Ret (Float NaN)).
Proof.
  split; [| split].
  - destruct (config_is_built_from_valid_settings (H := decimal_runtime)
                environment 3306 (JNum 10) (JNum (2 # 100)) (JNum (2 # 100))
                environment_numbers)
      as ([_ Hbuilt] & _).
    apply Hbuilt.
    split; [| split; [| split; [| split]]];
      try (eexists; split; [vm_compute; reflexivity | discriminate]).
    + reflexivity.
    + discriminate.
  - destruct (config_is_built_from_valid_settings (H := decimal_runtime)
                (delete "DB_PASSWORD" environment) 3306 (JNum 10) (JNum (2 # 100))
                (JNum (2 # 100)))
      as (_ & _ & Hfails & _).
    + repeat split; vm_compute; reflexivity.
    + apply Hfails. intros (_ & _ & (v & Hv & _) & _). vm_compute in Hv. discriminate.
  - destruct (config_is_built_from_valid_settings (H := decimal_runtime)
                (<["RISK_PERCENTAGE" := "nan"]> environment) 3306 (JNum 10) (Float NaN)
                (JNum (2 # 100)))
      as ([_ Hbuilt] & Hheld & _).
    + repeat split; vm_compute; reflexivity.
    + destruct Hbuilt as [c Hc].
      * split; [| split; [| split]];
          try (eexists; split; [vm_compute; reflexivity | discriminate]).
        exact I.
      * exists c. split; [exact Hc |]. now apply Hheld.
Defined.

(** [BYBIT_TESTNET=false] selects the main network. *)
Lemma base_url_on_main_network :
  Settings.get_bybit_base_url main_config = Ret (JStr "https://api.bybit.com").
Proof.
  destruct (base_url_is_testnet_unless_told_otherwise (H := decimal_runtime)
              environment main_config environment_config) as [_ Hset].
  apply (Hset "false"). vm_compute. reflexivity.
Defined.

(** The "bybit" section of [main_config]. *)
Lemma bybit_section_of_main_config :
  map fst (Settings.get_config main_config "bybit")
  = [ "testnet"; "base_url_testnet"; "base_url_mainnet"; "api_key"; "secret_key" ] /\
  item (Settings.get_config main_config "bybit") "passphrase" = Raise (KeyError "passphrase") /\
  Settings.get_config main_config "exchange" = [].
Proof.
  destruct (bybit_section_holds_keys_and_no_passphrase (H := decimal_runtime)
              environment main_config environment_config) as (Hkeys & _ & _ & Hpass & Hother).
  split; [exact Hkeys |]. split; [exact Hpass |].
  apply Hother; discriminate.
Defined.

(** The same parameters in two orders: one signature. *)
Lemma signature_of_swapped_parameters :
  BybitClient.signature_payload [ ("symbol", "BTCUSDT"); ("side", "Buy") ] 1700000000000
  = BybitClient.signature_payload [ ("side", "Buy"); ("symbol", "BTCUSDT") ] 1700000000000 /\
  BybitClient._generate_signature "secret" [ ("symbol", "BTCUSDT"); ("side", "Buy") ]
    1700000000000
  = BybitClient._generate_signature "secret" [ ("side", "Buy"); ("symbol", "BTCUSDT") ]
      1700000000000.
Proof.
  destruct (signature_ignores_parameter_order (H := decimal_runtime) "secret"
              [ ("symbol", "BTCUSDT"); ("side", "Buy") ]
              [ ("side", "Buy"); ("symbol", "BTCUSDT") ] 1700000000000)
    as (Hp & Hs & _).
  - apply perm_swap.
  - simpl. constructor; [| constructor; [| constructor]].
    + intros Hin. apply list_elem_of_In in Hin. destruct Hin as [Hin|[]]. discriminate.
    + intros Hin. apply list_elem_of_In in Hin. destruct Hin.
  - split; assumption.
Defined.

(** The query of an order lookup, written in two orders: the same
    headers. *)
Lemma headers_of_swapped_query :
  Bitget._create_headers "GET" "/api/v2/mix/order/detail?symbol=BTCUSDT&orderId=1" ""
    (gateway 1700000000000 [])
  = Bitget._create_headers "GET" "/api/v2/mix/order/detail?orderId=1&symbol=BTCUSDT" ""
      (gateway 1700000000000 []).
Proof.
  destruct (headers_ignore_query_order (H := decimal_runtime) "GET"
              "/api/v2/mix/order/detail" ""
              [ "symbol=BTCUSDT"; "orderId=1" ] [ "orderId=1"; "symbol=BTCUSDT" ]
              (gateway 1700000000000 [])) as [Hsame _].
  - unfold free_of. simpl. intros Hin.
    repeat (destruct Hin as [Hin|Hin]; [discriminate |]). exact Hin.
  - discriminate.
  - repeat constructor; unfold free_of; simpl; intros Hin;
      repeat (destruct Hin as [Hin|Hin]; [discriminate |]); exact Hin.
  - apply perm_swap.
  - exact Hsame.
Defined.

(** A fetch answered with an error code: nothing is cancelled. *)
Lemma sweep_after_error_code :
  exists (fetch : Bitget.request) (s' : Bitget.state),
    Bitget.cancel_all_pending_orders "BTCUSDT"
      (gateway sweep_time [ Bitget.Answer 90 400 (JDict [ ("code", JStr "40001") ]) ])
    = (Ret [], s') /\
    Bitget.calls s' = [fetch] /\ Bitget.req_method fetch = "GET".
Proof.
  apply (sweep_after_refused_fetch_cancels_nothing (H := decimal_runtime) "BTCUSDT"
           (gateway sweep_time [ Bitget.Answer 90 400 (JDict [ ("code", JStr "40001") ]) ])).
  right. eexists. split; reflexivity.
Defined.

(** Three pending orders, the second without a readable creation time:
    the first is cancelled, then the sweep raises. *)
Lemma sweep_with_undated_order :
  exists (s' : Bitget.state) (fetch : Bitget.request) (cancels : list Bitget.request),
    Bitget.cancel_all_pending_orders "BTCUSDT"
      (gateway sweep_time (Bitget.Answer 90 200 (JDict pending_with_undated) :: cancel_replies))
    = (Raise ValueError, s') /\
    Bitget.calls s' = fetch :: cancels /\
    map Bitget.req_json cancels
    = [ Some (JDict [ ("symbol", JStr "BTCUSDT"); ("orderId", JStr "1003") ]) ].
Proof.
  destruct (sweep_stops_at_unreadable_order (H := decimal_runtime) "BTCUSDT"
              (gateway sweep_time
                 (Bitget.Answer 90 200 (JDict pending_with_undated) :: cancel_replies))
              90 200 pending_with_undated
              [ ("entrustedList",
                 JList ([ pending_order "1003" "1700000000000" ]
                          ++ JDict undated_order :: [ pending_order "1002" "1700000014000" ])) ]
              undated_order [ pending_order "1003" "1700000000000" ]
              [ pending_order "1002" "1700000014000" ] cancel_replies ValueError
              eq_refl eq_refl eq_refl eq_refl)
    as (s' & fetch & cancels & E & Hcalls & _ & _ & Hmap).
  - repeat constructor; try (eexists; reflexivity).
  - repeat constructor. intros _. eexists; reflexivity.
  - reflexivity.
  - exists s', fetch, cancels. split; [exact E |]. split; [exact Hcalls | exact Hmap].
Defined.


(** A ticker update after subscribing to the ticker, and after
    unsubscribing from it. *)
Lemma ticker_update_after_subscribing :
  exists ss',
    WS.receive_pass render never_fails 1
      {| WS.client := snd (WS.subscribe [ticker "BTCUSDT"] (WS.Handler 7)
                             (fresh_client (granting 1 1 [ WS.Payload (JDict ticker_update) ])));
         WS.delivered := [] |}
    = (Ret tt, ss') /\
    WS.delivered ss' = [ (WS.Handler 7, JDict ticker_update) ].
Proof.
  destruct (subscription_decides_delivery (H := decimal_runtime) render never_fails
              (fun t => eq_refl) 1 (ticker "BTCUSDT") (WS.Handler 7)
              (fresh_client (granting 1 1 [ WS.Payload (JDict ticker_update) ])) []
              "USDT-FUTURES" "ticker" "BTCUSDT" ticker_update ticker_arg
              eq_refl eq_refl eq_refl eq_refl eq_refl eq_refl eq_refl) as [Hsub _].
  apply (Hsub ltac:(vm_compute; reflexivity)
           {| WS.sock_url := "wss://ws.bitget.com/v2/ws/public"; WS.sock_open := true |} []);
    vm_compute; reflexivity.
Defined.

(** [start] on a client that was never connected. *)
Lemma start_on_fresh_client :
  WS.start render never_fails 1000 10 3
    {| WS.client := fresh_client (granting 5 5 []); WS.delivered := [] |}
  = (Ret WS.Retrying, {| WS.client := fresh_client (granting 5 5 []); WS.delivered := [] |}).
Proof.
  apply (start_spins_while_disconnected (H := decimal_runtime) render never_fails 1000 10 3
           {| WS.client := fresh_client (granting 5 5 []); WS.delivered := [] |}).
  reflexivity.
Defined.

(** Three channels, the second without its instrument: the call raises
    with the first channel registered and the third not. *)
Lemma subscribe_with_nameless_channel :
  fst (WS.subscribe [ ticker "BTCUSDT"; nameless_ticker; ticker "ETHUSDT" ] (WS.Handler 1)
         (connected_client 1))
  = Raise (KeyError "instId") /\
  WS.callbacks
    (snd (WS.subscribe [ ticker "BTCUSDT"; nameless_ticker; ticker "ETHUSDT" ] (WS.Handler 1)
            (connected_client 1)))
  = WS.implied_step (WS.callbacks (connected_client 1))
      (WS.Subscribe [ ticker "BTCUSDT" ] (WS.Handler 1)).
Proof.
  destruct (failing_subscribe_registers_part (H := decimal_runtime)
              [ ticker "BTCUSDT" ] [ ticker "ETHUSDT" ] nameless_ticker (WS.Handler 1)
              (connected_client 1) (KeyError "instId")) as [_ Hsent].
  - vm_compute. reflexivity.
  - vm_compute. discriminate.
  - repeat constructor. eexists. reflexivity.
  - reflexivity.
  - destruct Hsent as (Hraise & Hcb & _); [vm_compute; reflexivity |].
    split; [exact Hraise | exact Hcb].
Defined.

(** Two refused connections, then one that goes through: with room
    for five attempts the third returns, ten seconds on; with room for
    two the reconnect ends by [RecursionError], ten seconds on, with no
    task started. *)
Lemma reconnect_third_time_lucky :
  fst (WS._reconnect 5 (fresh_client third_time_lucky)) = Ret tt /\
  WS.is_connected (snd (WS._reconnect 5 (fresh_client third_time_lucky))) = true /\
  WS.spawned (snd (WS._reconnect 5 (fresh_client third_time_lucky)))
  = [ "_keep_alive"; "_monitor_connection" ] /\
  WS.clock (snd (WS._reconnect 5 (fresh_client third_time_lucky))) = 10000 /\
  fst (WS._reconnect 2 (fresh_client third_time_lucky)) = Raise RecursionError /\
  WS.spawned (snd (WS._reconnect 2 (fresh_client third_time_lucky))) = [] /\
  WS.clock (snd (WS._reconnect 2 (fresh_client third_time_lucky))) = 10000.
Proof.
  destruct (reconnect_returns_once_connected (H := decimal_runtime) 5 2 []
              (fresh_client third_time_lucky)) as (_ & Hdone & _).
  - vm_compute. reflexivity.
  - reflexivity.
  - destruct (reconnect_returns_once_connected (H := decimal_runtime) 2 2 []
                (fresh_client third_time_lucky)) as (_ & _ & Hfull).
    + vm_compute. reflexivity.
    + reflexivity.
    + destruct Hdone as (Hret & Hconn & Hsp & _); [lia |].
      destruct Hfull as (Hraise & Hsp2 & _); [lia |].
      split; [exact Hret |]. split; [exact Hconn |]. split; [exact Hsp |].
      split; [vm_compute; reflexivity |]. split; [exact Hraise |].
      split; [exact Hsp2 | vm_compute; reflexivity].
Defined.

(** A private connection of a client made from the settings: the
    socket is opened, the login stops at the missing passphrase with
    nothing sent, and the socket is left open. *)
Lemma private_connect_without_passphrase :
  fst (WS._connect true (fresh_client (granting 1 1 []))) = Raise (KeyError "passphrase") /\
  WS.wire (snd (WS._connect true (fresh_client (granting 1 1 [])))) = [] /\
  WS.is_connected (snd (WS._connect true (fresh_client (granting 1 1 [])))) = false /\
  WS.ws (snd (WS._connect true (fresh_client (granting 1 1 []))))
  = Some {| WS.sock_url := "wss://ws.bitget.com/v2/ws/private"; WS.sock_open := true |}.
Proof.
  destruct (connect_starts_tasks_or_leaves_socket_open (H := decimal_runtime) true
              (fresh_client (granting 1 1 []))) as (Hcase & _ & _ & Hrepo).
  destruct (Hrepo environment main_config environment_config eq_refl eq_refl eq_refl)
    as [Hraise Hwire].
  rewrite Hraise in Hcase. destruct Hcase as (Hconn & _ & Hws).
  split; [exact Hraise |]. split; [exact Hwire |]. split; [exact Hconn | exact Hws].
Defined.

(** The first subscription of a fresh client: a public socket, two
    tasks, one frame. *)
Lemma first_subscription_connects :
  WS.ws (snd (WS.subscribe [ticker "BTCUSDT"] (WS.Handler 1) (fresh_client (granting 1 1 []))))
  = Some {| WS.sock_url := "wss://ws.bitget.com/v2/ws/public"; WS.sock_open := true |} /\
  WS.spawned (snd (WS.subscribe [ticker "BTCUSDT"] (WS.Handler 1)
                     (fresh_client (granting 1 1 []))))
  = [ "_keep_alive"; "_monitor_connection" ] /\
  map snd (WS.wire (snd (WS.subscribe [ticker "BTCUSDT"] (WS.Handler 1)
                           (fresh_client (granting 1 1 [])))))
  = [ WS.Op "subscribe" [ticker "BTCUSDT"] ].
Proof.
  pose proof (subscribe_connects_to_the_public_url (H := decimal_runtime)
                [ticker "BTCUSDT"] (WS.Handler 1) (fresh_client (granting 1 1 []))
                eq_refl) as Hsub.
  destruct Hsub as (Hws & Hsp & _).
  - vm_compute. discriminate.
  - split; [exact Hws |]. split; [exact Hsp |]. vm_compute. reflexivity.
Defined.

End MoreRuns.
